(** * pygtail: a shallow embedding of [src/pygtail/core.py]

    The development models the [Pygtail] class: the offset (sidecar) file,
    the discovery of hourly rotated log files, the lazily opened file handle,
    the rotation / truncation detector and the [next] iterator with its
    polling wait.

    Modelling conventions.
    - File contents are byte strings ([string]); positions are byte offsets.
      The contents of a [.gz] file are the decompressed bytes (compression
      itself is not modelled).
    - The file system maps paths to inodes and inodes to contents, so that an
      open handle keeps reading "its" inode after the path has been renamed
      away or replaced.
    - A naive [datetime] is a number of microseconds since
      0001-01-01T00:00:00 on the proleptic Gregorian time line; the calendar
      is only needed by [strftime] / [strptime].
    - [time_waited] is a Python float, and [time_waited += wait_step] is a
      float addition: floats are IEEE 754 binary64 numbers, the primitive
      floats of the kernel ([PrimFloat]), with rounding to nearest even,
      infinities and NaN as Python has them.  The settings [wait_step] and
      [wait_timeout] are numbers; an [int] given for one of them (such as
      the default [wait_timeout=20]) stands here for the float of the same
      value, which is exact up to 2^53 and with which Python's mixed
      comparisons and additions give the same results.
    - Python exceptions are results [Raise e]; every method is a function
      from the state (world and object) to a result and a new state; the
      state changes made before an exception is raised are kept, as in
      Python.
    - [time.sleep] lets the outside world run: the world carries a schedule
      of file-system changes, one entry consumed per sleep.
    - [logging] calls and [time.sleep] calls are recorded in a trace. *)

From Stdlib Require Import Floats.
From Stdlib Require Import ZArith String Ascii List Bool Lia.
From Stdlib Require Import DecimalString DecimalZ DecimalPos.
From stdpp Require Import base option gmap strings.
From Equations Require Import Equations.
Import ListNotations.

Local Open Scope string_scope.
Local Open Scope list_scope.
Local Open Scope Z_scope.

(* ===================================================================== *)
(** * Strings, as the Python code uses them *)
(* ===================================================================== *)

Module Str.

(** The line terminator. *)
Definition nl_char : ascii := "010"%char.
Definition nl : string := String nl_char EmptyString.

Definition len (s : string) : Z := Z.of_nat (String.length s).

Fixpoint drop (n : nat) (s : string) : string :=
  match n, s with
  | O, _ => s
  | S n', String _ r => drop n' r
  | S _, EmptyString => EmptyString
  end.

(** The next line of [s]: everything up to and including the first
    newline, or all of [s] when it holds no newline. *)
Fixpoint take_line (s : string) : string :=
  match s with
  | EmptyString => EmptyString
  | String c r =>
      if Ascii.eqb c nl_char then String c EmptyString
      else String c (take_line r)
  end.

(** [for line in fh]: the lines of a text, terminators kept. *)
Fixpoint lines_acc (cur : string) (s : string) : list string :=
  match s with
  | EmptyString =>
      match cur with EmptyString => [] | _ => [cur] end
  | String c r =>
      if Ascii.eqb c nl_char
      then (cur +:+ String c EmptyString) :: lines_acc EmptyString r
      else lines_acc (cur +:+ String c EmptyString) r
  end.
Definition lines (s : string) : list string := lines_acc EmptyString s.

(** [str.strip()]: ASCII white space removed at both ends. *)
Definition is_space (c : ascii) : bool :=
  let n := nat_of_ascii c in
  (Nat.eqb n 32 || (Nat.leb 9 n && Nat.leb n 13))%bool.

Fixpoint lstrip (s : string) : string :=
  match s with
  | String c r => if is_space c then lstrip r else s
  | EmptyString => EmptyString
  end.

Fixpoint rstrip (s : string) : string :=
  match s with
  | EmptyString => EmptyString
  | String c r =>
      match rstrip r with
      | EmptyString => if is_space c then EmptyString else String c EmptyString
      | r' => String c r'
      end
  end.

Definition strip (s : string) : string := rstrip (lstrip s).

(** [s.endswith(suffix)] *)
Definition endswith (s suffix : string) : bool :=
  let n := String.length s in
  let m := String.length suffix in
  (Nat.leb m n && String.eqb (drop (n - m) s) suffix)%bool.

(** A convenience for examples: each element followed by a newline. *)
Fixpoint unlines (l : list string) : string :=
  match l with
  | [] => EmptyString
  | x :: r => x +:+ nl +:+ unlines r
  end.

(** ["%s" % n] for an integer. *)
Definition of_Z (z : Z) : string := NilZero.string_of_int (Z.to_int z).

(** [int(s)] on a stripped string: an optional sign and decimal digits.
    (Python also accepts digit-group underscores and non-ASCII digits;
    these are left out.)  [None] stands for [ValueError]. *)
Definition py_int (s : string) : option Z :=
  match s with
  | String c r =>
      if Ascii.eqb c "+"
      then option_map (fun u => Z.of_int (Decimal.Pos u)) (NilZero.uint_of_string r)
      else option_map Z.of_int (NilZero.int_of_string s)
  | EmptyString => None
  end.

(** All characters of [s] satisfy [p]. *)
Fixpoint all (p : ascii -> bool) (s : string) : bool :=
  match s with
  | EmptyString => true
  | String c r => (p c && all p r)%bool
  end.

(** Decimal digits of a natural number, zero-padded to [width] places. *)
Definition digit (n : Z) : ascii := ascii_of_nat (48 + Z.to_nat (n mod 10)).

Fixpoint padded (width : nat) (n : Z) : string :=
  match width with
  | O => EmptyString
  | S w => padded w (n / 10) +:+ String (digit n) EmptyString
  end.

Definition is_digit (c : ascii) : bool :=
  let n := nat_of_ascii c in (Nat.leb 48 n && Nat.leb n 57)%bool.

(** Split off the leading run of decimal digits. *)
Fixpoint span_digits (s : string) : string * string :=
  match s with
  | String c r =>
      if is_digit c
      then let '(d, rest) := span_digits r in (String c d, rest)
      else (EmptyString, s)
  | EmptyString => (EmptyString, EmptyString)
  end.

Fixpoint digits_value (acc : Z) (s : string) : Z :=
  match s with
  | String c r => digits_value (10 * acc + (Z.of_nat (nat_of_ascii c) - 48)) r
  | EmptyString => acc
  end.

End Str.

(* ===================================================================== *)
(** * Naive datetimes *)
(* ===================================================================== *)

(** A [datetime] is the number of microseconds since 0001-01-01T00:00:00.
    Comparison, subtraction and [+ timedelta] are then plain integer
    arithmetic; the proleptic Gregorian calendar of Python's [datetime]
    module ([_ymd2ord], [_ord2ymd]) is needed for formatting and parsing. *)

Module Calendar.

Definition datetime := Z.

Definition us_per_second : Z := 1000000.
Definition us_per_hour : Z := 3600 * us_per_second.
Definition us_per_day : Z := 24 * us_per_hour.

Definition is_leap (year : Z) : bool :=
  ((year mod 4 =? 0) && (negb (year mod 100 =? 0) || (year mod 400 =? 0)))%bool.

Definition days_before_year (year : Z) : Z :=
  let y := year - 1 in y * 365 + y / 4 - y / 100 + y / 400.

Definition DAYS_IN_MONTH (month : Z) : Z :=
  match month with
  | 1 => 31 | 2 => 28 | 3 => 31 | 4 => 30 | 5 => 31 | 6 => 30
  | 7 => 31 | 8 => 31 | 9 => 30 | 10 => 31 | 11 => 30 | 12 => 31
  | _ => 0
  end.

Definition DAYS_BEFORE_MONTH (month : Z) : Z :=
  match month with
  | 1 => 0 | 2 => 31 | 3 => 59 | 4 => 90 | 5 => 120 | 6 => 151
  | 7 => 181 | 8 => 212 | 9 => 243 | 10 => 273 | 11 => 304 | 12 => 334
  | _ => 0
  end.

Definition days_in_month (year month : Z) : Z :=
  if ((month =? 2) && is_leap year)%bool then 29 else DAYS_IN_MONTH month.

Definition days_before_month (year month : Z) : Z :=
  DAYS_BEFORE_MONTH month + (if ((2 <? month) && is_leap year)%bool then 1 else 0).

Definition ymd2ord (year month day : Z) : Z :=
  days_before_year year + days_before_month year month + day.

Definition DI400Y : Z := 146097.
Definition DI100Y : Z := 36524.
Definition DI4Y : Z := 1461.

Definition ord2ymd (ordinal : Z) : Z * Z * Z :=
  let n := ordinal - 1 in
  let n400 := n / DI400Y in
  let n := n mod DI400Y in
  let year := n400 * 400 + 1 in
  let n100 := n / DI100Y in
  let n := n mod DI100Y in
  let n4 := n / DI4Y in
  let n := n mod DI4Y in
  let n1 := n / 365 in
  let n := n mod 365 in
  let year := year + n100 * 100 + n4 * 4 + n1 in
  if ((n1 =? 4) || (n100 =? 4))%bool then (year - 1, 12, 31)
  else
    let leapyear := ((n1 =? 3) && (negb (n4 =? 24) || (n100 =? 3)))%bool in
    let month := Z.shiftr (n + 50) 5 in
    let preceding :=
      DAYS_BEFORE_MONTH month + (if ((2 <? month) && leapyear)%bool then 1 else 0) in
    if n <? preceding
    then
      let month := month - 1 in
      let preceding :=
        preceding
        - (DAYS_IN_MONTH month + (if ((month =? 2) && leapyear)%bool then 1 else 0)) in
      (year, month, n - preceding + 1)
    else (year, month, n - preceding + 1).

(** [datetime(year, month, day, hour, minute, second, microsecond)] *)
Definition of_fields (year month day hour minute second us : Z) : datetime :=
  ((((ymd2ord year month day - 1) * 24 + hour) * 60 + minute) * 60 + second)
  * us_per_second + us.

(** [dt.replace(minute=0, second=0, microsecond=0)] *)
Definition floor_hour (t : datetime) : datetime := t - t mod us_per_hour.

(** [dt.strftime('%Y%m%d%H')] *)
Definition strftime_log_hour (t : datetime) : string :=
  let '(y, m, d) := ord2ymd (t / us_per_day + 1) in
  Str.padded 4 y +:+ Str.padded 2 m +:+ Str.padded 2 d
  +:+ Str.padded 2 ((t mod us_per_day) / us_per_hour).

(** [dt.strftime('%Y-%m-%dT%H:%M:%S.%f')] *)
Definition strftime_dt (t : datetime) : string :=
  let '(y, m, d) := ord2ymd (t / us_per_day + 1) in
  let r := t mod us_per_day in
  Str.padded 4 y +:+ "-" +:+ Str.padded 2 m +:+ "-" +:+ Str.padded 2 d
  +:+ "T" +:+ Str.padded 2 (r / us_per_hour)
  +:+ ":" +:+ Str.padded 2 ((r / (60 * us_per_second)) mod 60)
  +:+ ":" +:+ Str.padded 2 ((r / us_per_second) mod 60)
  +:+ "." +:+ Str.padded 6 (r mod us_per_second).

(** One numeric field of [strptime]: a run of between [lo] and [hi]
    digits, followed by the rest of the input. *)
Definition field (lo hi : nat) (s : string) : option (Z * nat * string) :=
  let '(d, rest) := Str.span_digits s in
  let n := String.length d in
  if (Nat.leb lo n && Nat.leb n hi)%bool
  then Some (Str.digits_value 0 d, n, rest)
  else None.

(** A literal character of the format ([re.IGNORECASE] applies). *)
Definition literal (c c' : ascii) (s : string) : option string :=
  match s with
  | String x r => if (Ascii.eqb x c || Ascii.eqb x c')%bool then Some r else None
  | EmptyString => None
  end.

Definition in_range (lo hi v : Z) : bool := ((lo <=? v) && (v <=? hi))%bool.

(** [datetime.strptime(s, '%Y-%m-%dT%H:%M:%S.%f')]; [None] stands for
    [ValueError].  Fields may be written with one or two digits, the
    fraction with one to six; the variant of [%d] with a leading blank
    and non-ASCII digits are left out. *)
Definition strptime_dt (s : string) : option datetime :=
  '(y, _, s) ← field 4 4 s;
  s ← literal "-" "-" s;
  '(m, _, s) ← field 1 2 s;
  s ← literal "-" "-" s;
  '(d, _, s) ← field 1 2 s;
  s ← literal "T" "t" s;
  '(hh, _, s) ← field 1 2 s;
  s ← literal ":" ":" s;
  '(mm, _, s) ← field 1 2 s;
  s ← literal ":" ":" s;
  '(ss, _, s) ← field 1 2 s;
  s ← literal "." "." s;
  '(f, nf, s) ← field 1 6 s;
  match s with
  | EmptyString =>
      if (in_range 1 9999 y && in_range 1 12 m
          && in_range 1 (days_in_month y m) d
          && in_range 0 23 hh && in_range 0 59 mm && in_range 0 59 ss)%bool
      then Some (of_fields y m d hh mm ss (f * 10 ^ Z.of_nat (6 - nf)))
      else None
  | _ => None
  end.

End Calendar.

(* ===================================================================== *)
(** * The operating system: files, handles, clock, log *)
(* ===================================================================== *)

Module OS.

(** Paths name inodes, inodes hold contents. *)
Record FS := mkFS {
  paths : gmap string Z;
  inodes : gmap Z string;
  next_ino : Z
}.

(** [os.stat(path)]: [(st_ino, st_size)], [None] for [OSError]. *)
Definition stat (fs : FS) (path : string) : option (Z * Z) :=
  ino ← paths fs !! path;
  c ← inodes fs !! ino;
  Some (ino, Str.len c).

(** [os.path.exists(path)] *)
Definition exists_ (fs : FS) (path : string) : bool :=
  match stat fs path with Some _ => true | None => false end.

(** [os.path.getsize(path)] of an existing file. *)
Definition getsize (fs : FS) (path : string) : Z :=
  match stat fs path with Some (_, size) => size | None => 0 end.

Definition content_of (fs : FS) (ino : Z) : string :=
  default EmptyString (inodes fs !! ino).

Definition read_file (fs : FS) (path : string) : option string :=
  ino ← paths fs !! path;
  inodes fs !! ino.

(** [fh = open(path, "w"); fh.write(data); fh.close()]: the file is
    created if the path is free and overwritten in place otherwise. *)
Definition write_file (fs : FS) (path data : string) : FS :=
  match paths fs !! path with
  | Some ino => mkFS (paths fs) (<[ino := data]> (inodes fs)) (next_ino fs)
  | None =>
      mkFS (<[path := next_ino fs]> (paths fs))
           (<[next_ino fs := data]> (inodes fs))
           (next_ino fs + 1)
  end.

(** An open (or closed) file object. *)
Record Handle := mkHandle {
  h_name : string;
  h_ino : Z;
  h_gz : bool;
  h_pos : Z;
  h_closed : bool
}.

(** [open(path, "r")] and [gzip.open(path, 'r')]; [None] for the error
    raised when the path does not exist. *)
Definition open_ (gz : bool) (fs : FS) (path : string) : option Handle :=
  '(ino, _) ← stat fs path;
  Some (mkHandle path ino gz 0 false).

(** [fh.seek(offset)].  A plain file accepts every non-negative offset,
    also beyond the end of the file, and raises on a negative one; a gzip
    stream reads forward to the offset and stops at the end of the
    data. *)
Definition seek (fs : FS) (h : Handle) (offset : Z) : option Handle :=
  if h_gz h
  then Some (mkHandle (h_name h) (h_ino h) (h_gz h)
               (Z.max 0 (Z.min offset (Str.len (content_of fs (h_ino h)))))
               (h_closed h))
  else if offset <? 0 then None
  else Some (mkHandle (h_name h) (h_ino h) (h_gz h) offset (h_closed h)).

(** The text of the file from position [pos] to its next newline. *)
Definition line_at (c : string) (pos : Z) : string :=
  if Str.len c <=? pos then EmptyString
  else Str.take_line (Str.drop (Z.to_nat pos) c).

(** [fh.readline()]: the line and the handle advanced past it. *)
Definition readline (fs : FS) (h : Handle) : string * Handle :=
  let line := line_at (content_of fs (h_ino h)) (h_pos h) in
  (line, mkHandle (h_name h) (h_ino h) (h_gz h) (h_pos h + Str.len line) (h_closed h)).

(** [fh.close()] *)
Definition close (h : Handle) : Handle :=
  mkHandle (h_name h) (h_ino h) (h_gz h) (h_pos h) true.

Inductive level := DEBUG | INFO | WARNING.

(** What the program does to the outside, most recent first. *)
Inductive event :=
| Logged (l : level) (msg : string)
| Slept (seconds : float).

Record World := mkWorld {
  w_fs : FS;
  w_now : Calendar.datetime;          (* datetime.now() *)
  w_hostname : string;                (* socket.gethostname() *)
  w_schedule : list (FS -> FS);       (* what others do during each sleep *)
  w_trace : list event
}.

Definition set_fs (w : World) (fs : FS) : World :=
  mkWorld fs (w_now w) (w_hostname w) (w_schedule w) (w_trace w).

(** [logging.<level>(msg)] *)
Definition log (l : level) (msg : string) (w : World) : World :=
  mkWorld (w_fs w) (w_now w) (w_hostname w) (w_schedule w) (Logged l msg :: w_trace w).

(** The whole microseconds in a duration that is not negative (0 for
    anything else). *)
Definition micros (seconds : float) : Z :=
  match Prim2SF seconds with
  | S754_finite false m e =>
      if 0 <=? e then Z.pos m * 2 ^ e * 1000000
      else Z.pos m * 1000000 / 2 ^ (- e)
  | _ => 0
  end.

(** [time.sleep(seconds)]: the clock advances and the next scheduled
    change of the file system, if any, takes place. *)
Definition sleep (seconds : float) (w : World) : World :=
  mkWorld
    (match w_schedule w with f :: _ => f (w_fs w) | [] => w_fs w end)
    (w_now w + micros seconds)
    (w_hostname w)
    (tl (w_schedule w))
    (Slept seconds :: w_trace w).

(** Changes of the file system made by other programs. *)

(** Append [data] to the file at [path]. *)
Definition append (path data : string) (fs : FS) : FS :=
  write_file fs path (default EmptyString (read_file fs path) +:+ data).

(** Rename the file at [path] away (to [archive] when given) and create
    a new file with contents [data] in its place. *)
Definition rotate (path : string) (archive : option string) (data : string)
    (fs : FS) : FS :=
  let moved :=
    match archive, paths fs !! path with
    | Some a, Some ino => <[a := ino]> (paths fs)
    | _, _ => paths fs
    end in
  mkFS (<[path := next_ino fs]> moved)
       (<[next_ino fs := data]> (inodes fs))
       (next_ino fs + 1).

(** Truncate the file at [path] in place and leave [data] in it. *)
Definition truncate (path data : string) (fs : FS) : FS :=
  write_file fs path data.

(** Remove the name [path]; the inode stays for whoever holds it open. *)
Definition remove (path : string) (fs : FS) : FS :=
  mkFS (delete path (paths fs)) (inodes fs) (next_ino fs).

(** A file system holding the given files, with inodes 1, 2, ... *)
Definition mkfs (files : list (string * string)) : FS :=
  fold_left (fun fs '(p, c) => write_file fs p c) files (mkFS ∅ ∅ 1).

End OS.

(* ===================================================================== *)
(** * Results, exceptions and the state monad of the methods *)
(* ===================================================================== *)

Import OS.

(** The exceptions the code can raise. *)
Inductive exn :=
| StopIteration
| OSError          (* also IOError: a missing file, an invalid seek *)
| ValueError
| IndexError
| AttributeError
| TypeError
| OverflowError.

(** The outcome of a call.  [OutOfFuel] is not a Python outcome: it marks
    a run of the polling loop that is still going on when the number of
    iterations granted to the model is used up. *)
Inductive Res (A : Type) :=
| Val (a : A)
| Raise (e : exn)
| OutOfFuel.
Arguments Val {A} a.
Arguments Raise {A} e.
Arguments OutOfFuel {A}.

(** The object, field by field as [__init__] creates it.  The three format
    strings ([_dt_format], [_filename_format], [_log_hour_format]) are
    constants and are built into [Calendar.strftime_dt],
    [Calendar.strptime_dt], [Calendar.strftime_log_hour] and [candidate]. *)
Record Pygtail := mkPygtail {
  filename : string;
  paranoid : bool;
  copytruncate : bool;
  wait_step : float;
  wait_timeout : float;
  time_waited : float;
  _offset_file : string;
  _offset_file_inode : option Z;
  _offset : option Z;
  _hostname : string;
  _fh : option Handle;
  _rotated_logfiles : list string;
  _catching_up : bool;
  _last_log : option Calendar.datetime
}.

Definition set_time_waited (v : float) (s : Pygtail) : Pygtail :=
  mkPygtail (filename s) (paranoid s) (copytruncate s) (wait_step s) (wait_timeout s)
    v (_offset_file s) (_offset_file_inode s) (_offset s) (_hostname s) (_fh s)
    (_rotated_logfiles s) (_catching_up s) (_last_log s).

Definition set_offset_file_inode (v : option Z) (s : Pygtail) : Pygtail :=
  mkPygtail (filename s) (paranoid s) (copytruncate s) (wait_step s) (wait_timeout s)
    (time_waited s) (_offset_file s) v (_offset s) (_hostname s) (_fh s)
    (_rotated_logfiles s) (_catching_up s) (_last_log s).

Definition set_offset (v : option Z) (s : Pygtail) : Pygtail :=
  mkPygtail (filename s) (paranoid s) (copytruncate s) (wait_step s) (wait_timeout s)
    (time_waited s) (_offset_file s) (_offset_file_inode s) v (_hostname s) (_fh s)
    (_rotated_logfiles s) (_catching_up s) (_last_log s).

Definition set_fh (v : option Handle) (s : Pygtail) : Pygtail :=
  mkPygtail (filename s) (paranoid s) (copytruncate s) (wait_step s) (wait_timeout s)
    (time_waited s) (_offset_file s) (_offset_file_inode s) (_offset s) (_hostname s) v
    (_rotated_logfiles s) (_catching_up s) (_last_log s).

Definition set_rotated_logfiles (v : list string) (s : Pygtail) : Pygtail :=
  mkPygtail (filename s) (paranoid s) (copytruncate s) (wait_step s) (wait_timeout s)
    (time_waited s) (_offset_file s) (_offset_file_inode s) (_offset s) (_hostname s)
    (_fh s) v (_catching_up s) (_last_log s).

Definition set_catching_up (v : bool) (s : Pygtail) : Pygtail :=
  mkPygtail (filename s) (paranoid s) (copytruncate s) (wait_step s) (wait_timeout s)
    (time_waited s) (_offset_file s) (_offset_file_inode s) (_offset s) (_hostname s)
    (_fh s) (_rotated_logfiles s) v (_last_log s).

Definition set_last_log (v : option Calendar.datetime) (s : Pygtail) : Pygtail :=
  mkPygtail (filename s) (paranoid s) (copytruncate s) (wait_step s) (wait_timeout s)
    (time_waited s) (_offset_file s) (_offset_file_inode s) (_offset s) (_hostname s)
    (_fh s) (_rotated_logfiles s) (_catching_up s) v.

(** The state a method runs in: the world and [self]. *)
Definition State : Type := World * Pygtail.

Definition M (A : Type) : Type := State -> Res A * State.

Definition ret {A} (a : A) : M A := fun st => (Val a, st).

Definition bind {A B} (m : M A) (k : A -> M B) : M B :=
  fun st =>
    match m st with
    | (Val a, st') => k a st'
    | (Raise e, st') => (Raise e, st')
    | (OutOfFuel, st') => (OutOfFuel, st')
    end.

Definition raise {A} (e : exn) : M A := fun st => (Raise e, st).

Definition out_of_fuel {A} : M A := fun st => (OutOfFuel, st).

(** [try: m except <the exceptions h handles>: h e] *)
Definition try_except {A} (m : M A) (h : exn -> option (M A)) : M A :=
  fun st =>
    match m st with
    | (Raise e, st') =>
        match h e with
        | Some k => k st'
        | None => (Raise e, st')
        end
    | r => r
    end.

Definition get_self : M Pygtail := fun st => (Val (snd st), st).
Definition get_world : M World := fun st => (Val (fst st), st).
Definition modify_self (f : Pygtail -> Pygtail) : M unit :=
  fun st => (Val tt, (fst st, f (snd st))).
Definition modify_world (f : World -> World) : M unit :=
  fun st => (Val tt, (f (fst st), snd st)).

(** An optional value, with the exception raised in its absence. *)
Definition or_raise {A} (e : exn) (o : option A) : M A :=
  match o with Some a => ret a | None => raise e end.

Declare Scope py_scope.
Delimit Scope py_scope with py.
Notation "x <- m ;; k" := (bind m (fun x => k))
  (at level 100, m at next level, right associativity) : py_scope.
Notation "m ;; k" := (bind m (fun _ => k))
  (at level 100, right associativity) : py_scope.
Local Open Scope py_scope.

Definition nonempty (s : string) : bool :=
  match s with EmptyString => false | _ => true end.


(* ===================================================================== *)
(** * The methods of [Pygtail] *)
(* ===================================================================== *)

(** [_is_closed]: no handle, or the handle is closed.  (A file object is
    always true, so [not self._fh] tests for [None].) *)
Definition _is_closed (self : Pygtail) : bool :=
  match _fh self with
  | None => true
  | Some h => h_closed h
  end.

(** [_parse_offset_file] *)
Definition _parse_offset_file : M unit :=
  w <- get_world ;;
  self <- get_self ;;
  if (exists_ (w_fs w) (_offset_file self)
      && negb (getsize (w_fs w) (_offset_file self) =? 0))%bool
  then
    let offset_data :=
      map Str.strip
        (Str.lines (default EmptyString (read_file (w_fs w) (_offset_file self)))) in
    f0 <- or_raise IndexError (offset_data !! 0%nat) ;;
    inode <- or_raise ValueError (Str.py_int f0) ;;
    modify_self (set_offset_file_inode (Some inode)) ;;
    f1 <- or_raise IndexError (offset_data !! 1%nat) ;;
    offset <- or_raise ValueError (Str.py_int f1) ;;
    modify_self (set_offset (Some offset)) ;;
    f2 <- or_raise IndexError (offset_data !! 2%nat) ;;
    last_log <- or_raise ValueError (Calendar.strptime_dt f2) ;;
    modify_self (set_last_log (Some last_log))
  else
    modify_self (set_offset (Some 0)).

(** [_get_offset] *)
Definition _get_offset : M (option Z) :=
  self <- get_self ;;
  (match _offset self with
   | None => _parse_offset_file
   | Some _ => ret tt
   end) ;;
  self <- get_self ;;
  ret (_offset self).

(** [_filehandle]: the handle it returns is [self._fh] itself. *)
Definition _filehandle : M Handle :=
  self <- get_self ;;
  (if _is_closed self
   then
     fname <- (match _rotated_logfiles self with
               | f :: rest => modify_self (set_rotated_logfiles rest) ;; ret f
               | [] => ret (filename self)
               end) ;;
     w <- get_world ;;
     fh <- or_raise OSError (open_ (Str.endswith fname ".gz") (w_fs w) fname) ;;
     modify_self (set_fh (Some fh)) ;;
     offset <- _get_offset ;;
     offset <- or_raise TypeError offset ;;
     fh <- or_raise OSError (seek (w_fs w) fh offset) ;;
     modify_self (set_fh (Some fh))
   else ret tt) ;;
  self <- get_self ;;
  or_raise AttributeError (_fh self).

(** [self._filehandle().readline()] *)
Definition _filehandle_readline : M string :=
  fh <- _filehandle ;;
  w <- get_world ;;
  let '(line, fh') := readline (w_fs w) fh in
  modify_self (set_fh (Some fh')) ;;
  ret line.

(** [_update_offset_file] *)
Definition _update_offset_file : M unit :=
  self <- get_self ;;
  if _is_closed self then ret tt
  else
    fh <- _filehandle ;;
    let offset := h_pos fh in
    w <- get_world ;;
    st <- or_raise OSError (stat (w_fs w) (filename self)) ;;
    let inode := fst st in
    modify_world (fun w =>
      set_fs w
        (write_file (w_fs w) (_offset_file self)
           (Str.of_Z inode +:+ Str.nl +:+ Str.of_Z offset +:+ Str.nl
            +:+ Calendar.strftime_dt (w_now w) +:+ Str.nl))).

(** The name [_filename_format] gives to the archive of the hour of [t]. *)
Definition candidate (self : Pygtail) (t : Calendar.datetime) : string :=
  filename self +:+ "_" +:+ _hostname self +:+ "_"
  +:+ Calendar.strftime_log_hour t +:+ ".gz".

(** The [while start < end] loop of [_determine_rotated_logfiles]. *)
Equations? rotated_while (fs : FS) (self : Pygtail)
    (end_ start : Calendar.datetime) (files_list : list string)
    : list string
    by wf (Z.to_nat ((end_ - start + Calendar.us_per_hour - 1) / Calendar.us_per_hour)) lt :=
  rotated_while fs self end_ start files_list with Z_lt_dec start end_ => {
    | left _ :=
        rotated_while fs self end_ (start + Calendar.us_per_hour)
          (if exists_ fs (candidate self start)
           then files_list ++ [candidate self start]
           else files_list);
    | right _ := files_list }.
Proof.
  unfold Calendar.us_per_hour, Calendar.us_per_second.
  replace (end_ - (start + 3600 * 1000000) + 3600 * 1000000 - 1)
    with (end_ - start - 1) by lia.
  replace (end_ - start + 3600 * 1000000 - 1)
    with (end_ - start - 1 + 1 * (3600 * 1000000)) by lia.
  rewrite Z.div_add by lia.
  assert (0 <= (end_ - start - 1) / (3600 * 1000000))
    by (apply Z.div_pos; lia).
  lia.
Qed.

(** [_determine_rotated_logfiles]; it is called with [_last_log] set. *)
Definition _determine_rotated_logfiles (w : World) (self : Pygtail)
    : Res (list string) :=
  match _last_log self with
  | None => Raise AttributeError
  | Some last_log =>
      let end_ := Calendar.floor_hour (w_now w) in
      let start := Calendar.floor_hour last_log in
      let elapsed_hours := (end_ - start) / Calendar.us_per_second / 60 / 60 in
      if elapsed_hours =? 0 then Val []
      else Val (rotated_while (w_fs w) self end_ start [])
  end.

(** [_reload] *)
Definition _reload : M unit :=
  self <- get_self ;;
  fh <- or_raise AttributeError (_fh self) ;;
  modify_self (set_fh (Some (close fh))) ;;
  modify_self (set_offset (Some 0)).

(** [_check_rotate_truncate] *)
Definition _check_rotate_truncate : M unit :=
  fh <- _filehandle ;;
  let start_pos := h_pos fh in
  let fh_ino := h_ino fh in
  w <- get_world ;;
  self <- get_self ;;
  match stat (w_fs w) (filename self) with
  | None =>
      modify_world (log INFO "File moved, reloading...") ;;
      _reload
  | Some (current_ino, current_size) =>
      (if negb (fh_ino =? current_ino)
       then modify_world (log INFO "File rotated, reloading...") ;; _reload
       else ret tt) ;;
      (if (copytruncate self && (current_size <? start_pos))%bool
       then modify_world (log INFO "File truncated, reloading...") ;; _reload
       else ret tt)
  end.

(** The exception [time.sleep(seconds)] raises, as CPython 3 has it: the
    duration is first converted to nanoseconds, which fails with
    [ValueError] for a NaN and with [OverflowError] from 2^63 ns on (so
    for an infinity); then a negative duration is a [ValueError]. *)
Definition sleep_error (seconds : float) : option exn :=
  if is_nan seconds then Some ValueError
  else if (9223372036854775808 <=? abs (seconds * 1000000000))%float
  then Some OverflowError
  else if (seconds <? 0)%float then Some ValueError
  else None.

(** [time.sleep(seconds)] *)
Definition time_sleep (seconds : float) : M unit :=
  match sleep_error seconds with
  | Some e => raise e
  | None => modify_world (sleep seconds)
  end.

(** [_wait_for_update]; [fuel] bounds the number of polls of this run of
    the model. *)
Fixpoint _wait_for_update (fuel : nat) : M string :=
  self <- get_self ;;
  if ((wait_timeout self <? 0)%float
      || (time_waited self <? wait_timeout self)%float)%bool
  then
    match fuel with
    | O => out_of_fuel
    | S fuel' =>
        time_sleep (wait_step self) ;;
        modify_self (fun s => set_time_waited (time_waited s + wait_step s)%float s) ;;
        line <- _filehandle_readline ;;
        if nonempty line
        then modify_self (set_time_waited 0%float) ;; ret line
        else _check_rotate_truncate ;; _wait_for_update fuel'
    end
  else raise StopIteration.

(** [_get_next_line] *)
Definition _get_next_line (fuel : nat) : M string :=
  line <- _filehandle_readline ;;
  if nonempty line then ret line
  else
    self <- get_self ;;
    if _catching_up self then raise StopIteration
    else _check_rotate_truncate ;; _wait_for_update fuel.

(** [getattr(fh, 'filename') or getattr(fh, 'name')]: only a gzip file
    object has the attribute [filename]. *)
Definition fh_filename (fh : option Handle) : M string :=
  match fh with
  | Some h => if h_gz h then ret (h_name h) else raise AttributeError
  | None => raise AttributeError
  end.

Definition on_StopIteration {A} (k : M A) (e : exn) : option (M A) :=
  match e with StopIteration => Some k | _ => None end.

(** [next] *)
Definition next (fuel : nat) : M string :=
  line <-
    try_except (_get_next_line fuel)
      (on_StopIteration
         (self <- get_self ;;
          if _catching_up self
          then
            from <- fh_filename (_fh self) ;;
            modify_world
              (log DEBUG
                 ("Finished processing " +:+ from +:+ ", moving to "
                  +:+ match _rotated_logfiles self with
                      | f :: _ => if nonempty f then f else filename self
                      | [] => filename self
                      end)) ;;
            _reload ;;
            modify_self (fun s => set_catching_up
                                    (match _rotated_logfiles s with
                                     | [] => false | _ => true end) s) ;;
            (* Start on the next rotated file *)
            try_except (_get_next_line fuel)
              (on_StopIteration (_update_offset_file ;; raise StopIteration))
          else
            modify_world (log DEBUG "StopIteration at the main file, exiting") ;;
            _update_offset_file ;;
            raise StopIteration)) ;;
  self <- get_self ;;
  (if paranoid self then _update_offset_file else ret tt) ;;
  ret line.

(** [__del__] *)
Definition __del__ : M unit :=
  _update_offset_file ;;
  self <- get_self ;;
  if _is_closed self then ret tt
  else modify_self (fun s => set_fh (option_map close (_fh s)) s).

(** [readlines]: [next] until [StopIteration]. *)
Fixpoint readlines (fuel : nat) : M (list string) :=
  match fuel with
  | O => out_of_fuel
  | S fuel' =>
      fun st =>
        match next fuel st with
        | (Val line, st') =>
            (rest <- readlines fuel' ;; ret (line :: rest)) st'
        | (Raise StopIteration, st') => (Val [], st')
        | (Raise e, st') => (Raise e, st')
        | (OutOfFuel, st') => (OutOfFuel, st')
        end
  end.

(** [socket.gethostname().split('.')[0]] *)
Fixpoint before_dot (s : string) : string :=
  match s with
  | EmptyString => EmptyString
  | String c r => if Ascii.eqb c "."%char then EmptyString else String c (before_dot r)
  end.

(** [x or y] on strings: an absent or empty [x] gives [y]. *)
Definition str_or (x : option string) (y : string) : string :=
  match x with
  | Some s => if nonempty s then s else y
  | None => y
  end.

(** The assignments of [__init__] that come before the offset file is
    read. *)
Definition new_self (filename : string) (offset_file : option string)
    (paranoid copytruncate : bool) (wait_step wait_timeout : float)
    (host_name : option string) (w : World) : Pygtail :=
  mkPygtail filename paranoid copytruncate wait_step wait_timeout 0%float
    (str_or offset_file (filename +:+ ".offset")) None None
    (str_or host_name (before_dot (w_hostname w))) None [] false None.

(** The rest of [__init__]: load the cursor and look for archives. *)
Definition init_body : M unit :=
  _parse_offset_file ;;
  self <- get_self ;;
  match _last_log self with
  | Some _ =>
      w <- get_world ;;
      match _determine_rotated_logfiles w self with
      | Val l =>
          modify_self (set_rotated_logfiles l) ;;
          modify_self (set_catching_up (match l with [] => false | _ => true end))
      | Raise e => raise e
      | OutOfFuel => out_of_fuel
      end
  | None => ret tt
  end.

(** [__init__]: the object, or the exception that leaves none. *)
Definition __init__ (filename : string) (offset_file : option string)
    (paranoid copytruncate : bool) (wait_step wait_timeout : float)
    (host_name : option string) (w : World) : Res Pygtail * World :=
  match init_body (w, new_self filename offset_file paranoid copytruncate
                        wait_step wait_timeout host_name w) with
  | (Val _, (w', self')) => (Val self', w')
  | (Raise e, (w', _)) => (Raise e, w')
  | (OutOfFuel, (w', _)) => (OutOfFuel, w')
  end.

(** The object after [_reload] has closed the handle [h]. *)
Definition reloaded (h : Handle) (self : Pygtail) : Pygtail :=
  set_offset (Some 0) (set_fh (Some (close h)) self).

(** The operations of the operating system and of the libraries are kept
    folded while the methods are unfolded. *)
Arguments stat : simpl never.
Arguments exists_ : simpl never.
Arguments getsize : simpl never.
Arguments read_file : simpl never.
Arguments write_file : simpl never.
Arguments open_ : simpl never.
Arguments seek : simpl never.
Arguments readline : simpl never.
Arguments line_at : simpl never.
Arguments close : simpl never.
Arguments sleep : simpl never.
Arguments log : simpl never.
Arguments set_fs : simpl never.
Arguments Str.endswith : simpl never.
Arguments Str.strip : simpl never.
Arguments Str.lines : simpl never.
Arguments Str.py_int : simpl never.
Arguments Str.of_Z : simpl never.
Arguments Str.len : simpl never.
Arguments Calendar.strptime_dt : simpl never.
Arguments Calendar.strftime_dt : simpl never.
Arguments Calendar.strftime_log_hour : simpl never.
Arguments Calendar.floor_hour : simpl never.
Arguments candidate : simpl never.
Arguments micros : simpl never.
Arguments sleep_error : simpl never.

(** The fields [_parse_offset_file] reads from the offset file: its lines,
    stripped. *)
Definition offset_data (w : World) (self : Pygtail) : list string :=
  map Str.strip
    (Str.lines (default EmptyString (read_file (w_fs w) (_offset_file self)))).

(** The object after a successful load of the three fields. *)
Definition loaded (inode offset : Z) (t : Calendar.datetime) (self : Pygtail)
    : Pygtail :=
  set_last_log (Some t) (set_offset (Some offset) (set_offset_file_inode (Some inode) self)).

(* ===================================================================== *)
(** * Notions used in the statements *)
(* ===================================================================== *)

(** The condition of the [while] of [_wait_for_update]. *)
Definition budget_left (self : Pygtail) : bool :=
  ((wait_timeout self <? 0)%float
   || (time_waited self <? wait_timeout self)%float)%bool.

(** The settings of the object, which no method assigns. *)
Definition same_config (s s' : Pygtail) : Prop :=
  filename s' = filename s /\ paranoid s' = paranoid s
  /\ copytruncate s' = copytruncate s /\ wait_step s' = wait_step s
  /\ wait_timeout s' = wait_timeout s /\ _offset_file s' = _offset_file s
  /\ _hostname s' = _hostname s.

(** The durations of the sleeps recorded in a trace, most recent first. *)
Fixpoint slept (trace : list event) : list float :=
  match trace with
  | [] => []
  | Slept d :: r => d :: slept r
  | Logged _ _ :: r => slept r
  end.

(** A step from [st] to [st'] during which the program has not slept (the
    clock, the schedule of the outside world and the recorded sleeps are
    the same) and has not touched [time_waited]. *)
Definition quiet (st st' : State) : Prop :=
  same_config (snd st) (snd st')
  /\ time_waited (snd st') = time_waited (snd st)
  /\ w_schedule (fst st') = w_schedule (fst st)
  /\ w_now (fst st') = w_now (fst st)
  /\ w_hostname (fst st') = w_hostname (fst st)
  /\ slept (w_trace (fst st')) = slept (w_trace (fst st)).


(** [t] after [k] additions of [step], as [time_waited += wait_step]
    computes it. *)
Fixpoint add_steps (k : nat) (step t : float) : float :=
  match k with
  | O => t
  | S k' => add_steps k' step (t + step)%float
  end.

(** A computation that is quiet, leaves [_catching_up] alone, ends, and
    does not raise [StopIteration]. *)
Definition tame {A} (m : M A) : Prop :=
  forall st,
    quiet st (snd (m st))
    /\ _catching_up (snd (snd (m st))) = _catching_up (snd st)
    /\ fst (m st) <> OutOfFuel
    /\ fst (m st) <> Raise StopIteration.

(** From [st] to [st'] the program has slept [k] times, for [wait_step]
    each, and [time_waited] is its former value with [wait_step] added [k]
    times: the counter has been advanced once per sleep, and not reset. *)
Definition stepped (k : nat) (st st' : State) : Prop :=
  time_waited (snd st') = add_steps k (wait_step (snd st)) (time_waited (snd st))
  /\ slept (w_trace (fst st'))
     = repeat (wait_step (snd st)) k ++ slept (w_trace (fst st)).

(** From [st] to [st'] the program has slept at least once, for
    [wait_step] each time, and [time_waited] is back at zero. *)
Definition restarted (st st' : State) : Prop :=
  time_waited (snd st') = 0%float
  /\ exists k, slept (w_trace (fst st'))
               = repeat (wait_step (snd st)) (S k) ++ slept (w_trace (fst st)).

(** A computation that assigns none of the settings and that either only
    advances the counter, once per sleep, or returns a value with the
    counter reset after at least one sleep. *)
Definition accumulates {A} (m : M A) : Prop :=
  forall st,
    same_config (snd st) (snd (snd (m st)))
    /\ ((exists k, stepped k st (snd (m st)))
        \/ ((exists a, fst (m st) = Val a) /\ restarted st (snd (m st)))).

(** A computation that, started with the wait used up, is quiet and
    ends. *)
Definition calm {A} (m : M A) : Prop :=
  forall st,
    budget_left (snd st) = false ->
    quiet st (snd (m st)) /\ fst (m st) <> OutOfFuel.

(** The text [_update_offset_file] writes. *)
Definition cursor_text (inode offset : Z) (now : Calendar.datetime) : string :=
  Str.of_Z inode +:+ Str.nl +:+ Str.of_Z offset +:+ Str.nl
  +:+ Calendar.strftime_dt now +:+ Str.nl.

(** A state in which [_update_offset_file] goes through: there is no open
    handle, or the live path exists. *)
Definition updatable (st : State) : Prop :=
  _is_closed (snd st) = true
  \/ exists h, _fh (snd st) = Some h /\ h_closed h = false
               /\ exists_ (w_fs (fst st)) (filename (snd st)) = true.

(** The handle a reopening of the live path at offset 0 leaves after its
    first read. *)
Definition reopened (self : Pygtail) (ino : Z) (line : string) : Handle :=
  mkHandle (filename self) ino (Str.endswith (filename self) ".gz") (Str.len line) false.

(** In [st] the handle is open and stands right after [line], which it has
    just read: the bytes before its position are those of [line]. *)
Definition just_read (st : State) (line : string) : Prop :=
  exists h,
    _fh (snd st) = Some h /\ h_closed h = false
    /\ line_at (content_of (w_fs (fst st)) (h_ino h)) (h_pos h - Str.len line) = line.

(** A character that is neither white space nor a plus sign, and one that
    is a digit or a minus sign. *)
Definition plain (c : ascii) : bool :=
  (negb (Str.is_space c) && negb (Ascii.eqb c "+"))%bool.

Definition digit_or_minus (c : ascii) : bool :=
  (Str.is_digit c || Ascii.eqb c "-")%bool.

(** A text that does not go on with a digit. *)
Definition no_digit_ahead (s : string) : bool :=
  match s with
  | EmptyString => true
  | String c _ => negb (Str.is_digit c)
  end.

(** Day [r] of a cycle of 400 years: [_ord2ymd] gives a date of the
    calendar and [_ymd2ord] leads back. *)
Definition era_day_ok (r : Z) : bool :=
  let '(y, m, d) := Calendar.ord2ymd (r + 1) in
  ((1 <=? y) && (y <=? 400) && (1 <=? m) && (m <=? 12) && (1 <=? d)
   && (d <=? Calendar.days_in_month y m)
   && (Calendar.ymd2ord y m d =? r + 1))%bool.

(** [p] holds of the [n] integers from [i] on. *)
Fixpoint all_from (p : Z -> bool) (i : Z) (n : nat) : bool :=
  match n with
  | O => true
  | S k => (p i && all_from p (i + 1) k)%bool
  end.

(** The first instant after the last year, 9999, of Python's datetimes. *)
Definition datetime_end : Calendar.datetime :=
  Calendar.days_before_year 10000 * Calendar.us_per_day.

(** One poll of the wait loop: sleep for [wait_step], add it to
    [time_waited], read a line. *)
Definition poll (st : State) : Res string * State :=
  _filehandle_readline
    (sleep (wait_step (snd st)) (fst st),
     set_time_waited (time_waited (snd st) + wait_step (snd st))%float (snd st)).

(** The bounded wait, as the specification words it: with the wait used up
    the outcome is exhaustion; otherwise the reader polls; a poll that
    reads a line ends the wait with this line and the counter at zero; a
    poll that reads nothing is followed by the detector and by more
    waiting; an error of a poll ends the wait. *)
Inductive waits : State -> Res string * State -> Prop :=
| waits_exhausted st :
    (wait_timeout (snd st) <? 0)%float = false ->
    (time_waited (snd st) <? wait_timeout (snd st))%float = false ->
    waits st (Raise StopIteration, st)
| waits_line st line st1 :
    budget_left (snd st) = true ->
    poll st = (Val line, st1) ->
    line <> EmptyString ->
    waits st (Val line, (fst st1, set_time_waited 0%float (snd st1)))
| waits_again st st1 st2 r :
    budget_left (snd st) = true ->
    poll st = (Val EmptyString, st1) ->
    _check_rotate_truncate st1 = (Val tt, st2) ->
    waits st2 r ->
    waits st r
| waits_error st e st1 :
    budget_left (snd st) = true ->
    poll st = (Raise e, st1) ->
    waits st (Raise e, st1).

(* ===================================================================== *)
(** * Concrete scenarios *)
(* ===================================================================== *)

(** 2020-01-01, 10:30, on host [host]. *)
Definition ten_thirty : Calendar.datetime := Calendar.of_fields 2020 1 1 10 30 0 0.

Definition world_of (fs : FS) (now : Calendar.datetime) (schedule : list (FS -> FS))
    : World :=
  mkWorld fs now "host.example.com" schedule [].

(** A reader of [log] with the default settings, except as given. *)
Definition reader (paranoid copytruncate : bool) (wait_timeout : float)
    (offset : Z) (fh : option Handle) : Pygtail :=
  mkPygtail "log" paranoid copytruncate 0.5%float wait_timeout 0%float "log.offset"
    None (Some offset) "host" fh [] false None.

(** An open handle on the plain file [log] with inode [ino]. *)
Definition log_handle (ino pos : Z) : Handle := mkHandle "log" ino false pos false.

(** [log] holds the two lines [a] and [b]. *)
Definition fs_ab : FS := mkfs [("log", Str.unlines ["a"; "b"])].

(** [log], read up to position 4, has shrunk to the single line [x]. *)
Definition fs_shrunk : FS := mkfs [("log", Str.unlines ["x"])].

(** Offset files: a complete one, one cut short, and one with a field that
    is not a number. *)
Definition sidecar_good : string :=
  Str.unlines ["1"; "4"; "2020-01-01T10:30:00.000000"].
Definition sidecar_short : string := Str.unlines ["1"; "4"].
Definition sidecar_bad : string :=
  Str.unlines ["1"; "four"; "2020-01-01T10:30:00.000000"].

Definition fs_with_sidecar (sidecar : string) : FS :=
  mkfs [("log", Str.unlines ["a"; "b"]); ("log.offset", sidecar)].

(** The hour of [t] and the hours after it. *)
Definition hour_after (k : Z) (t : Calendar.datetime) : Calendar.datetime :=
  Calendar.floor_hour t + k * Calendar.us_per_hour.

(** The archives of the hours [H0], ..., [H0 + n - 1] that exist, oldest
    first. *)
Definition archives_from (fs : FS) (self : Pygtail) (H0 : Calendar.datetime)
    (n : nat) : list string :=
  List.filter (exists_ fs)
    (map (fun k => candidate self (H0 + Z.of_nat k * Calendar.us_per_hour)) (seq 0 n)).

(** Last read at 10:30, now 13:05; the archives of 11h and 13h exist, those
    of 10h and 12h do not. *)
Definition reader_1030 : Pygtail :=
  mkPygtail "log" false true 0.5%float 20%float 0%float "log.offset"
    (Some 1) (Some 3) "host" None [] false (Some ten_thirty).

Definition fs_archives_11_13 : FS :=
  mkfs [("log", Str.unlines ["a"; "b"]);
        ("log_host_2020010111.gz", Str.unlines ["eleven"]);
        ("log_host_2020010113.gz", Str.unlines ["thirteen"])].

Definition world_1305 : World :=
  world_of fs_archives_11_13 (Calendar.of_fields 2020 1 1 13 5 0 0) [].

(** The file [_filehandle] opens next: the head of the archive queue, or
    the live path when the queue is empty. *)
Definition next_name (self : Pygtail) : string :=
  match _rotated_logfiles self with
  | f :: _ => f
  | [] => filename self
  end.

(** The offset file says: inode 1, offset 3, last read at 10:30.  It is
    now 11:05 and the archive of 10h exists. *)
Definition fs_archive_10 : FS :=
  mkfs [("log", Str.unlines ["new"]);
        ("log.offset", Str.unlines ["1"; "3"; "2020-01-01T10:30:00.000000"]);
        ("log_host_2020010110.gz", Str.unlines ["abcdef"; "xyz"])].

Definition world_1105 : World :=
  world_of fs_archive_10 (Calendar.of_fields 2020 1 1 11 5 0 0) [].

(** The session [__init__] starts in that world. *)
Definition session_1105 : Pygtail :=
  mkPygtail "log" false true 0.5%float 20%float 0%float "log.offset"
    (Some 1) (Some 3) "host" None ["log_host_2020010110.gz"] true (Some ten_thirty).

(** [log] has been read to its end (position 4) and nothing comes. *)
Definition reader_at_end (wait_timeout : float) : Pygtail :=
  reader false true wait_timeout 0 (Some (log_handle 1 4)).

(** The reader at the end of [log] after a full wait of 20 seconds. *)
Definition reader_waited_out : Pygtail :=
  set_time_waited 20%float (reader_at_end 20%float).

(** [log] (inode 1, lines [a] and [b]) has been renamed to [log.1] and a
    new [log] (inode 2) holds the line [c]. *)
Definition fs_rotated : FS := rotate "log" (Some "log.1") (Str.unlines ["c"]) fs_ab.

(** The state a reader at the end of [log] is in after a pull that has
    waited the full 20 seconds in vain. *)
Definition waited_out : State :=
  snd (next 100 (world_of fs_ab ten_thirty [], reader_at_end 20)).

(** Then [log] is truncated in place and the line [x] is written to it. *)
Definition waited_out_then_truncated : State :=
  (set_fs (fst waited_out) (truncate "log" (Str.unlines ["x"]) (w_fs (fst waited_out))),
   snd waited_out).

(** A paranoid reader that starts on [log] with no offset file. *)
Definition paranoid_start : State :=
  (world_of fs_ab ten_thirty [], reader true true 20 0 None).

(* ===================================================================== *)
(** * The remaining methods and further notions *)
(* ===================================================================== *)

(** [__next__], the Python 3 name of [next]. *)
Definition __next__ (fuel : nat) : M string := next fuel.

(** [''.join(lines)] *)
Fixpoint join (lines : list string) : string :=
  match lines with
  | [] => EmptyString
  | l :: rest => l +:+ join rest
  end.

(** [read]: the unread lines as one string, [None] when there is none.
    Lines are byte strings here, so that the join cannot raise [TypeError]
    and the decoding fallback of the source is not reached. *)
Definition read (fuel : nat) : M (option string) :=
  lines <- readlines fuel ;;
  match lines with
  | [] => ret None
  | _ => ret (Some (join lines))
  end.

(** What the detector decides about the handle [h]: the live path is gone,
    or names another inode, or (with copytruncate) is shorter than the read
    position. *)
Definition stale (w : World) (self : Pygtail) (h : Handle) : bool :=
  match stat (w_fs w) (filename self) with
  | None => true
  | Some (ino, size) =>
      (negb (h_ino h =? ino) || (copytruncate self && (size <? h_pos h)))%bool
  end.

(** The handle [h] after it has read [line]. *)
Definition advanced (h : Handle) (line : string) : Handle :=
  mkHandle (h_name h) (h_ino h) (h_gz h) (h_pos h + Str.len line) (h_closed h).

(** The handle on the file [name] with inode [ino], opened and moved to
    position [pos]. *)
Definition opened (name : string) (ino pos : Z) : Handle :=
  mkHandle name ino (Str.endswith name ".gz") pos false.

(** [log] has been read to its end and has then been removed. *)
Definition fs_removed : FS := remove "log" fs_ab.

(** The object [__init__] makes from a well-formed offset file: the three
    fields loaded, and the archives [l] found queued. *)
Definition resumed (inode offset : Z) (t : Calendar.datetime) (l : list string)
    (self0 : Pygtail) : Pygtail :=
  set_catching_up (match l with [] => false | _ => true end)
    (set_rotated_logfiles l (loaded inode offset t self0)).

(** The messages logged at level WARNING, most recent first. *)
Fixpoint warnings (trace : list event) : list string :=
  match trace with
  | [] => []
  | Logged WARNING msg :: r => msg :: warnings r
  | _ :: r => warnings r
  end.

(** A step from [st] to [st'] that has taken archives from the front of
    the queue, if any, and nothing else into or out of it, and that has
    logged no warning. *)
Definition proceeds (st st' : State) : Prop :=
  (exists n, _rotated_logfiles (snd st') = skipn n (_rotated_logfiles (snd st)))
  /\ warnings (w_trace (fst st')) = warnings (w_trace (fst st)).

Definition orderly {A} (m : M A) : Prop :=
  forall st, proceeds st (snd (m st)).

(** Archives are queued only while the reader is catching up. *)
Definition queue_in_step (self : Pygtail) : Prop :=
  _catching_up self = false -> _rotated_logfiles self = [].

(** A computation that keeps the property [P] of the object. *)
Definition preserves (P : Pygtail -> Prop) {A} (m : M A) : Prop :=
  forall st, P (snd st) -> P (snd (snd (m st))).

(** The message [next] logs when it leaves the file of [h] for the next
    one. *)
Definition moving_msg (h : Handle) (self : Pygtail) : string :=
  "Finished processing " +:+ h_name h +:+ ", moving to "
  +:+ match _rotated_logfiles self with
      | f :: _ => if nonempty f then f else filename self
      | [] => filename self
      end.

(** The object after [next] has left the file of [h], at its end, for the
    next file. *)
Definition moved_on (h : Handle) (self : Pygtail) : Pygtail :=
  set_catching_up (match _rotated_logfiles self with [] => false | _ => true end)
    (reloaded h self).

(** The live file and the archives of 10h, 11h and 12h, the last of them
    empty; a reader that is catching up, with an archive open and others
    queued. *)
Definition fs_three_archives : FS :=
  mkfs [("log", Str.unlines ["live"]);
        ("log_host_2020010110.gz", Str.unlines ["ten"]);
        ("log_host_2020010111.gz", Str.unlines ["eleven"]);
        ("log_host_2020010112.gz", EmptyString)].

Definition archive_handle (name : string) (ino pos : Z) : Handle :=
  mkHandle name ino true pos false.

Definition catching_up_reader (fh : option Handle) (queue : list string) : Pygtail :=
  mkPygtail "log" false true 0.5%float 20%float 0%float "log.offset"
    (Some 1) (Some 0) "host" fh queue true (Some ten_thirty).

(** The handle [h] moved to position [pos]. *)
Definition at_pos (h : Handle) (pos : Z) : Handle :=
  mkHandle (h_name h) (h_ino h) (h_gz h) pos (h_closed h).

(** The reader has the live file open through [h], is neither catching up
    nor paranoid, waits a bounded time in steps that are not zero, and
    nobody else touches the file system. *)
Definition settled (w : World) (self : Pygtail) (h : Handle) (size : Z) : Prop :=
  w_schedule w = [] /\ _fh self = Some h /\ h_closed h = false
  /\ _catching_up self = false /\ paranoid self = false
  /\ sleep_error (wait_step self) = None
  /\ stat (w_fs w) (filename self) = Some (h_ino h, size)
  /\ 0 <= h_pos h <= size.

(** The float Python reads [0.1] as. *)
Definition tenth : float := 0x1.999999999999ap-4%float.

(** The reader at the end of [log] with the given step, timeout and time
    waited so far. *)
Definition stepping_reader_at_end (wait_step wait_timeout time_waited : float)
    : Pygtail :=
  mkPygtail "log" false true wait_step wait_timeout time_waited "log.offset"
    None (Some 0) "host" (Some (log_handle 1 4)) [] false None.

(** The offset is 0, as [_reload] leaves it. *)
Definition at_start (self : Pygtail) : Prop := _offset self = Some 0.

(** The offset file holds a cursor written at 10:30 for inode 7, offset 4;
    the file now at [log] is another one (inode 1), with the lines [abc]
    and [def]. *)
Definition fs_replaced : FS :=
  mkfs [("log", Str.unlines ["abc"; "def"]);
        ("log.offset", cursor_text 7 4 ten_thirty)].
(* ===================================================================== *)
(** * Basic facts about the methods *)
(* ===================================================================== *)

Section MethodFacts.

Variable w : World.
Variable self : Pygtail.

(** With an open handle, [_filehandle] returns it and changes nothing. *)
Lemma filehandle_open h :
  _fh self = Some h -> h_closed h = false ->
  _filehandle (w, self) = (Val h, (w, self)).
Proof.
  intros Hfh Hc. unfold _filehandle, bind, get_self, _is_closed. cbn.
  rewrite Hfh, Hc. cbn. rewrite Hfh. reflexivity.
Qed.

(** Reading through an open handle. *)
Lemma filehandle_readline_open h :
  _fh self = Some h -> h_closed h = false ->
  _filehandle_readline (w, self)
  = (Val (fst (readline (w_fs w) h)),
     (w, set_fh (Some (snd (readline (w_fs w) h))) self)).
Proof.
  intros Hfh Hc. unfold _filehandle_readline, bind.
  rewrite (filehandle_open h Hfh Hc). reflexivity.
Qed.

(** Without a usable handle and with no archive pending, [_filehandle]
    opens the live path and seeks to the current offset. *)
Lemma filehandle_reopen_live ino size offset h :
  _is_closed self = true ->
  _rotated_logfiles self = [] ->
  _offset self = Some offset ->
  stat (w_fs w) (filename self) = Some (ino, size) ->
  seek (w_fs w)
    (mkHandle (filename self) ino (Str.endswith (filename self) ".gz") 0 false)
    offset = Some h ->
  _filehandle (w, self) = (Val h, (w, set_fh (Some h) self)).
Proof.
  intros Hc Hr Ho Hs Hk. unfold _filehandle, bind, get_self. cbn.
  rewrite Hc, Hr. cbn. unfold open_ at 1. rewrite Hs. cbn.
  repeat (first [rewrite Ho | rewrite Hk | progress cbn]). reflexivity.
Qed.

(** [_reload] closes the handle and resets the offset. *)
Lemma reload_open h :
  _fh self = Some h ->
  _reload (w, self)
  = (Val tt, (w, set_offset (Some 0) (set_fh (Some (close h)) self))).
Proof.
  intros Hfh. unfold _reload, bind, get_self. cbn. rewrite Hfh. reflexivity.
Qed.

End MethodFacts.

(** A position at or past the end of the data reads as the empty string. *)
Lemma line_at_eof c pos : Str.len c <= pos -> line_at c pos = EmptyString.
Proof.
  intros H. unfold line_at. destruct (Z.leb_spec (Str.len c) pos); [reflexivity | lia].
Qed.

Lemma take_line_nonempty s : s <> EmptyString -> Str.take_line s <> EmptyString.
Proof.
  destruct s as [|c r]; [congruence|]. intros _. cbn.
  destruct (Ascii.eqb c Str.nl_char); discriminate.
Qed.

Lemma drop_length n s : String.length (Str.drop n s) = (String.length s - n)%nat.
Proof.
  revert s. induction n as [|n IH]; intros s; cbn.
  - lia.
  - destruct s as [|c r]; cbn; [reflexivity | apply IH].
Qed.

(** Inside the data, the next line is not empty. *)
Lemma line_at_inside c pos :
  0 <= pos < Str.len c -> line_at c pos <> EmptyString.
Proof.
  intros H. unfold line_at. destruct (Z.leb_spec (Str.len c) pos); [lia|].
  apply take_line_nonempty. intros E.
  pose proof (drop_length (Z.to_nat pos) c) as L. rewrite E in L. cbn in L.
  unfold Str.len in H. lia.
Qed.

Lemma nonempty_false s : nonempty s = false <-> s = EmptyString.
Proof. destruct s; cbn; split; congruence. Qed.

Lemma nonempty_true s : nonempty s = true <-> s <> EmptyString.
Proof. destruct s; cbn; split; congruence. Qed.

(* ===================================================================== *)
(** * The rotation / truncation detector *)
(* ===================================================================== *)

Lemma close_close h : close (close h) = close h.
Proof. reflexivity. Qed.

Lemma reloaded_reloaded h self :
  reloaded (close h) (reloaded h self) = reloaded h self.
Proof. reflexivity. Qed.

Section Detector.

Variable w : World.
Variable self : Pygtail.
Variable h : Handle.
Hypothesis Hfh : _fh self = Some h.
Hypothesis Hopen : h_closed h = false.

(** The live path is gone: the handle is closed, the offset reset. *)
Lemma check_moved :
  stat (w_fs w) (filename self) = None ->
  _check_rotate_truncate (w, self)
  = (Val tt, (log INFO "File moved, reloading..." w, reloaded h self)).
Proof.
  intros Hs. unfold _check_rotate_truncate, bind.
  rewrite (filehandle_open w self h Hfh Hopen). cbn. rewrite Hs. cbn.
  rewrite Hfh. reflexivity.
Qed.

(** The live path names another inode than the handle's. *)
Lemma check_rotated ino size :
  stat (w_fs w) (filename self) = Some (ino, size) ->
  ino <> h_ino h ->
  _check_rotate_truncate (w, self)
  = (Val tt,
     ((if (copytruncate self && (size <? h_pos h))%bool
       then log INFO "File truncated, reloading..."
              (log INFO "File rotated, reloading..." w)
       else log INFO "File rotated, reloading..." w),
      reloaded h self)).
Proof.
  intros Hs Hne. unfold _check_rotate_truncate, bind.
  rewrite (filehandle_open w self h Hfh Hopen). cbn. rewrite Hs.
  destruct (Z.eqb_spec (h_ino h) ino) as [E|_]; [congruence|]. cbn.
  rewrite Hfh. cbn.
  destruct (copytruncate self && (size <? h_pos h))%bool; reflexivity.
Qed.

(** Same inode, copytruncate on, and the file is shorter than the read
    position. *)
Lemma check_truncated size :
  stat (w_fs w) (filename self) = Some (h_ino h, size) ->
  copytruncate self = true ->
  size < h_pos h ->
  _check_rotate_truncate (w, self)
  = (Val tt, (log INFO "File truncated, reloading..." w, reloaded h self)).
Proof.
  intros Hs Hct Hlt. unfold _check_rotate_truncate, bind.
  rewrite (filehandle_open w self h Hfh Hopen). cbn. rewrite Hs.
  rewrite Z.eqb_refl. cbn. rewrite Hct. cbn.
  destruct (Z.ltb_spec size (h_pos h)); [|lia]. cbn.
  rewrite Hfh. reflexivity.
Qed.

(** Same inode and nothing to act on: the detector changes nothing. *)
Lemma check_unchanged size :
  stat (w_fs w) (filename self) = Some (h_ino h, size) ->
  copytruncate self = false \/ h_pos h <= size ->
  _check_rotate_truncate (w, self) = (Val tt, (w, self)).
Proof.
  intros Hs Hno. unfold _check_rotate_truncate, bind.
  rewrite (filehandle_open w self h Hfh Hopen). cbn. rewrite Hs.
  rewrite Z.eqb_refl. cbn.
  destruct Hno as [Hct|Hle].
  - rewrite Hct. reflexivity.
  - destruct (Z.ltb_spec size (h_pos h)); [lia|].
    rewrite andb_false_r. reflexivity.
Qed.

End Detector.

(** With an open handle the detector never raises and never runs out of
    fuel; afterwards the handle is the same one, or that one closed with
    the offset reset. *)
Lemma check_rotate_truncate_total w self h :
  _fh self = Some h -> h_closed h = false ->
  exists w',
    (_check_rotate_truncate (w, self) = (Val tt, (w', self))
     \/ _check_rotate_truncate (w, self) = (Val tt, (w', reloaded h self)))
    /\ w_fs w' = w_fs w /\ w_schedule w' = w_schedule w /\ w_now w' = w_now w.
Proof.
  intros Hfh Ho.
  destruct (stat (w_fs w) (filename self)) as [[ino size]|] eqn:Hs.
  - destruct (Z.eq_dec ino (h_ino h)) as [->|Hne].
    + destruct (copytruncate self) eqn:Hct.
      * destruct (Z_lt_dec size (h_pos h)) as [Hlt|Hge].
        -- eexists. split; [right; apply (check_truncated w self h Hfh Ho size Hs Hct Hlt)|].
           repeat split.
        -- eexists. split; [left; apply (check_unchanged w self h Hfh Ho size Hs); right; lia|].
           repeat split.
      * eexists. split; [left; apply (check_unchanged w self h Hfh Ho size Hs); left; exact Hct|].
        repeat split.
    + eexists. split; [right; apply (check_rotated w self h Hfh Ho ino size Hs Hne)|].
      destruct (copytruncate self && (size <? h_pos h))%bool; repeat split.
  - eexists. split; [right; apply (check_moved w self h Hfh Ho Hs)|]. repeat split.
Qed.

(* ===================================================================== *)
(** * Persisting the cursor without a handle *)
(* ===================================================================== *)

Lemma update_offset_file_skips (w : World) (self : Pygtail) :
  _is_closed self = true ->
  _update_offset_file (w, self) = (Val tt, (w, self)).
Proof.
  intros Hc. unfold _update_offset_file, bind, get_self. cbn. rewrite Hc.
  reflexivity.
Qed.

(** C7. A call of [_update_offset_file] made while no handle is open (none
    was ever opened, or the handle has been closed) is a no-op: it returns
    normally and leaves the whole world, and with it the offset file, and
    the object exactly as they were. *)
Theorem update_offset_file_closed_noop (w : World) (self : Pygtail) :
  _is_closed self = true ->
  _update_offset_file (w, self) = (Val tt, (w, self)).
Proof.
  intros Hclosed. unfold _update_offset_file.
  unfold bind, get_self. cbn [fst snd].
  rewrite Hclosed. reflexivity.
Qed.

(** The two ways of having no open handle: never opened, and closed by
    [_reload]. *)
Lemma update_offset_file_closed_noop_witness :
  _update_offset_file (world_of fs_ab ten_thirty [], reader false true 20 0 None)
  = (Val tt, (world_of fs_ab ten_thirty [], reader false true 20 0 None))
  /\ _update_offset_file
       (world_of fs_ab ten_thirty [],
        reloaded (log_handle 1 4) (reader false true 20 4 (Some (log_handle 1 4))))
     = (Val tt,
        (world_of fs_ab ten_thirty [],
         reloaded (log_handle 1 4) (reader false true 20 4 (Some (log_handle 1 4))))).
Proof.
  split; apply update_offset_file_closed_noop; reflexivity.
Defined.

(* ===================================================================== *)
(** * A shrunken file without copytruncate support *)
(* ===================================================================== *)

(** C5. With [copytruncate] off, when the live path still names the
    handle's inode, the detector returns normally and changes nothing at
    all: the handle and the offset stay as they are (no rewind), and the
    trace stays as it is, so no warning, nor any other record, is logged,
    however far the file has shrunk below the read position. *)
Theorem check_rotate_truncate_copytruncate_off
    (w : World) (self : Pygtail) (h : Handle) (size : Z) :
  copytruncate self = false ->
  _fh self = Some h ->
  h_closed h = false ->
  stat (w_fs w) (filename self) = Some (h_ino h, size) ->
  size < h_pos h ->
  _check_rotate_truncate (w, self) = (Val tt, (w, self)).
Proof.
  intros Hct Hfh Ho Hs _.
  apply (check_unchanged w self h Hfh Ho size Hs). left. exact Hct.
Qed.

(** The handle is at position 4 and the file now holds 2 bytes. *)
Lemma check_rotate_truncate_copytruncate_off_witness :
  _check_rotate_truncate
    (world_of fs_shrunk ten_thirty [],
     reader false false 20 0 (Some (log_handle 1 4)))
  = (Val tt,
     (world_of fs_shrunk ten_thirty [],
      reader false false 20 0 (Some (log_handle 1 4)))).
Proof.
  apply (check_rotate_truncate_copytruncate_off _ _ (log_handle 1 4) 2);
    [reflexivity | reflexivity | reflexivity | reflexivity | reflexivity].
Defined.

(* ===================================================================== *)
(** * Loading the cursor *)
(* ===================================================================== *)

(** The load when there is nothing to load. *)
Lemma parse_offset_file_absent_or_empty (w : World) (self : Pygtail) :
  exists_ (w_fs w) (_offset_file self) = false
  \/ getsize (w_fs w) (_offset_file self) = 0 ->
  _parse_offset_file (w, self) = (Val tt, (w, set_offset (Some 0) self)).
Proof.
  intros Habs. unfold _parse_offset_file, bind, get_world, get_self. cbn.
  destruct Habs as [-> | ->]; cbn; [reflexivity|].
  rewrite andb_false_r. reflexivity.
Qed.

(** The load of a non-empty offset file, field by field. *)
Lemma parse_offset_file_present (w : World) (self : Pygtail) :
  exists_ (w_fs w) (_offset_file self) = true ->
  getsize (w_fs w) (_offset_file self) <> 0 ->
  _parse_offset_file (w, self)
  = (f0 <- or_raise IndexError (offset_data w self !! 0%nat) ;;
     inode <- or_raise ValueError (Str.py_int f0) ;;
     modify_self (set_offset_file_inode (Some inode)) ;;
     f1 <- or_raise IndexError (offset_data w self !! 1%nat) ;;
     offset <- or_raise ValueError (Str.py_int f1) ;;
     modify_self (set_offset (Some offset)) ;;
     f2 <- or_raise IndexError (offset_data w self !! 2%nat) ;;
     last_log <- or_raise ValueError (Calendar.strptime_dt f2) ;;
     modify_self (set_last_log (Some last_log))) (w, self).
Proof.
  intros Hex Hsz. unfold _parse_offset_file at 1, bind at 1 2, get_world, get_self.
  cbn [fst snd]. rewrite Hex. apply Z.eqb_neq in Hsz. rewrite Hsz. reflexivity.
Qed.

(** C6. [_parse_offset_file], the load of the cursor.
    - If the offset file is absent or empty, the load succeeds and only
      sets the offset to 0; the inode and the timestamp stay as they are
      (unset, in the object [__init__] has just made).
    - If it exists and is not empty, its stripped lines are taken as the
      three fields inode, offset and timestamp.  When all three are there
      and parse ([int], [int], [strptime] with microseconds), the load
      succeeds with exactly these values.  When a field is missing or does
      not parse, the load raises [IndexError] or [ValueError]: it fails,
      and does not fall back to offset 0. *)
Theorem parse_offset_file_load (w : World) (self : Pygtail) :
  let fs := w_fs w in
  let p := _offset_file self in
  let run := _parse_offset_file (w, self) in
  (exists_ fs p = false \/ getsize fs p = 0 ->
   run = (Val tt, (w, set_offset (Some 0) self)))
  /\
  (exists_ fs p = true -> getsize fs p <> 0 ->
   match offset_data w self with
   | f0 :: f1 :: f2 :: _ =>
       match Str.py_int f0, Str.py_int f1, Calendar.strptime_dt f2 with
       | Some inode, Some offset, Some t =>
           run = (Val tt, (w, loaded inode offset t self))
       | _, _, _ => fst run = Raise ValueError
       end
   | _ => fst run = Raise IndexError \/ fst run = Raise ValueError
   end).
Proof.
  cbn zeta. split.
  - apply parse_offset_file_absent_or_empty.
  - intros Hex Hsz. rewrite (parse_offset_file_present w self Hex Hsz).
    destruct (offset_data w self) as [|f0 [|f1 [|f2 rest]]]; cbn.
    + left. reflexivity.
    + destruct (Str.py_int f0); cbn; [left|right]; reflexivity.
    + destruct (Str.py_int f0); cbn; [|right; reflexivity].
      destruct (Str.py_int f1); cbn; [left|right]; reflexivity.
    + destruct (Str.py_int f0); cbn; [|reflexivity].
      destruct (Str.py_int f1); cbn; [|reflexivity].
      destruct (Calendar.strptime_dt f2); cbn; reflexivity.
Qed.

(** A complete offset file, and one cut short after the offset. *)
Lemma parse_offset_file_load_witness :
  _parse_offset_file
    (world_of (fs_with_sidecar sidecar_good) ten_thirty [], reader false true 20 0 None)
  = (Val tt,
     (world_of (fs_with_sidecar sidecar_good) ten_thirty [],
      loaded 1 4 ten_thirty (reader false true 20 0 None)))
  /\ (fst (_parse_offset_file
             (world_of (fs_with_sidecar sidecar_short) ten_thirty [],
              reader false true 20 0 None)) = Raise IndexError
      \/ fst (_parse_offset_file
                (world_of (fs_with_sidecar sidecar_short) ten_thirty [],
                 reader false true 20 0 None)) = Raise ValueError).
Proof.
  split.
  - refine (proj2 (parse_offset_file_load
                     (world_of (fs_with_sidecar sidecar_good) ten_thirty [])
                     (reader false true 20 0 None)) _ _);
      [reflexivity | discriminate].
  - refine (proj2 (parse_offset_file_load
                     (world_of (fs_with_sidecar sidecar_short) ten_thirty [])
                     (reader false true 20 0 None)) _ _);
      [reflexivity | discriminate].
Defined.

(** The load at work: no offset file, a complete one, one cut short and
    one with a field that is not a number. *)
Example parse_offset_file_absent :
  _parse_offset_file (world_of fs_ab ten_thirty [], reader false true 20 7 None)
  = (Val tt, (world_of fs_ab ten_thirty [], reader false true 20 0 None)).
Proof. reflexivity. Qed.

Example parse_offset_file_good :
  _parse_offset_file
    (world_of (fs_with_sidecar sidecar_good) ten_thirty [], reader false true 20 0 None)
  = (Val tt,
     (world_of (fs_with_sidecar sidecar_good) ten_thirty [],
      loaded 1 4 ten_thirty (reader false true 20 0 None))).
Proof. reflexivity. Qed.

Example parse_offset_file_short :
  fst (_parse_offset_file
         (world_of (fs_with_sidecar sidecar_short) ten_thirty [],
          reader false true 20 0 None))
  = Raise IndexError.
Proof. reflexivity. Qed.

Example parse_offset_file_bad :
  fst (_parse_offset_file
         (world_of (fs_with_sidecar sidecar_bad) ten_thirty [],
          reader false true 20 0 None))
  = Raise ValueError.
Proof. reflexivity. Qed.

(** [__init__] passes the failure of the load on: no object is made. *)
Lemma init_load_fails filename offset_file paranoid copytruncate
    wait_step wait_timeout host_name (w : World) (e : exn) :
  fst (_parse_offset_file
         (w, new_self filename offset_file paranoid copytruncate
               wait_step wait_timeout host_name w)) = Raise e ->
  fst (__init__ filename offset_file paranoid copytruncate
         wait_step wait_timeout host_name w) = Raise e.
Proof.
  intros H. unfold __init__, init_body, bind.
  destruct (_parse_offset_file _) as [[u|e'|] [w' s']]; cbn in *; congruence.
Qed.

(** Without an offset file, [__init__] makes an object at offset 0 with no
    inode, no timestamp and nothing to catch up with. *)
Lemma init_without_offset_file filename offset_file paranoid copytruncate
    wait_step wait_timeout host_name (w : World) :
  let self0 := new_self filename offset_file paranoid copytruncate
                 wait_step wait_timeout host_name w in
  exists_ (w_fs w) (_offset_file self0) = false
  \/ getsize (w_fs w) (_offset_file self0) = 0 ->
  __init__ filename offset_file paranoid copytruncate
    wait_step wait_timeout host_name w
  = (Val (set_offset (Some 0) self0), w).
Proof.
  intros self0 Habs. unfold __init__, init_body, bind.
  fold self0.
  rewrite (parse_offset_file_absent_or_empty w self0 Habs). reflexivity.
Qed.

(* ===================================================================== *)
(** * Looking for rotated log files *)
(* ===================================================================== *)

Lemma rotated_while_done fs self end_ start files :
  end_ <= start -> rotated_while fs self end_ start files = files.
Proof.
  intros H. rewrite rotated_while_equation_1.
  destruct (Z_lt_dec start end_); [lia | reflexivity].
Qed.

Lemma rotated_while_step fs self end_ start files :
  start < end_ ->
  rotated_while fs self end_ start files
  = rotated_while fs self end_ (start + Calendar.us_per_hour)
      (if exists_ fs (candidate self start)
       then files ++ [candidate self start] else files).
Proof.
  intros H. rewrite rotated_while_equation_1 at 1.
  destruct (Z_lt_dec start end_); [reflexivity | lia].
Qed.

(** The loop over [n] whole hours visits the hours [start], ...,
    [start + n - 1] in this order and keeps the names that exist. *)
Lemma rotated_while_hours fs self (n : nat) : forall start files,
  rotated_while fs self (start + Z.of_nat n * Calendar.us_per_hour) start files
  = files ++ archives_from fs self start n.
Proof.
  unfold archives_from.
  induction n as [|n IH]; intros start files.
  - rewrite rotated_while_done by (cbn; lia). cbn. rewrite app_nil_r. reflexivity.
  - rewrite rotated_while_step
      by (unfold Calendar.us_per_hour, Calendar.us_per_second; lia).
    replace (start + Z.of_nat (S n) * Calendar.us_per_hour)
      with (start + Calendar.us_per_hour + Z.of_nat n * Calendar.us_per_hour) by lia.
    rewrite IH. cbn [seq map List.filter]. rewrite <- seq_shift, map_map.
    rewrite Z.mul_0_l, Z.add_0_r.
    assert (E : map (fun k => candidate self
                       (start + Calendar.us_per_hour + Z.of_nat k * Calendar.us_per_hour))
                  (seq 0 n)
                = map (fun k => candidate self
                         (start + Z.of_nat (S k) * Calendar.us_per_hour))
                    (seq 0 n)).
    { apply map_ext. intros k. f_equal. lia. }
    rewrite E.
    destruct (exists_ fs (candidate self start)).
    + rewrite <- app_assoc. reflexivity.
    + reflexivity.
Qed.

Lemma floor_hour_mul t :
  Calendar.floor_hour t = Calendar.us_per_hour * (t / Calendar.us_per_hour).
Proof.
  unfold Calendar.floor_hour.
  pose proof (Z.div_mod t Calendar.us_per_hour) as D.
  unfold Calendar.us_per_hour, Calendar.us_per_second in *. lia.
Qed.

(** [_determine_rotated_logfiles] in full: the archives of the hour of the
    last read and of the hours after it, up to but without the current
    hour, that exist, oldest first. *)
Lemma determine_rotated_logfiles_spec (w : World) (self : Pygtail) last_log :
  _last_log self = Some last_log ->
  _determine_rotated_logfiles w self
  = Val (archives_from (w_fs w) self (Calendar.floor_hour last_log)
           (Z.to_nat (w_now w / Calendar.us_per_hour - last_log / Calendar.us_per_hour))).
Proof.
  intros Hl. unfold _determine_rotated_logfiles. rewrite Hl.
  set (d := w_now w / Calendar.us_per_hour - last_log / Calendar.us_per_hour).
  assert (Hd : Calendar.floor_hour (w_now w) - Calendar.floor_hour last_log
               = d * Calendar.us_per_hour).
  { rewrite !floor_hour_mul. unfold d. lia. }
  rewrite Hd.
  assert (He : d * Calendar.us_per_hour / Calendar.us_per_second / 60 / 60 = d).
  { unfold Calendar.us_per_hour, Calendar.us_per_second.
    replace (d * (3600 * 1000000)) with (d * 3600 * 1000000) by lia.
    rewrite Z.div_mul by lia.
    replace (d * 3600) with (d * 60 * 60) by lia.
    rewrite Z.div_mul by lia. rewrite Z.div_mul by lia. reflexivity. }
  rewrite He.
  destruct (Z.eqb_spec d 0) as [E|E].
  - rewrite E. reflexivity.
  - f_equal. destruct (Z_lt_dec d 0) as [Hneg|Hpos].
    + rewrite rotated_while_done
        by (unfold Calendar.us_per_hour, Calendar.us_per_second in *; lia).
      replace (Z.to_nat d) with 0%nat by lia. reflexivity.
    + replace (Calendar.floor_hour (w_now w))
        with (Calendar.floor_hour last_log + Z.of_nat (Z.to_nat d) * Calendar.us_per_hour)
        by (rewrite Z2Nat.id by lia; lia).
      rewrite rotated_while_hours. reflexivity.
Qed.

(** C2, as the code has it.  The last read falls in hour H0 and the current
    time in hour H0+3; the archives of H0+1 and H0+3 exist, that of H0+2
    does not.  The loop runs over the hours H0, H0+1, H0+2 ([start < end]
    leaves the current hour H0+3 out and takes the hour of the last read
    in), so the pending archives are: the archive of H0 if it exists, then
    the archive of H0+1.  The archive of the current hour is not looked
    for. *)
Theorem determine_rotated_logfiles_three_hours
    (w : World) (self : Pygtail) (last_log : Calendar.datetime) :
  _last_log self = Some last_log ->
  Calendar.floor_hour (w_now w) = hour_after 3 last_log ->
  exists_ (w_fs w) (candidate self (hour_after 1 last_log)) = true ->
  exists_ (w_fs w) (candidate self (hour_after 2 last_log)) = false ->
  exists_ (w_fs w) (candidate self (hour_after 3 last_log)) = true ->
  _determine_rotated_logfiles w self
  = Val ((if exists_ (w_fs w) (candidate self (hour_after 0 last_log))
          then [candidate self (hour_after 0 last_log)] else [])
         ++ [candidate self (hour_after 1 last_log)]).
Proof.
  intros Hl Hnow H1 H2 _.
  rewrite (determine_rotated_logfiles_spec w self last_log Hl).
  assert (Hn : w_now w / Calendar.us_per_hour - last_log / Calendar.us_per_hour = 3).
  { unfold hour_after in Hnow. rewrite !floor_hour_mul in Hnow.
    unfold Calendar.us_per_hour, Calendar.us_per_second in *. lia. }
  rewrite Hn. unfold archives_from.
  change (Z.to_nat 3) with 3%nat. cbn [seq map].
  unfold hour_after in *.
  change (Z.of_nat 0) with 0. change (Z.of_nat 1) with 1. change (Z.of_nat 2) with 2.
  cbn [List.filter]. rewrite H1, H2.
  destruct (exists_ (w_fs w) (candidate self (Calendar.floor_hour last_log + 0 * Calendar.us_per_hour)));
    reflexivity.
Qed.

(** At 13:05, after a last read at 10:30, with the archives of 11h and 13h
    on disk: the archive of 11h is pending, and nothing else. *)
Lemma determine_rotated_logfiles_three_hours_witness :
  _determine_rotated_logfiles world_1305 reader_1030
  = Val ([] ++ ["log_host_2020010111.gz"]).
Proof.
  apply (determine_rotated_logfiles_three_hours world_1305 reader_1030 ten_thirty);
    reflexivity.
Defined.

(** In that scenario the sequence is not [archive(H0+1), archive(H0+3)]:
    the archive of the current hour, 13h, exists and is left out. *)
Lemma determine_rotated_logfiles_omits_current_hour :
  _last_log reader_1030 = Some ten_thirty
  /\ Calendar.floor_hour (w_now world_1305) = hour_after 3 ten_thirty
  /\ exists_ (w_fs world_1305) (candidate reader_1030 (hour_after 1 ten_thirty)) = true
  /\ exists_ (w_fs world_1305) (candidate reader_1030 (hour_after 2 ten_thirty)) = false
  /\ exists_ (w_fs world_1305) (candidate reader_1030 (hour_after 3 ten_thirty)) = true
  /\ _determine_rotated_logfiles world_1305 reader_1030
     = Val [candidate reader_1030 (hour_after 1 ten_thirty)]
  /\ _determine_rotated_logfiles world_1305 reader_1030
     <> Val [candidate reader_1030 (hour_after 1 ten_thirty);
             candidate reader_1030 (hour_after 3 ten_thirty)].
Proof.
  repeat split; try reflexivity.
  vm_compute. discriminate.
Qed.

(* ===================================================================== *)
(** * Opening a handle *)
(* ===================================================================== *)

Lemma stat_size fs path ino size :
  stat fs path = Some (ino, size) -> size = Str.len (content_of fs ino).
Proof.
  unfold stat, content_of. intros H.
  destruct (paths fs !! path) as [i|]; cbn in H; [|discriminate].
  destruct (inodes fs !! i) as [c|] eqn:E; cbn in H; [|discriminate].
  injection H as <- <-. rewrite E. reflexivity.
Qed.

(** Without a usable handle, [_filehandle] takes the next name, opens it
    and seeks to the current offset, whatever the file is. *)
Lemma filehandle_opens (w : World) (self : Pygtail) ino size offset h :
  _is_closed self = true ->
  _offset self = Some offset ->
  stat (w_fs w) (next_name self) = Some (ino, size) ->
  seek (w_fs w)
    (mkHandle (next_name self) ino (Str.endswith (next_name self) ".gz") 0 false)
    offset = Some h ->
  _filehandle (w, self)
  = (Val h, (w, set_fh (Some h) (set_rotated_logfiles (tl (_rotated_logfiles self)) self))).
Proof.
  intros Hc Ho Hs Hk. unfold _filehandle, bind, get_self. cbn.
  rewrite Hc. unfold next_name in *.
  destruct (_rotated_logfiles self) as [|f rest] eqn:Hr; cbn.
  - unfold open_ at 1. rewrite Hs. cbn.
    repeat (first [rewrite Ho | rewrite Hk | progress cbn]).
    destruct self; cbn in *; subst; reflexivity.
  - unfold open_ at 1. rewrite Hs. cbn.
    repeat (first [rewrite Ho | rewrite Hk | progress cbn]). reflexivity.
Qed.

Lemma seek_position fs name ino gz offset :
  0 <= offset ->
  exists h,
    seek fs (mkHandle name ino gz 0 false) offset = Some h
    /\ h_name h = name /\ h_ino h = ino /\ h_gz h = gz /\ h_closed h = false
    /\ h_pos h = if gz then Z.min offset (Str.len (content_of fs ino)) else offset.
Proof.
  intros H0. unfold seek. cbn. destruct gz.
  - eexists. split; [reflexivity|]. cbn. repeat split.
    pose proof (Nat2Z.is_nonneg (String.length (content_of fs ino))).
    unfold Str.len. lia.
  - destruct (Z.ltb_spec offset 0); [lia|].
    eexists. split; [reflexivity|]. cbn. repeat split.
Qed.

(** C3, as the code has it.  [_filehandle] seeks to the current offset on
    every open, for an archive as for the live path.  The first handle of
    a session, which is the head of the archive queue when there is one and
    the live path otherwise, is placed at the offset loaded from the offset
    file (in an archive: at the end of the data when the offset lies
    beyond).  A handle opened after [_reload] is placed at 0. *)
Theorem filehandle_seeks_current_offset
    (w : World) (self : Pygtail) (ino size offset : Z) :
  stat (w_fs w) (next_name self) = Some (ino, size) ->
  0 <= offset ->
  (_fh self = None -> _offset self = Some offset ->
   exists h,
     fst (_filehandle (w, self)) = Val h
     /\ h_name h = next_name self
     /\ h_pos h = if Str.endswith (next_name self) ".gz"
                  then Z.min offset size else offset)
  /\
  (forall h0, _fh self = Some h0 ->
   exists h,
     fst (_filehandle (w, reloaded h0 self)) = Val h
     /\ h_name h = next_name self
     /\ h_pos h = 0).
Proof.
  intros Hs H0. split.
  - intros Hfh Ho.
    destruct (seek_position (w_fs w) (next_name self) ino
                (Str.endswith (next_name self) ".gz") offset H0)
      as (h & Hk & Hn & _ & _ & _ & Hp).
    exists h. rewrite (filehandle_opens w self ino size offset h); auto.
    + cbn. rewrite Hn, Hp, (stat_size _ _ _ _ Hs). auto.
    + unfold _is_closed. rewrite Hfh. reflexivity.
  - intros h0 Hfh.
    destruct (seek_position (w_fs w) (next_name self) ino
                (Str.endswith (next_name self) ".gz") 0 (Z.le_refl 0))
      as (h & Hk & Hn & _ & _ & _ & Hp).
    exists h. rewrite (filehandle_opens w (reloaded h0 self) ino size 0 h); auto.
    cbn. rewrite Hn, Hp. split; [reflexivity|]. split; [reflexivity|].
    pose proof (Nat2Z.is_nonneg (String.length (content_of (w_fs w) ino))).
    unfold Str.len. destruct (Str.endswith (next_name self) ".gz"); lia.
Qed.

(** The session of 11:05: its first handle is the archive of 10h, placed
    at the persisted offset 3. *)
Lemma filehandle_seeks_current_offset_witness :
  exists h,
    fst (_filehandle (world_1105, session_1105)) = Val h
    /\ h_name h = "log_host_2020010110.gz"
    /\ h_pos h = 3.
Proof.
  refine (proj1 (filehandle_seeks_current_offset world_1105 session_1105 3 11 3 _ _) _ _);
    [reflexivity | discriminate | reflexivity | reflexivity].
Defined.

(** The first handle of that session is an archive from the queue, and it
    is not read from position 0: the pull returns the rest of the first
    line from byte 3 on. *)
Lemma first_archive_not_read_from_start :
  __init__ "log" None false true 0.5%float 20%float None world_1105
  = (Val session_1105, world_1105)
  /\ fst (_filehandle (world_1105, session_1105))
     = Val (mkHandle "log_host_2020010110.gz" 3 true 3 false)
  /\ fst (next 1 (world_1105, session_1105)) = Val (Str.unlines ["def"])
  /\ fst (next 1 (world_1105, session_1105)) <> Val (Str.unlines ["abcdef"]).
Proof.
  repeat split; try reflexivity. vm_compute. discriminate.
Qed.

(* ===================================================================== *)
(** * What the methods leave alone *)
(* ===================================================================== *)

Lemma same_config_refl s : same_config s s.
Proof. repeat split. Qed.

Lemma same_config_trans s1 s2 s3 :
  same_config s1 s2 -> same_config s2 s3 -> same_config s1 s3.
Proof. unfold same_config. intuition congruence. Qed.

Lemma quiet_refl st : quiet st st.
Proof. repeat split. Qed.

Lemma quiet_trans st1 st2 st3 : quiet st1 st2 -> quiet st2 st3 -> quiet st1 st3.
Proof.
  unfold quiet. intros (C1 & ? & ? & ? & ? & ?) (C2 & ? & ? & ? & ? & ?).
  split; [exact (same_config_trans _ _ _ C1 C2)|]. intuition congruence.
Qed.

Create HintDb tame.

Lemma tame_ret {A} (a : A) : tame (ret a).
Proof.
  intros st. cbn. split; [apply quiet_refl|]. split; [reflexivity|].
  split; discriminate.
Qed.

Lemma tame_raise {A} (e : exn) : e <> StopIteration -> tame (@raise A e).
Proof.
  intros He st. cbn. split; [apply quiet_refl|]. split; [reflexivity|].
  split; congruence.
Qed.

Lemma tame_or_raise {A} (e : exn) (o : option A) :
  e <> StopIteration -> tame (or_raise e o).
Proof. intros He. destruct o; [apply tame_ret | apply tame_raise, He]. Qed.

Lemma tame_get_self : tame get_self.
Proof.
  intros st. cbn. split; [apply quiet_refl|]. split; [reflexivity|].
  split; discriminate.
Qed.

Lemma tame_get_world : tame get_world.
Proof.
  intros st. cbn. split; [apply quiet_refl|]. split; [reflexivity|].
  split; discriminate.
Qed.

Lemma tame_bind {A B} (m : M A) (k : A -> M B) :
  tame m -> (forall a, tame (k a)) -> tame (bind m k).
Proof.
  intros Hm Hk st. unfold bind. destruct (Hm st) as (Q1 & K1 & F1 & S1).
  destruct (m st) as [[a|e|] st1]; cbn -[quiet] in *.
  - destruct (Hk a st1) as (Q2 & K2 & F2 & S2).
    split; [exact (quiet_trans _ _ _ Q1 Q2)|].
    split; [congruence|]. split; [exact F2 | exact S2].
  - split; [exact Q1|]. split; [exact K1|]. split; [discriminate|].
    intros E. apply S1. injection E as ->. reflexivity.
  - exfalso. apply F1. reflexivity.
Qed.

Lemma tame_modify_self (f : Pygtail -> Pygtail) :
  (forall s, same_config s (f s) /\ time_waited (f s) = time_waited s
             /\ _catching_up (f s) = _catching_up s) ->
  tame (modify_self f).
Proof.
  intros Hf [w s]. cbn. destruct (Hf s) as (C & T & K).
  split; [|split; [exact K|split; discriminate]].
  unfold quiet. cbn. repeat split; auto; apply C.
Qed.

Lemma tame_modify_world (f : World -> World) :
  (forall w, w_schedule (f w) = w_schedule w /\ w_now (f w) = w_now w
             /\ w_hostname (f w) = w_hostname w
             /\ slept (w_trace (f w)) = slept (w_trace w)) ->
  tame (modify_world f).
Proof.
  intros Hf [w s]. cbn. destruct (Hf w) as (? & ? & ? & ?).
  split; [|split; [reflexivity|split; discriminate]].
  unfold quiet. cbn. repeat split; auto.
Qed.

#[local] Hint Resolve tame_ret tame_get_self tame_get_world : tame.
#[local] Hint Extern 1 (tame (raise _)) => (apply tame_raise; discriminate) : tame.
#[local] Hint Extern 1 (tame (or_raise _ _)) => (apply tame_or_raise; discriminate) : tame.
#[local] Hint Extern 1 (tame (modify_self _)) =>
  (apply tame_modify_self; intros ?; split; [repeat split | split; reflexivity]) : tame.
#[local] Hint Extern 1 (tame (modify_world _)) =>
  (apply tame_modify_world; intros ?; repeat split) : tame.

(** Break a computation into its binds and branches. *)
Ltac tame_steps :=
  repeat first
    [ progress auto with tame
    | apply tame_bind; [|intros]
    | match goal with
      | |- tame (if ?b then _ else _) => destruct b
      | |- tame (match ?x with _ => _ end) => destruct x
      end ].

Lemma tame_parse_offset_file : tame _parse_offset_file.
Proof. unfold _parse_offset_file. tame_steps. Qed.
#[local] Hint Resolve tame_parse_offset_file : tame.

Lemma tame_get_offset : tame _get_offset.
Proof. unfold _get_offset. tame_steps. Qed.
#[local] Hint Resolve tame_get_offset : tame.

Lemma tame_filehandle : tame _filehandle.
Proof. unfold _filehandle. tame_steps. Qed.
#[local] Hint Resolve tame_filehandle : tame.

Lemma tame_filehandle_readline : tame _filehandle_readline.
Proof. unfold _filehandle_readline. tame_steps. Qed.
#[local] Hint Resolve tame_filehandle_readline : tame.

Lemma tame_reload : tame _reload.
Proof. unfold _reload. tame_steps. Qed.
#[local] Hint Resolve tame_reload : tame.

Lemma tame_check_rotate_truncate : tame _check_rotate_truncate.
Proof. unfold _check_rotate_truncate. tame_steps. Qed.
#[local] Hint Resolve tame_check_rotate_truncate : tame.

Lemma tame_update_offset_file : tame _update_offset_file.
Proof. unfold _update_offset_file. tame_steps. Qed.
#[local] Hint Resolve tame_update_offset_file : tame.

Lemma tame_fh_filename fh : tame (fh_filename fh).
Proof. unfold fh_filename. tame_steps. Qed.
#[local] Hint Resolve tame_fh_filename : tame.

(* ===================================================================== *)
(** * The wait loop *)
(* ===================================================================== *)

Lemma budget_left_false self :
  budget_left self = false
  <-> (wait_timeout self <? 0)%float = false
      /\ (time_waited self <? wait_timeout self)%float = false.
Proof. unfold budget_left. apply orb_false_iff. Qed.

Lemma budget_left_true self :
  budget_left self = true
  <-> (wait_timeout self <? 0)%float = true
      \/ (time_waited self <? wait_timeout self)%float = true.
Proof. unfold budget_left. apply orb_true_iff. Qed.

(** The condition of the loop looks at [wait_timeout] and [time_waited]
    only. *)
Lemma budget_left_set v self :
  budget_left (set_time_waited v self)
  = ((wait_timeout self <? 0)%float || (v <? wait_timeout self)%float)%bool.
Proof. reflexivity. Qed.

(** With the wait used up, the loop is not entered. *)
Lemma wait_for_update_exhausted fuel st :
  budget_left (snd st) = false ->
  _wait_for_update fuel st = (Raise StopIteration, st).
Proof.
  intros Hb. destruct st as [w s]. unfold budget_left in Hb. cbn in Hb.
  destruct fuel; cbn; unfold bind, get_self; cbn; rewrite Hb; reflexivity.
Qed.

Lemma wait_for_update_no_fuel st :
  budget_left (snd st) = true ->
  _wait_for_update 0 st = (OutOfFuel, st).
Proof.
  intros Hb. destruct st as [w s]. unfold budget_left in Hb. cbn in Hb.
  cbn; unfold bind, get_self; cbn; rewrite Hb; reflexivity.
Qed.

(** One turn of the loop, when [time.sleep] accepts the step. *)
Lemma wait_for_update_turn fuel st :
  budget_left (snd st) = true ->
  sleep_error (wait_step (snd st)) = None ->
  _wait_for_update (S fuel) st
  = match poll st with
    | (Val line, st1) =>
        if nonempty line
        then (Val line, (fst st1, set_time_waited 0%float (snd st1)))
        else (_check_rotate_truncate ;; _wait_for_update fuel) st1
    | (Raise e, st1) => (Raise e, st1)
    | (OutOfFuel, st1) => (OutOfFuel, st1)
    end.
Proof.
  intros Hb Hs. destruct st as [w s]. unfold budget_left in Hb. cbn in Hb.
  cbn in Hs.
  cbn [_wait_for_update]. unfold bind at 1, get_self at 1. cbn [fst snd].
  rewrite Hb. unfold bind at 1, time_sleep. rewrite Hs.
  unfold modify_world at 1. cbn [fst snd]. unfold bind at 1, modify_self at 1.
  cbn [fst snd]. unfold bind at 1, poll. cbn [fst snd].
  destruct (_filehandle_readline _) as [[line|e|] [w1 s1]]; try reflexivity.
  destruct (nonempty line); reflexivity.
Qed.

(** A [wait_step] that [time.sleep] refuses (negative, NaN, too large)
    ends the wait with the error of [time.sleep], before anything else is
    done. *)
Lemma wait_for_update_sleep_error fuel st e :
  budget_left (snd st) = true ->
  sleep_error (wait_step (snd st)) = Some e ->
  _wait_for_update (S fuel) st = (Raise e, st).
Proof.
  intros Hb Hs. destruct st as [w s]. unfold budget_left in Hb. cbn in Hb.
  cbn in Hs.
  cbn [_wait_for_update]. unfold bind at 1, get_self at 1. cbn [fst snd].
  rewrite Hb. unfold bind at 1, time_sleep. rewrite Hs. reflexivity.
Qed.

Lemma sleep_error_not_stop d : sleep_error d <> Some StopIteration.
Proof.
  unfold sleep_error.
  destruct (is_nan d); [discriminate|].
  destruct (9223372036854775808 <=? abs (d * 1000000000))%float; [discriminate|].
  destruct (d <? 0)%float; discriminate.
Qed.

(** Inversion of a [bind] that returns a value. *)
Lemma bind_val {A B} (m : M A) (k : A -> M B) st b st2 :
  bind m k st = (Val b, st2) ->
  exists a st1, m st = (Val a, st1) /\ k a st1 = (Val b, st2).
Proof.
  unfold bind. destruct (m st) as [[a|e|] st1]; try discriminate.
  intros H. exists a, st1. auto.
Qed.

Lemma or_raise_val {A} e (o : option A) st a st1 :
  or_raise e o st = (Val a, st1) -> o = Some a /\ st1 = st.
Proof.
  destruct o; cbn; intros H; [|discriminate]. injection H as <- <-. auto.
Qed.

Tactic Notation "inv_bind" hyp(H) "as" ident(a) ident(st) ident(E) :=
  apply bind_val in H; destruct H as (a & st & E & H).

Lemma open_closed gz fs path h : open_ gz fs path = Some h -> h_closed h = false.
Proof.
  unfold open_. destruct (stat fs path) as [[ino size]|]; cbn; [|discriminate].
  intros E. injection E as <-. reflexivity.
Qed.

Lemma seek_closed fs h offset h' :
  seek fs h offset = Some h' -> h_closed h' = h_closed h.
Proof.
  unfold seek. destruct (h_gz h); [|destruct (offset <? 0); [discriminate|]];
    intros E; injection E as <-; reflexivity.
Qed.

(** After [_filehandle] has returned a handle, this handle is [self._fh]
    and it is open. *)
Lemma get_self_val st a st1 :
  get_self st = (Val a, st1) -> a = snd st /\ st1 = st.
Proof. unfold get_self. intros E. injection E as <- <-. auto. Qed.

Lemma get_world_val st a st1 :
  get_world st = (Val a, st1) -> a = fst st /\ st1 = st.
Proof. unfold get_world. intros E. injection E as <- <-. auto. Qed.

Lemma modify_self_val f st a st1 :
  modify_self f st = (Val a, st1) -> st1 = (fst st, f (snd st)).
Proof. unfold modify_self. intros E. injection E as _ <-. auto. Qed.

Lemma modify_world_val f st a st1 :
  modify_world f st = (Val a, st1) -> st1 = (f (fst st), snd st).
Proof. unfold modify_world. intros E. injection E as _ <-. auto. Qed.

Lemma ret_val {A} (x : A) st a st1 :
  ret x st = (Val a, st1) -> a = x /\ st1 = st.
Proof. unfold ret. intros E. injection E as <- <-. auto. Qed.

(** Invert a primitive step [E : prim st = (Val a, st1)]. *)
Ltac inv_prim E :=
  first
    [ apply get_self_val in E; destruct E as [-> ->]
    | apply get_world_val in E; destruct E as [-> ->]
    | apply modify_self_val in E; rewrite E in *; clear E
    | apply modify_world_val in E; rewrite E in *; clear E
    | apply ret_val in E; destruct E as [-> ->]
    | apply or_raise_val in E; destruct E as [E ->] ].

Lemma filehandle_val st h st1 :
  _filehandle st = (Val h, st1) ->
  _fh (snd st1) = Some h /\ h_closed h = false.
Proof.
  unfold _filehandle. intros H.
  inv_bind H as self0 stA E0. inv_prim E0.
  inv_bind H as u stB E1.
  inv_bind H as self1 stC E2. inv_prim E2.
  inv_prim H. split; [exact H|].
  destruct (_is_closed (snd st)) eqn:Hc.
  - inv_bind E1 as fname stD E3.
    inv_bind E1 as w0 stE E4. inv_prim E4.
    inv_bind E1 as fh0 stF E5. inv_prim E5.
    inv_bind E1 as u1 stG E6.
    inv_bind E1 as off stH E7.
    inv_bind E1 as off' stI E8.
    inv_bind E1 as fh1 stJ E9. inv_prim E9.
    inv_prim E1. cbn in H. injection H as <-.
    rewrite (seek_closed _ _ _ _ E9). exact (open_closed _ _ _ _ E5).
  - inv_prim E1.
    unfold _is_closed in Hc. rewrite H in Hc. exact Hc.
Qed.

(** A successful read leaves an open handle behind. *)
Lemma filehandle_readline_val st line st1 :
  _filehandle_readline st = (Val line, st1) ->
  exists h, _fh (snd st1) = Some h /\ h_closed h = false.
Proof.
  unfold _filehandle_readline. intros H.
  inv_bind H as fh stA E0. apply filehandle_val in E0. destruct E0 as [_ Hc].
  inv_bind H as w0 stB E1. inv_prim E1.
  destruct (readline (w_fs (fst stA)) fh) as [l fh'] eqn:R.
  inv_bind H as u stC E2. inv_prim E2. inv_prim H.
  exists fh'. cbn. split; [reflexivity|].
  unfold readline in R. injection R as _ <-. exact Hc.
Qed.

Lemma poll_facts st r st1 :
  poll st = (r, st1) ->
  same_config (snd st) (snd st1)
  /\ time_waited (snd st1) = (time_waited (snd st) + wait_step (snd st))%float
  /\ r <> OutOfFuel /\ r <> Raise StopIteration.
Proof.
  unfold poll. intros H.
  destruct (tame_filehandle_readline
              (sleep (wait_step (snd st)) (fst st),
               set_time_waited (time_waited (snd st) + wait_step (snd st))%float (snd st)))
    as (Q & _ & F & S).
  rewrite H in Q, F, S. cbn [fst snd] in *.
  destruct Q as (C & T & _). cbn in C, T. auto.
Qed.

(** A poll has slept once, for [wait_step]. *)
Lemma poll_slept st r st1 :
  poll st = (r, st1) ->
  slept (w_trace (fst st1)) = wait_step (snd st) :: slept (w_trace (fst st)).
Proof.
  unfold poll. intros H.
  destruct (tame_filehandle_readline
              (sleep (wait_step (snd st)) (fst st),
               set_time_waited (time_waited (snd st) + wait_step (snd st))%float (snd st)))
    as (Q & _).
  rewrite H in Q. cbn [fst snd] in *.
  destruct Q as (_ & _ & _ & _ & _ & Sl). rewrite Sl. reflexivity.
Qed.

Lemma check_facts st1 r st2 :
  _check_rotate_truncate st1 = (r, st2) ->
  quiet st1 st2 /\ r <> OutOfFuel /\ r <> Raise StopIteration.
Proof.
  intros H. pose proof (tame_check_rotate_truncate st1) as T.
  rewrite H in T. destruct T as (Q & _ & F & S). auto.
Qed.

(** After a read that returned, the detector runs to its end. *)
Lemma check_after_read st0 line st1 :
  _filehandle_readline st0 = (Val line, st1) ->
  exists st2, _check_rotate_truncate st1 = (Val tt, st2).
Proof.
  intros H. apply filehandle_readline_val in H. destruct H as (h & Hfh & Hc).
  destruct st1 as [w1 s1]. cbn in Hfh.
  destruct (check_rotate_truncate_total w1 s1 h Hfh Hc) as (w' & [E|E] & _);
    eexists; exact E.
Qed.

(** Every run of the loop that ends is a wait in the sense of [waits]. *)
Lemma wait_for_update_waits fuel : forall st,
  sleep_error (wait_step (snd st)) = None ->
  fst (_wait_for_update fuel st) <> OutOfFuel ->
  waits st (_wait_for_update fuel st).
Proof.
  induction fuel as [|fuel IH]; intros st Hs Hf.
  - destruct (budget_left (snd st)) eqn:Hb.
    + rewrite (wait_for_update_no_fuel st Hb) in Hf. cbn in Hf. congruence.
    + rewrite (wait_for_update_exhausted 0 st Hb).
      apply budget_left_false in Hb. apply waits_exhausted; apply Hb.
  - destruct (budget_left (snd st)) eqn:Hb.
    + rewrite (wait_for_update_turn fuel st Hb Hs) in *.
      destruct (poll st) as [[line|e|] st1] eqn:Hp.
      * destruct (nonempty line) eqn:Hn.
        -- apply (waits_line st line st1 Hb Hp). apply nonempty_true, Hn.
        -- apply nonempty_false in Hn. subst line.
           destruct (check_after_read _ _ _ Hp) as (st2 & Hc).
           unfold bind in *. rewrite Hc in *.
           apply (waits_again st st1 st2 _ Hb Hp Hc).
           apply IH; [|exact Hf].
           destruct (poll_facts _ _ _ Hp) as (C1 & _).
           destruct (check_facts _ _ _ Hc) as ((C2 & _) & _).
           destruct C1 as (_ & _ & _ & W1 & _).
           destruct C2 as (_ & _ & _ & W2 & _). rewrite W2, W1. exact Hs.
      * apply (waits_error st e st1 Hb Hp).
      * cbn in Hf. congruence.
    + rewrite (wait_for_update_exhausted _ st Hb).
      apply budget_left_false in Hb. apply waits_exhausted; apply Hb.
Qed.

Lemma repeat_cons_app {A} (a : A) k l : repeat a k ++ a :: l = a :: repeat a k ++ l.
Proof. induction k as [|k IH]; cbn; [reflexivity | rewrite IH; reflexivity]. Qed.

Lemma stepped_refl st : stepped 0 st st.
Proof. split; reflexivity. Qed.

(** The loop assigns none of the settings.  Either it returns a line, and
    then it has slept at least once and the counter is at zero; or it
    returns no line, and then it has slept some number [k] of times, for
    [wait_step] each, and the counter is at its former value with
    [wait_step] added [k] times. *)
Lemma wait_for_update_time fuel : forall st,
  same_config (snd st) (snd (snd (_wait_for_update fuel st)))
  /\ ((exists line, fst (_wait_for_update fuel st) = Val line
                    /\ line <> EmptyString
                    /\ restarted st (snd (_wait_for_update fuel st)))
      \/ ((forall line, fst (_wait_for_update fuel st) <> Val line)
          /\ exists k, stepped k st (snd (_wait_for_update fuel st)))).
Proof.
  assert (Stay : forall (r : Res string) (st : State), (forall line, r <> Val line) ->
            same_config (snd st) (snd (snd (r, st)))
            /\ ((exists line, fst (r, st) = Val line /\ line <> EmptyString
                              /\ restarted st (snd (r, st)))
                \/ ((forall line, fst (r, st) <> Val line)
                    /\ exists k, stepped k st (snd (r, st))))).
  { intros r st Hr. split; [apply same_config_refl|]. right. split; [exact Hr|].
    exists 0%nat. apply stepped_refl. }
  induction fuel as [|fuel IH]; intros st.
  - destruct (budget_left (snd st)) eqn:Hb.
    + rewrite (wait_for_update_no_fuel st Hb). apply Stay. discriminate.
    + rewrite (wait_for_update_exhausted 0 st Hb). apply Stay. discriminate.
  - destruct (budget_left (snd st)) eqn:Hb;
      [|rewrite (wait_for_update_exhausted _ st Hb); apply Stay; discriminate].
    destruct (sleep_error (wait_step (snd st))) as [e|] eqn:Hs;
      [rewrite (wait_for_update_sleep_error fuel st e Hb Hs); apply Stay; discriminate|].
    rewrite (wait_for_update_turn fuel st Hb Hs).
    destruct (poll st) as [[line|e|] st1] eqn:Hp;
      destruct (poll_facts _ _ _ Hp) as (C1 & T1 & _);
      pose proof (poll_slept _ _ _ Hp) as S1.
    + destruct (nonempty line) eqn:Hn.
      * split; [exact C1|]. left. exists line. cbn [fst snd].
        split; [reflexivity|]. split; [apply nonempty_true, Hn|].
        split; [reflexivity|]. exists 0%nat. exact S1.
      * apply nonempty_false in Hn. subst line.
        destruct (check_after_read _ _ _ Hp) as (st2 & Hc).
        unfold bind. rewrite Hc.
        destruct (check_facts _ _ _ Hc) as ((C2 & T2 & _ & _ & _ & S2) & _).
        destruct (IH st2) as (C3 & HT).
        split; [exact (same_config_trans _ _ _ (same_config_trans _ _ _ C1 C2) C3)|].
        assert (W : wait_step (snd st2) = wait_step (snd st)).
        { destruct C1 as (_ & _ & _ & W1 & _). destruct C2 as (_ & _ & _ & W2 & _).
          rewrite W2, W1. reflexivity. }
        destruct HT as [(line & Hv & Hl & Ht & k & Hk)|(Hno & k & Ht & Hk)].
        -- left. exists line. split; [exact Hv|]. split; [exact Hl|].
           split; [exact Ht|]. exists (S k).
           rewrite Hk, W, S2, S1. apply repeat_cons_app.
        -- right. split; [exact Hno|]. exists (S k). split.
           ++ rewrite Ht, W, T2, T1. reflexivity.
           ++ rewrite Hk, W, S2, S1. apply repeat_cons_app.
    + split; [exact C1|]. right. split; [discriminate|].
      exists 1%nat. split; [exact T1 | exact S1].
    + split; [exact C1|]. right. split; [discriminate|].
      exists 1%nat. split; [exact T1 | exact S1].
Qed.

(** Once [k] more additions of the step bring the counter to where the
    loop stops, [k] polls are enough fuel. *)
Lemma wait_for_update_ends k : forall st fuel,
  budget_left
    (set_time_waited (add_steps k (wait_step (snd st)) (time_waited (snd st))) (snd st))
  = false ->
  (k <= fuel)%nat ->
  fst (_wait_for_update fuel st) <> OutOfFuel.
Proof.
  induction k as [|k IH]; intros st fuel Hk Hf.
  - rewrite (wait_for_update_exhausted fuel st); [discriminate | exact Hk].
  - destruct (budget_left (snd st)) eqn:Hb;
      [|rewrite (wait_for_update_exhausted _ st Hb); discriminate].
    destruct fuel as [|fuel]; [lia|].
    destruct (sleep_error (wait_step (snd st))) as [e|] eqn:Hs;
      [rewrite (wait_for_update_sleep_error fuel st e Hb Hs); discriminate|].
    rewrite (wait_for_update_turn fuel st Hb Hs).
    destruct (poll st) as [[line|e|] st1] eqn:Hp;
      destruct (poll_facts _ _ _ Hp) as (C1 & T1 & F1 & _);
      [|discriminate|congruence].
    destruct (nonempty line) eqn:Hn; [discriminate|].
    apply nonempty_false in Hn. subst line.
    destruct (check_after_read _ _ _ Hp) as (st2 & Hc).
    unfold bind. rewrite Hc.
    destruct (check_facts _ _ _ Hc) as ((C2 & T2 & _) & _).
    destruct C1 as (_ & _ & _ & W1 & O1 & _). destruct C2 as (_ & _ & _ & W2 & O2 & _).
    apply IH; [|lia].
    rewrite budget_left_set in *. rewrite O2, O1, W2, W1, T2, T1. exact Hk.
Qed.

(** With a negative [wait_timeout] the loop never gives up. *)
Lemma wait_for_update_never_stops fuel : forall st,
  (wait_timeout (snd st) <? 0)%float = true ->
  fst (_wait_for_update fuel st) <> Raise StopIteration.
Proof.
  induction fuel as [|fuel IH]; intros st Hneg.
  - rewrite wait_for_update_no_fuel; [discriminate|].
    apply budget_left_true. left. exact Hneg.
  - assert (Hb : budget_left (snd st) = true)
      by (apply budget_left_true; left; exact Hneg).
    destruct (sleep_error (wait_step (snd st))) as [e|] eqn:Hs.
    { rewrite (wait_for_update_sleep_error fuel st e Hb Hs). cbn.
      intros E. injection E as ->. exact (sleep_error_not_stop _ Hs). }
    rewrite (wait_for_update_turn fuel st Hb Hs).
    destruct (poll st) as [[line|e|] st1] eqn:Hp;
      destruct (poll_facts _ _ _ Hp) as (C1 & T1 & F1 & S1);
      [|exact S1|discriminate].
    destruct (nonempty line) eqn:Hn; [discriminate|].
    apply nonempty_false in Hn. subst line.
    destruct (check_after_read _ _ _ Hp) as (st2 & Hc).
    unfold bind. rewrite Hc.
    destruct (check_facts _ _ _ Hc) as ((C2 & T2 & _) & _).
    destruct C1 as (_ & _ & _ & W1 & O1 & _). destruct C2 as (_ & _ & _ & W2 & O2 & _).
    apply IH. rewrite O2, O1. exact Hneg.
Qed.

(* ===================================================================== *)
(** * Persisting the cursor *)
(* ===================================================================== *)

(** With an open handle and the live path in place, the cursor is written:
    the inode of the live path, the position of the handle, the time. *)
Lemma update_offset_file_open (w : World) (self : Pygtail) h ino size :
  _fh self = Some h -> h_closed h = false ->
  stat (w_fs w) (filename self) = Some (ino, size) ->
  _update_offset_file (w, self)
  = (Val tt,
     (set_fs w (write_file (w_fs w) (_offset_file self)
                  (cursor_text ino (h_pos h) (w_now w))),
      self)).
Proof.
  intros Hfh Hc Hs. unfold _update_offset_file.
  unfold bind at 1, get_self at 1. cbn [fst snd].
  unfold _is_closed. rewrite Hfh, Hc.
  unfold bind at 1. rewrite (filehandle_open w self h Hfh Hc).
  unfold bind at 1, get_world at 1. cbn [fst snd].
  unfold bind at 1. rewrite Hs. reflexivity.
Qed.

Lemma exists_stat fs path :
  exists_ fs path = true -> exists ino size, stat fs path = Some (ino, size).
Proof.
  unfold exists_. destruct (stat fs path) as [[ino size]|]; [eauto | discriminate].
Qed.

Lemma updatable_update st w' :
  updatable st -> w_fs w' = w_fs (fst st) ->
  exists st3, _update_offset_file (w', snd st) = (Val tt, st3).
Proof.
  intros [Hc | (h & Hfh & Hc & Hex)] Hw.
  - eexists. apply update_offset_file_skips. exact Hc.
  - rewrite <- Hw in Hex. apply exists_stat in Hex. destruct Hex as (ino & size & Hs).
    eexists. apply (update_offset_file_open w' (snd st) h ino size Hfh Hc Hs).
Qed.

(** The detector leaves an updatable state. *)
Lemma check_updatable st1 st2 h :
  _fh (snd st1) = Some h -> h_closed h = false ->
  _check_rotate_truncate st1 = (Val tt, st2) ->
  updatable st2.
Proof.
  destruct st1 as [w s]. cbn [fst snd]. intros Hfh Hc H.
  destruct (stat (w_fs w) (filename s)) as [[ino size]|] eqn:Hs.
  - destruct (Z.eq_dec ino (h_ino h)) as [->|Hne].
    + destruct (copytruncate s && (size <? h_pos h))%bool eqn:Hb.
      * apply andb_true_iff in Hb. destruct Hb as [Hct Hlt].
        apply Z.ltb_lt in Hlt.
        rewrite (check_truncated w s h Hfh Hc size Hs Hct Hlt) in H.
        injection H as <-. left. reflexivity.
      * rewrite (check_unchanged w s h Hfh Hc size Hs) in H.
        -- injection H as <-. right. exists h. cbn.
           split; [exact Hfh|]. split; [exact Hc|].
           unfold exists_. rewrite Hs. reflexivity.
        -- apply andb_false_iff in Hb. destruct Hb as [Hb|Hb]; [left; exact Hb|].
           right. apply Z.ltb_ge in Hb. exact Hb.
    + rewrite (check_rotated w s h Hfh Hc ino size Hs Hne) in H.
      injection H as <-. left. reflexivity.
  - rewrite (check_moved w s h Hfh Hc Hs) in H. injection H as <-. left. reflexivity.
Qed.

(** When the loop gives up, it does so in an updatable state. *)
Lemma wait_for_update_stop_updatable fuel : forall st st',
  updatable st ->
  _wait_for_update fuel st = (Raise StopIteration, st') ->
  updatable st'.
Proof.
  induction fuel as [|fuel IH]; intros st st' Hu H.
  - destruct (budget_left (snd st)) eqn:Hb.
    + rewrite (wait_for_update_no_fuel st Hb) in H. discriminate.
    + rewrite (wait_for_update_exhausted 0 st Hb) in H. injection H as <-. exact Hu.
  - destruct (budget_left (snd st)) eqn:Hb;
      [|rewrite (wait_for_update_exhausted _ st Hb) in H; injection H as <-; exact Hu].
    destruct (sleep_error (wait_step (snd st))) as [e0|] eqn:Hs.
    { rewrite (wait_for_update_sleep_error fuel st e0 Hb Hs) in H.
      injection H as He _. subst e0. destruct (sleep_error_not_stop _ Hs). }
    rewrite (wait_for_update_turn fuel st Hb Hs) in H.
    destruct (poll st) as [[line|e|] st1] eqn:Hp;
      destruct (poll_facts _ _ _ Hp) as (_ & _ & _ & S1);
      [|congruence|discriminate].
    destruct (nonempty line) eqn:Hn; [discriminate|].
    destruct (check_after_read _ _ _ Hp) as (st2 & Hc).
    unfold bind in H. rewrite Hc in H.
    destruct (filehandle_readline_val _ _ _ Hp) as (h & Hfh & Hopen).
    apply (IH st2 st' (check_updatable st1 st2 h Hfh Hopen Hc) H).
Qed.

(* ===================================================================== *)
(** * One pull *)
(* ===================================================================== *)

Lemma readline_facts st r st1 :
  _filehandle_readline st = (r, st1) ->
  quiet st st1 /\ _catching_up (snd st1) = _catching_up (snd st)
  /\ r <> OutOfFuel /\ r <> Raise StopIteration.
Proof.
  intros H. pose proof (tame_filehandle_readline st) as T.
  rewrite H in T. exact T.
Qed.

(** [_get_next_line], case by case on the first read. *)
Lemma get_next_line_line fuel st line st1 :
  _filehandle_readline st = (Val line, st1) ->
  line <> EmptyString ->
  _get_next_line fuel st = (Val line, st1).
Proof.
  intros H Hl. unfold _get_next_line, bind. rewrite H.
  apply nonempty_true in Hl. rewrite Hl. reflexivity.
Qed.

Lemma get_next_line_raise fuel st e st1 :
  _filehandle_readline st = (Raise e, st1) ->
  _get_next_line fuel st = (Raise e, st1).
Proof.
  intros H. unfold _get_next_line, bind. rewrite H. reflexivity.
Qed.

Lemma get_next_line_archive_end fuel st st1 :
  _filehandle_readline st = (Val EmptyString, st1) ->
  _catching_up (snd st) = true ->
  _get_next_line fuel st = (Raise StopIteration, st1).
Proof.
  intros H Hc. unfold _get_next_line, bind. rewrite H. cbn.
  destruct (readline_facts _ _ _ H) as (_ & K & _). rewrite K, Hc. reflexivity.
Qed.

Lemma get_next_line_live_end fuel st st1 st2 :
  _filehandle_readline st = (Val EmptyString, st1) ->
  _catching_up (snd st) = false ->
  _check_rotate_truncate st1 = (Val tt, st2) ->
  _get_next_line fuel st = _wait_for_update fuel st2.
Proof.
  intros H Hc Hd. unfold _get_next_line, bind. rewrite H. cbn.
  destruct (readline_facts _ _ _ H) as (_ & K & _). rewrite K, Hc, Hd.
  reflexivity.
Qed.

(** The loop leaves [_catching_up] alone. *)
Lemma wait_for_update_catching_up fuel : forall st,
  _catching_up (snd (snd (_wait_for_update fuel st))) = _catching_up (snd st).
Proof.
  induction fuel as [|fuel IH]; intros st.
  - destruct (budget_left (snd st)) eqn:Hb.
    + rewrite (wait_for_update_no_fuel st Hb). reflexivity.
    + rewrite (wait_for_update_exhausted 0 st Hb). reflexivity.
  - destruct (budget_left (snd st)) eqn:Hb;
      [|rewrite (wait_for_update_exhausted _ st Hb); reflexivity].
    destruct (sleep_error (wait_step (snd st))) as [e0|] eqn:Hs;
      [rewrite (wait_for_update_sleep_error fuel st e0 Hb Hs); reflexivity|].
    rewrite (wait_for_update_turn fuel st Hb Hs).
    assert (K1 : forall r st1, poll st = (r, st1) ->
                 _catching_up (snd st1) = _catching_up (snd st)).
    { intros r st1 Hp. unfold poll in Hp.
      destruct (readline_facts _ _ _ Hp) as (_ & K & _). exact K. }
    destruct (poll st) as [[line|e|] st1] eqn:Hp; try exact (K1 _ _ eq_refl).
    destruct (nonempty line) eqn:Hn; [exact (K1 _ _ eq_refl)|].
    destruct (check_after_read _ _ _ Hp) as (st2 & Hc).
    unfold bind. rewrite Hc. rewrite IH.
    pose proof (tame_check_rotate_truncate st1) as T. rewrite Hc in T.
    destruct T as (_ & K2 & _). cbn in K2. rewrite K2. exact (K1 _ _ eq_refl).
Qed.

(** [next] when [_get_next_line] returns a line. *)
Lemma next_line fuel st line st1 :
  _get_next_line fuel st = (Val line, st1) ->
  next fuel st
  = ((if paranoid (snd st1) then _update_offset_file else ret tt) ;; ret line) st1.
Proof.
  intros H. unfold next. unfold bind at 1, try_except. rewrite H.
  unfold bind at 1, get_self. reflexivity.
Qed.

(** [next] when the live file has nothing more. *)
Lemma next_live_stop fuel st st1 :
  _get_next_line fuel st = (Raise StopIteration, st1) ->
  _catching_up (snd st1) = false ->
  updatable st1 ->
  exists st2,
    _update_offset_file
      (log DEBUG "StopIteration at the main file, exiting" (fst st1), snd st1)
    = (Val tt, st2)
    /\ next fuel st = (Raise StopIteration, st2).
Proof.
  intros H Hc Hu.
  destruct (updatable_update st1
              (log DEBUG "StopIteration at the main file, exiting" (fst st1)) Hu eq_refl)
    as (st2 & Hup).
  exists st2. split; [exact Hup|].
  unfold next. unfold bind at 1, try_except. rewrite H. cbn [on_StopIteration].
  unfold bind at 1, get_self at 1. cbn [fst snd]. rewrite Hc.
  unfold bind at 1, modify_world at 1. cbn [fst snd].
  unfold bind at 1. rewrite Hup. reflexivity.
Qed.

(** Other exceptions, and the end of the fuel, pass through [next]. *)
Lemma next_raise fuel st e st1 :
  _get_next_line fuel st = (Raise e, st1) ->
  e <> StopIteration ->
  next fuel st = (Raise e, st1).
Proof.
  intros H He. unfold next. unfold bind at 1, try_except. rewrite H.
  destruct e; try reflexivity. congruence.
Qed.

Lemma next_out_of_fuel fuel st st1 :
  _get_next_line fuel st = (OutOfFuel, st1) ->
  next fuel st = (OutOfFuel, st1).
Proof.
  intros H. unfold next. unfold bind at 1, try_except. rewrite H. reflexivity.
Qed.

(* ===================================================================== *)
(** * The bounded wait *)
(* ===================================================================== *)



(** Nothing comes: with [wait_timeout] 1 and [wait_step] 0.5 the pull
    sleeps twice and signals exhaustion. *)
Example pull_times_out :
  let r := next 10 (world_of fs_ab ten_thirty [], reader_at_end 1) in
  fst r = Raise StopIteration
  /\ slept (w_trace (fst (snd r))) = [0.5; 0.5]%float
  /\ time_waited (snd (snd r)) = 1%float.
Proof. vm_compute. repeat split. Qed.

(** The additions are those of floats.  With [wait_step] 0.1 and
    [wait_timeout] 1.0, ten additions give 0.9999999999999999, which is
    below 1.0: the pull sleeps eleven times. *)
Example pull_sleeps_eleven_times :
  let r := next 20 (world_of fs_ab ten_thirty [], stepping_reader_at_end tenth 1 0) in
  fst r = Raise StopIteration
  /\ length (slept (w_trace (fst (snd r)))) = 11%nat
  /\ add_steps 10 tenth 0 = 0x1.fffffffffffffp-1%float
  /\ (add_steps 10 tenth 0 <? 1)%float = true.
Proof. vm_compute. repeat split. Qed.

(** A counter that has stopped growing: at 2^53 the addition of 1.0 is
    absorbed, so that with a [wait_timeout] above it the pull never gives
    up; here it is still polling, with the counter unchanged, after 50
    polls. *)
Example pull_with_stalled_counter :
  let big := 9007199254740992%float in
  let r := next 50 (world_of fs_ab ten_thirty [],
                    stepping_reader_at_end 1 18014398509481984 big) in
  (big + 1 = big)%float
  /\ fst r = OutOfFuel
  /\ length (slept (w_trace (fst (snd r)))) = 50%nat
  /\ time_waited (snd (snd r)) = big.
Proof. vm_compute. repeat split. Qed.

(** With [wait_step] 0 the counter never moves either. *)
Example pull_with_zero_step :
  let r := next 50 (world_of fs_ab ten_thirty [], stepping_reader_at_end 0 20 0) in
  fst r = OutOfFuel /\ length (slept (w_trace (fst (snd r)))) = 50%nat.
Proof. vm_compute. split; reflexivity. Qed.

(** A line is appended during the second sleep: the pull returns it and
    the counter is back at zero. *)
Example pull_gets_late_line :
  let r := next 10 (world_of fs_ab ten_thirty [id; append "log" (Str.unlines ["c"])],
                    reader_at_end 20) in
  fst r = Val (Str.unlines ["c"])
  /\ slept (w_trace (fst (snd r))) = [0.5; 0.5]%float
  /\ time_waited (snd (snd r)) = 0%float.
Proof. vm_compute. repeat split. Qed.

(** A negative [wait_timeout] and nothing to read: the pull is still
    polling when the fuel is used up, here after 50 polls. *)
Example pull_waits_forever :
  let r := next 50 (world_of fs_ab ten_thirty [], reader_at_end (-1)) in
  fst r = OutOfFuel /\ length (slept (w_trace (fst (snd r)))) = 50%nat.
Proof. vm_compute. split; reflexivity. Qed.

(** A [wait_step] that [time.sleep] refuses: a negative one and a NaN give
    [ValueError], an infinite one [OverflowError]. *)
Example pull_with_bad_step :
  fst (next 5 (world_of fs_ab ten_thirty [], stepping_reader_at_end (-1) 20 0))
  = Raise ValueError
  /\ fst (next 5 (world_of fs_ab ten_thirty [], stepping_reader_at_end nan 20 0))
     = Raise ValueError
  /\ fst (next 5 (world_of fs_ab ten_thirty [], stepping_reader_at_end infinity 20 0))
     = Raise OverflowError.
Proof. vm_compute. repeat split. Qed.

(* ===================================================================== *)
(** * The counter of the wait across pulls *)
(* ===================================================================== *)

Lemma add_steps_add k1 : forall k2 step t,
  add_steps k2 step (add_steps k1 step t) = add_steps (k1 + k2) step t.
Proof.
  induction k1 as [|k1 IH]; intros k2 step t; cbn; [reflexivity | apply IH].
Qed.

Lemma stepped_quiet k st st1 st2 :
  quiet st st1 -> stepped k st1 st2 -> stepped k st st2.
Proof.
  intros ((_ & _ & _ & W & _) & T & _ & _ & _ & Sl) (Ht & Hs).
  split; [rewrite Ht, W, T | rewrite Hs, W, Sl]; reflexivity.
Qed.

Lemma stepped_then_quiet k st st1 st2 :
  stepped k st st1 -> quiet st1 st2 -> stepped k st st2.
Proof.
  intros (Ht & Hs) (_ & T & _ & _ & _ & Sl).
  split; [rewrite T, Ht | rewrite Sl, Hs]; reflexivity.
Qed.

Lemma restarted_quiet st st1 st2 :
  quiet st st1 -> restarted st1 st2 -> restarted st st2.
Proof.
  intros ((_ & _ & _ & W & _) & _ & _ & _ & _ & Sl) (Ht & k & Hs).
  split; [exact Ht|]. exists k. rewrite Hs, W, Sl. reflexivity.
Qed.

Lemma restarted_then_quiet st st1 st2 :
  restarted st st1 -> quiet st1 st2 -> restarted st st2.
Proof.
  intros (Ht & k & Hs) (_ & T & _ & _ & _ & Sl).
  split; [rewrite T; exact Ht|]. exists k. rewrite Sl, Hs. reflexivity.
Qed.

(** Advances of the counter add up. *)
Lemma stepped_trans k1 k2 st st1 st2 :
  same_config (snd st) (snd st1) ->
  stepped k1 st st1 -> stepped k2 st1 st2 -> stepped (k1 + k2) st st2.
Proof.
  intros (_ & _ & _ & W & _) (Ht1 & Hs1) (Ht2 & Hs2). split.
  - rewrite Ht2, W, Ht1. apply add_steps_add.
  - rewrite Hs2, W, Hs1, app_assoc, <- repeat_app. f_equal. f_equal. lia.
Qed.

Lemma stepped_restarted k1 st st1 st2 :
  same_config (snd st) (snd st1) ->
  stepped k1 st st1 -> restarted st1 st2 -> restarted st st2.
Proof.
  intros (_ & _ & _ & W & _) (Ht1 & Hs1) (Ht2 & k & Hs2).
  split; [exact Ht2|]. exists (k + k1)%nat.
  rewrite Hs2, W, Hs1, app_assoc, <- repeat_app. reflexivity.
Qed.

Lemma quiet_stepped st st' : quiet st st' -> stepped 0 st st'.
Proof. intros (_ & T & _ & _ & _ & Sl). split; [exact T | exact Sl]. Qed.

Lemma accumulates_tame {A} (m : M A) : tame m -> accumulates m.
Proof.
  intros T st. destruct (T st) as (Q & _).
  split; [apply Q|]. left. exists 0%nat. apply quiet_stepped, Q.
Qed.

Lemma accumulates_raise {A} (e : exn) : accumulates (@raise A e).
Proof.
  intros st. cbn. split; [apply same_config_refl|]. left. exists 0%nat.
  apply stepped_refl.
Qed.

(** A computation that is quiet and ends, without [StopIteration],
    followed by an accumulating one. *)
Lemma accumulates_bind_quiet_l {A B} (m : M A) (k : A -> M B) :
  (forall st, quiet st (snd (m st))
              /\ fst (m st) <> OutOfFuel /\ fst (m st) <> Raise StopIteration) ->
  (forall a, accumulates (k a)) -> accumulates (bind m k).
Proof.
  intros T Hk st. unfold bind. destruct (T st) as (Q & F & S).
  destruct (m st) as [[a|e|] st1]; cbn [fst snd] in *.
  - destruct (Hk a st1) as (C2 & H2).
    split; [exact (same_config_trans _ _ _ (proj1 Q) C2)|].
    destruct H2 as [(k0 & H2)|(Hv & H2)].
    + left. exists k0. exact (stepped_quiet _ _ _ _ Q H2).
    + right. split; [exact Hv|]. exact (restarted_quiet _ _ _ Q H2).
  - split; [apply Q|]. left. exists 0%nat. apply quiet_stepped, Q.
  - exfalso. apply F. reflexivity.
Qed.

Lemma accumulates_bind_tame_l {A B} (m : M A) (k : A -> M B) :
  tame m -> (forall a, accumulates (k a)) -> accumulates (bind m k).
Proof.
  intros T. apply accumulates_bind_quiet_l. intros st.
  destruct (T st) as (Q & _ & F & S). auto.
Qed.

(** [try: m except StopIteration: k], both accumulating. *)
Lemma accumulates_try_except {A} (m k : M A) :
  accumulates m -> accumulates k ->
  accumulates (try_except m (on_StopIteration k)).
Proof.
  intros Hm Hk st. unfold try_except. destruct (Hm st) as (C & H).
  destruct (m st) as [[a|e|] st1] eqn:Em; cbn [fst snd] in *.
  - split; [exact C | exact H].
  - assert (H1 : exists k1, stepped k1 st st1).
    { destruct H as [H|((a & Ha) & _)]; [exact H | discriminate]. }
    destruct e; cbn [on_StopIteration];
      try (split; [exact C | left; exact H1]).
    destruct H1 as (k1 & H1).
    destruct (Hk st1) as (C2 & H2).
    split; [exact (same_config_trans _ _ _ C C2)|].
    destruct H2 as [(k2 & H2)|(Hv & H2)].
    + left. exists (k1 + k2)%nat. exact (stepped_trans _ _ _ _ _ C H1 H2).
    + right. split; [exact Hv|]. exact (stepped_restarted _ _ _ _ C H1 H2).
  - split; [exact C | exact H].
Qed.

Lemma accumulates_wait_for_update fuel : accumulates (_wait_for_update fuel).
Proof.
  intros st. destruct (wait_for_update_time fuel st) as (C & H).
  split; [exact C|].
  destruct H as [(line & Hv & _ & Hr)|(_ & Hk)]; [|left; exact Hk].
  right. split; [exists line; exact Hv | exact Hr].
Qed.

Lemma accumulates_get_next_line fuel : accumulates (_get_next_line fuel).
Proof.
  unfold _get_next_line.
  apply accumulates_bind_tame_l; [apply tame_filehandle_readline|]. intros line.
  destruct (nonempty line); [apply accumulates_tame, tame_ret|].
  apply accumulates_bind_tame_l; [apply tame_get_self|]. intros self.
  destruct (_catching_up self); [apply accumulates_raise|].
  apply accumulates_bind_tame_l; [apply tame_check_rotate_truncate|]. intros _.
  apply accumulates_wait_for_update.
Qed.

Lemma tame_log l msg : tame (modify_world (log l msg)).
Proof. apply tame_modify_world. intros w. repeat split. Qed.

(** What [next] does around the catch of [StopIteration]. *)
Lemma accumulates_next_try fuel :
  accumulates
    (try_except (_get_next_line fuel)
       (on_StopIteration
          (self <- get_self ;;
           if _catching_up self
           then
             from <- fh_filename (_fh self) ;;
             modify_world
               (log DEBUG
                  ("Finished processing " +:+ from +:+ ", moving to "
                   +:+ match _rotated_logfiles self with
                       | f :: _ => if nonempty f then f else filename self
                       | [] => filename self
                       end)) ;;
             _reload ;;
             modify_self (fun s => set_catching_up
                                     (match _rotated_logfiles s with
                                      | [] => false | _ => true end) s) ;;
             try_except (_get_next_line fuel)
               (on_StopIteration (_update_offset_file ;; raise StopIteration))
           else
             modify_world (log DEBUG "StopIteration at the main file, exiting") ;;
             _update_offset_file ;;
             raise StopIteration))).
Proof.
  apply accumulates_try_except; [apply accumulates_get_next_line|].
  apply accumulates_bind_tame_l; [apply tame_get_self|]. intros self.
  destruct (_catching_up self).
  - apply accumulates_bind_tame_l; [apply tame_fh_filename|]. intros from.
    apply accumulates_bind_tame_l; [apply tame_log|]. intros _.
    apply accumulates_bind_tame_l; [apply tame_reload|]. intros _.
    apply accumulates_bind_quiet_l.
    + intros st. cbn. split; [repeat split|]. split; discriminate.
    + intros _. apply accumulates_try_except; [apply accumulates_get_next_line|].
      apply accumulates_bind_tame_l; [apply tame_update_offset_file|]. intros _.
      apply accumulates_raise.
  - apply accumulates_bind_tame_l; [apply tame_log|]. intros _.
    apply accumulates_bind_tame_l; [apply tame_update_offset_file|]. intros _.
    apply accumulates_raise.
Qed.

Lemma bind_cases {A B} (m : M A) (k : A -> M B) st :
  bind m k st
  = match m st with
    | (Val a, st1) => k a st1
    | (Raise e, st1) => (Raise e, st1)
    | (OutOfFuel, st1) => (OutOfFuel, st1)
    end.
Proof. unfold bind. destruct (m st) as [[a|e|] st1]; reflexivity. Qed.

(** A pull assigns none of the settings.  Either it has only advanced the
    counter, once per sleep; or it has slept at least once and reset the
    counter, and then it has neither given up nor run out of fuel. *)
Lemma next_counts fuel st :
  same_config (snd st) (snd (snd (next fuel st)))
  /\ ((exists k, stepped k st (snd (next fuel st)))
      \/ (restarted st (snd (next fuel st))
          /\ fst (next fuel st) <> Raise StopIteration
          /\ fst (next fuel st) <> OutOfFuel)).
Proof.
  unfold next. rewrite bind_cases.
  destruct (accumulates_next_try fuel st) as (C & H).
  destruct (try_except _ _ st) as [[line|e|] st1]; cbn [fst snd] in *.
  - assert (T : tame (self <- get_self ;;
                      (if paranoid self then _update_offset_file else ret tt) ;;
                      ret line)) by tame_steps.
    destruct (T st1) as (Q & _ & F & S).
    split; [exact (same_config_trans _ _ _ C (proj1 Q))|].
    destruct H as [(k & H)|(_ & H)].
    + left. exists k. exact (stepped_then_quiet _ _ _ _ H Q).
    + right. split; [exact (restarted_then_quiet _ _ _ H Q)|]. split; assumption.
  - split; [exact C|]. left.
    destruct H as [H|((a & Ha) & _)]; [exact H | discriminate].
  - split; [exact C|]. left.
    destruct H as [H|((a & Ha) & _)]; [exact H | discriminate].
Qed.

(** A pull that gets its line from the first read neither sleeps nor
    touches the counter. *)
Lemma next_direct_read fuel st line st1 :
  _filehandle_readline st = (Val line, st1) -> line <> EmptyString ->
  quiet st (snd (next fuel st)).
Proof.
  intros Hr Hl.
  rewrite (next_line fuel st line st1 (get_next_line_line fuel st line st1 Hr Hl)).
  destruct (readline_facts _ _ _ Hr) as (Q1 & _).
  assert (T : tame ((if paranoid (snd st1) then _update_offset_file else ret tt) ;;
                    ret line)) by tame_steps.
  destruct (T st1) as (Q2 & _).
  exact (quiet_trans _ _ _ Q1 Q2).
Qed.

Lemma quiet_budget st st' :
  quiet st st' -> budget_left (snd st') = budget_left (snd st).
Proof.
  intros ((_ & _ & _ & _ & O & _) & T & _). unfold budget_left. rewrite O, T.
  reflexivity.
Qed.

Lemma calm_tame {A} (m : M A) : tame m -> calm m.
Proof. intros T st _. destruct (T st) as (Q & _ & F & _). auto. Qed.

Lemma calm_raise {A} (e : exn) : calm (@raise A e).
Proof. intros st _. cbn. split; [apply quiet_refl | discriminate]. Qed.

Lemma calm_bind {A B} (m : M A) (k : A -> M B) :
  calm m -> (forall a, calm (k a)) -> calm (bind m k).
Proof.
  intros Hm Hk st Hb. unfold bind. destruct (Hm st Hb) as (Q1 & F1).
  destruct (m st) as [[a|e|] st1]; cbn [fst snd] in *.
  - destruct (Hk a st1) as (Q2 & F2).
    + rewrite (quiet_budget _ _ Q1). exact Hb.
    + split; [exact (quiet_trans _ _ _ Q1 Q2) | exact F2].
  - split; [exact Q1 | discriminate].
  - exfalso. apply F1. reflexivity.
Qed.

Lemma calm_try_except {A} (m k : M A) :
  calm m -> calm k -> calm (try_except m (on_StopIteration k)).
Proof.
  intros Hm Hk st Hb. unfold try_except. destruct (Hm st Hb) as (Q1 & F1).
  destruct (m st) as [[a|e|] st1]; cbn [fst snd] in *.
  - split; [exact Q1 | discriminate].
  - destruct e; cbn [on_StopIteration]; try (split; [exact Q1 | discriminate]).
    destruct (Hk st1) as (Q2 & F2).
    + rewrite (quiet_budget _ _ Q1). exact Hb.
    + split; [exact (quiet_trans _ _ _ Q1 Q2) | exact F2].
  - exfalso. apply F1. reflexivity.
Qed.

Lemma calm_wait_for_update fuel : calm (_wait_for_update fuel).
Proof.
  intros st Hb. rewrite (wait_for_update_exhausted fuel st Hb).
  split; [apply quiet_refl | discriminate].
Qed.

Lemma calm_get_next_line fuel : calm (_get_next_line fuel).
Proof.
  unfold _get_next_line.
  apply calm_bind; [apply calm_tame, tame_filehandle_readline|]. intros line.
  destruct (nonempty line); [apply calm_tame, tame_ret|].
  apply calm_bind; [apply calm_tame, tame_get_self|]. intros self.
  destruct (_catching_up self); [apply calm_raise|].
  apply calm_bind; [apply calm_tame, tame_check_rotate_truncate|]. intros _.
  apply calm_wait_for_update.
Qed.

Lemma calm_set_catching_up f :
  calm (modify_self (fun s => set_catching_up (f s) s)).
Proof.
  intros st _. cbn. split; [repeat split | discriminate].
Qed.

(** With the wait used up, a pull does not sleep and does not touch the
    counter, whatever it returns. *)
Lemma calm_next fuel : calm (next fuel).
Proof.
  unfold next.
  apply calm_bind.
  - apply calm_try_except; [apply calm_get_next_line|].
    apply calm_bind; [apply calm_tame, tame_get_self|]. intros self.
    destruct (_catching_up self).
    + apply calm_bind; [apply calm_tame, tame_fh_filename|]. intros from.
      apply calm_bind; [apply calm_tame, tame_log|]. intros _.
      apply calm_bind; [apply calm_tame, tame_reload|]. intros _.
      apply calm_bind; [apply calm_set_catching_up|]. intros _.
      apply calm_try_except; [apply calm_get_next_line|].
      apply calm_bind; [apply calm_tame, tame_update_offset_file|]. intros _.
      apply calm_raise.
    + apply calm_bind; [apply calm_tame, tame_log|]. intros _.
      apply calm_bind; [apply calm_tame, tame_update_offset_file|]. intros _.
      apply calm_raise.
  - intros line. apply calm_tame. tame_steps.
Qed.

(** With the wait used up, a pull at the end of the live file signals
    exhaustion. *)
Lemma next_exhausted_at_end fuel st st1 :
  budget_left (snd st) = false ->
  _catching_up (snd st) = false ->
  _filehandle_readline st = (Val EmptyString, st1) ->
  fst (next fuel st) = Raise StopIteration.
Proof.
  intros Hb Hcu Hr.
  destruct (check_after_read _ _ _ Hr) as (st2 & Hc).
  destruct (readline_facts _ _ _ Hr) as (Q1 & K1 & _).
  destruct (check_facts _ _ _ Hc) as (Q2 & _).
  assert (Hb2 : budget_left (snd st2) = false)
    by (rewrite (quiet_budget _ _ Q2), (quiet_budget _ _ Q1); exact Hb).
  assert (Hg : _get_next_line fuel st = (Raise StopIteration, st2)).
  { rewrite (get_next_line_live_end fuel st st1 st2 Hr Hcu Hc).
    apply wait_for_update_exhausted, Hb2. }
  destruct (filehandle_readline_val _ _ _ Hr) as (h & Hfh & Hopen).
  assert (Hk : _catching_up (snd st2) = false).
  { pose proof (tame_check_rotate_truncate st1) as T. rewrite Hc in T.
    destruct T as (_ & K2 & _). cbn in K2. rewrite K2, K1. exact Hcu. }
  destruct (next_live_stop fuel st st2 Hg Hk (check_updatable st1 st2 h Hfh Hopen Hc))
    as (st3 & _ & Hn).
  rewrite Hn. reflexivity.
Qed.

Lemma init_body_time_waited st :
  time_waited (snd (snd (init_body st))) = time_waited (snd st).
Proof.
  unfold init_body. unfold bind at 1.
  destruct (tame_parse_offset_file st) as ((_ & TW & _) & _).
  destruct (_parse_offset_file st) as [[u|e|] [w1 s1]]; cbn [fst snd] in *;
    try exact TW.
  unfold bind at 1, get_self at 1. cbn [fst snd].
  destruct (_last_log s1) as [t|]; [|exact TW].
  unfold bind at 1, get_world at 1. cbn [fst snd].
  destruct (_determine_rotated_logfiles w1 s1) as [l|e|]; cbn; exact TW.
Qed.

(** A new object starts with the counter at zero. *)
Lemma init_time_waited filename offset_file paranoid copytruncate
    wait_step wait_timeout host_name (w w' : World) (self : Pygtail) :
  __init__ filename offset_file paranoid copytruncate
    wait_step wait_timeout host_name w = (Val self, w') ->
  time_waited self = 0%float.
Proof.
  unfold __init__. intros H.
  pose proof (init_body_time_waited
                (w, new_self filename offset_file paranoid copytruncate
                      wait_step wait_timeout host_name w)) as T.
  destruct (init_body _) as [[u|e|] [w1 s1]]; try discriminate.
  injection H as <- <-. exact T.
Qed.



(** Two pulls in a row at the end of [log]: the first one sleeps forty
    times and leaves the counter at 20; the second one gives up at once. *)
Example second_pull_gives_up_at_once :
  let r1 := next 100 (world_of fs_ab ten_thirty [], reader_at_end 20) in
  let r2 := next 100 (snd r1) in
  fst r1 = Raise StopIteration
  /\ length (slept (w_trace (fst (snd r1)))) = 40%nat
  /\ time_waited (snd (snd r1)) = 20%float
  /\ fst r2 = Raise StopIteration
  /\ length (slept (w_trace (fst (snd r2)))) = 40%nat.
Proof. vm_compute. repeat split. Qed.

(** A pull that reads the line [b] at once, with wait left and the counter
    at 3: the counter stays at 3. *)
Example direct_read_keeps_counter :
  let self := set_time_waited 3%float (reader false true 20 0 (Some (log_handle 1 2))) in
  let r := next 10 (world_of fs_ab ten_thirty [], self) in
  fst r = Val (Str.unlines ["b"])
  /\ time_waited (snd (snd r)) = 3%float
  /\ slept (w_trace (fst (snd r))) = [].
Proof. vm_compute. repeat split. Qed.

(* ===================================================================== *)
(** * A pull that finds the file rotated or truncated *)
(* ===================================================================== *)

Lemma readline_eof fs h :
  line_at (content_of fs (h_ino h)) (h_pos h) = EmptyString ->
  readline fs h = (EmptyString, h).
Proof.
  intros H. unfold readline. rewrite H. destruct h as [n i g p c]. cbn.
  unfold Str.len. cbn. rewrite Z.add_0_r. reflexivity.
Qed.

Lemma set_fh_same self h : _fh self = Some h -> set_fh (Some h) self = self.
Proof. destruct self. cbn. intros ->. reflexivity. Qed.

Lemma seek_zero fs name ino gz :
  seek fs (mkHandle name ino gz 0 false) 0 = Some (mkHandle name ino gz 0 false).
Proof.
  unfold seek. cbn. destruct gz; [|reflexivity].
  pose proof (Nat2Z.is_nonneg (String.length (content_of fs ino))).
  unfold Str.len. f_equal. f_equal. lia.
Qed.

Lemma sleep_fs d w w' :
  w_fs w' = w_fs w -> w_schedule w' = w_schedule w ->
  w_fs (sleep d w') = w_fs (sleep d w).
Proof. intros Hf Hs. unfold sleep. cbn. rewrite Hf, Hs. reflexivity. Qed.

(** A read at the end of the data, through an open handle. *)
Lemma filehandle_readline_eof w self h :
  _fh self = Some h -> h_closed h = false ->
  line_at (content_of (w_fs w) (h_ino h)) (h_pos h) = EmptyString ->
  _filehandle_readline (w, self) = (Val EmptyString, (w, self)).
Proof.
  intros Hfh Hc He. rewrite (filehandle_readline_open w self h Hfh Hc).
  rewrite (readline_eof _ _ He). cbn. rewrite (set_fh_same self h Hfh). reflexivity.
Qed.

(** The first poll after a reload: the live path is opened anew, at
    position 0, and read there. *)
Lemma poll_after_reload (w wl : World) (self : Pygtail) (h : Handle) ino2 size2 :
  _rotated_logfiles self = [] ->
  w_fs wl = w_fs w -> w_schedule wl = w_schedule w ->
  stat (w_fs (sleep (wait_step self) w)) (filename self) = Some (ino2, size2) ->
  let line := line_at (content_of (w_fs (sleep (wait_step self) w)) ino2) 0 in
  poll (wl, reloaded h self)
  = (Val line,
     (sleep (wait_step self) wl,
      set_fh (Some (reopened self ino2 line))
        (set_time_waited (time_waited self + wait_step self)%float (reloaded h self)))).
Proof.
  intros Hr Hf Hs Hst line. unfold poll. cbn [fst snd].
  change (wait_step (reloaded h self)) with (wait_step self).
  change (time_waited (reloaded h self)) with (time_waited self).
  set (s1 := set_time_waited (time_waited self + wait_step self)%float (reloaded h self)).
  set (w1 := sleep (wait_step self) wl).
  assert (Hfs : w_fs w1 = w_fs (sleep (wait_step self) w))
    by (apply sleep_fs; assumption).
  unfold _filehandle_readline. unfold bind at 1.
  rewrite (filehandle_reopen_live w1 s1 ino2 size2 0
             (mkHandle (filename self) ino2 (Str.endswith (filename self) ".gz") 0 false)).
  - unfold bind at 1, get_world at 1. cbn [fst snd].
    unfold readline. cbn [h_ino h_pos h_name h_gz h_closed].
    rewrite Hfs. fold line. reflexivity.
  - reflexivity.
  - exact Hr.
  - reflexivity.
  - rewrite Hfs. exact Hst.
  - apply seek_zero.
Qed.

(** A pull at the end of the data whose detector reloads: if the wait is
    not used up, the first poll reads the live path from position 0, and a
    line found there is what the pull returns. *)
Lemma next_after_reload fuel (w wl : World) (self : Pygtail) (h : Handle) ino2 size2 :
  _fh self = Some h -> h_closed h = false ->
  _catching_up self = false -> _rotated_logfiles self = [] ->
  line_at (content_of (w_fs w) (h_ino h)) (h_pos h) = EmptyString ->
  _check_rotate_truncate (w, self) = (Val tt, (wl, reloaded h self)) ->
  w_fs wl = w_fs w -> w_schedule wl = w_schedule w ->
  budget_left self = true -> sleep_error (wait_step self) = None ->
  stat (w_fs (sleep (wait_step self) w)) (filename self) = Some (ino2, size2) ->
  let line := line_at (content_of (w_fs (sleep (wait_step self) w)) ino2) 0 in
  line <> EmptyString ->
  exists w',
    next (S fuel) (w, self)
    = (Val line,
       (w', set_time_waited 0%float (set_fh (Some (reopened self ino2 line)) (reloaded h self))))
    /\ w_trace w' = Slept (wait_step self) :: w_trace wl.
Proof.
  intros Hfh Hc Hcu Hr He Hd Hf Hs Hb Hstep Hst line Hl.
  pose proof (filehandle_readline_eof w self h Hfh Hc He) as Hread.
  pose proof (poll_after_reload w wl self h ino2 size2 Hr Hf Hs Hst) as Hp.
  fold line in Hp.
  set (s2 := set_fh (Some (reopened self ino2 line))
               (set_time_waited (time_waited self + wait_step self)%float (reloaded h self))) in *.
  assert (Hg : _get_next_line (S fuel) (w, self)
               = (Val line, (sleep (wait_step self) wl, set_time_waited 0%float s2))).
  { rewrite (get_next_line_live_end (S fuel) (w, self) (w, self) (wl, reloaded h self)
               Hread Hcu Hd).
    rewrite (wait_for_update_turn fuel (wl, reloaded h self) Hb Hstep).
    rewrite Hp. apply nonempty_true in Hl. rewrite Hl. reflexivity. }
  rewrite (next_line (S fuel) _ _ _ Hg). cbn [snd].
  change (paranoid (set_time_waited 0%float s2)) with (paranoid self).
  destruct (paranoid self).
  - unfold bind.
    assert (Hst' : stat (w_fs (sleep (wait_step self) wl)) (filename (set_time_waited 0%float s2))
                   = Some (ino2, size2))
      by (rewrite (sleep_fs _ w wl Hf Hs); exact Hst).
    rewrite (update_offset_file_open (sleep (wait_step self) wl) (set_time_waited 0%float s2)
               (reopened self ino2 line) ino2 size2 eq_refl eq_refl Hst').
    eexists. split; reflexivity.
  - eexists. split; reflexivity.
Qed.

(** C1, as the code has it.  The handle is open on inode I1, the reader is
    not catching up, and the live path now names another inode.  If the
    handle has no unread data left in I1 and the wait is not used up
    ([wait_timeout] negative or [time_waited] below it, with a [wait_step]
    that [time.sleep] accepts), the next pull detects the mismatch, closes
    the handle, resets the offset to 0, opens the live path anew and
    returns the first line of the file found there. *)
Theorem next_after_rotation fuel (w : World) (self : Pygtail) (h : Handle)
    (ino size ino2 size2 : Z) :
  _fh self = Some h -> h_closed h = false ->
  _catching_up self = false -> _rotated_logfiles self = [] ->
  stat (w_fs w) (filename self) = Some (ino, size) -> ino <> h_ino h ->
  line_at (content_of (w_fs w) (h_ino h)) (h_pos h) = EmptyString ->
  budget_left self = true -> sleep_error (wait_step self) = None ->
  stat (w_fs (sleep (wait_step self) w)) (filename self) = Some (ino2, size2) ->
  let line := line_at (content_of (w_fs (sleep (wait_step self) w)) ino2) 0 in
  line <> EmptyString ->
  (exists wl,
     _check_rotate_truncate (w, self) = (Val tt, (wl, reloaded h self))
     /\ In (Logged INFO "File rotated, reloading...") (w_trace wl)
     /\ _fh (reloaded h self) = Some (close h)
     /\ _offset (reloaded h self) = Some 0)
  /\ exists w' self',
       next (S fuel) (w, self) = (Val line, (w', self'))
       /\ _offset self' = Some 0
       /\ _fh self' = Some (reopened self ino2 line)
       /\ time_waited self' = 0%float.
Proof.
  intros Hfh Hc Hcu Hr Hs Hne He Hb Hstep Hst line Hl.
  pose proof (check_rotated w self h Hfh Hc ino size Hs Hne) as Hd.
  set (wl := if (copytruncate self && (size <? h_pos h))%bool
             then log INFO "File truncated, reloading..."
                    (log INFO "File rotated, reloading..." w)
             else log INFO "File rotated, reloading..." w) in *.
  assert (Hwl : w_fs wl = w_fs w /\ w_schedule wl = w_schedule w
                /\ In (Logged INFO "File rotated, reloading...") (w_trace wl)).
  { unfold wl, log.
    destruct (copytruncate self && (size <? h_pos h))%bool; cbn; intuition. }
  destruct Hwl as (Hf & Hsch & Hin).
  split.
  - exists wl. repeat split; assumption.
  - destruct (next_after_reload fuel w wl self h ino2 size2
                Hfh Hc Hcu Hr He Hd Hf Hsch Hb Hstep Hst Hl) as (w' & Hn & _).
    exists w'. eexists. split; [exact Hn|]. repeat split.
Qed.

(** [log] has been read to its end on inode 1 and then rotated away; the
    pull returns the line [c] of the new file. *)
Lemma next_after_rotation_witness :
  exists w' self',
    next 1 (world_of fs_rotated ten_thirty [], reader_at_end 20)
    = (Val (Str.unlines ["c"]), (w', self'))
    /\ _offset self' = Some 0
    /\ _fh self' = Some (log_handle 2 2)
    /\ time_waited self' = 0%float.
Proof.
  refine (proj2 (next_after_rotation 0 (world_of fs_rotated ten_thirty [])
                   (reader_at_end 20) (log_handle 1 4) 2 2 2 2 _ _ _ _ _ _ _ _ _ _ _));
    try reflexivity; try discriminate.
Defined.

(** The handle is at offset 2 of inode 1, with the line [b] still unread,
    when [log] is replaced by a new file (inode 2) that holds the line [c]:
    the next pull does not detect anything and returns [b], read at offset
    2 of the old file. *)
Lemma rotation_unread_tail_read_first :
  let self := reader false true 20 0 (Some (log_handle 1 2)) in
  let w := world_of fs_rotated ten_thirty [] in
  stat (w_fs w) (filename self) = Some (2, 2)
  /\ line_at (content_of (w_fs w) 2) 0 = Str.unlines ["c"]
  /\ fst (next 100 (w, self)) = Val (Str.unlines ["b"])
  /\ fst (next 100 (w, self)) <> Val (Str.unlines ["c"])
  /\ _fh (snd (snd (next 100 (w, self)))) = Some (log_handle 1 4)
  /\ w_trace (fst (snd (next 100 (w, self)))) = [].
Proof.
  cbn zeta. repeat split; try reflexivity. vm_compute. discriminate.
Qed.

(** The same rotation found by a reader whose wait is used up: the pull
    detects it and raises [StopIteration]; the line [c] comes with the
    pull after. *)
Example rotation_found_with_wait_used_up :
  let st := (world_of fs_rotated ten_thirty [], reader_waited_out) in
  fst (next 100 st) = Raise StopIteration
  /\ fst (next 100 (snd (next 100 st))) = Val (Str.unlines ["c"]).
Proof. vm_compute. split; reflexivity. Qed.

(** ** The offset after a reload *)

Lemma preserves_bind {P A B} (m : M A) (k : A -> M B) :
  preserves P m -> (forall a, preserves P (k a)) -> preserves P (bind m k).
Proof.
  intros H K st Hst. unfold bind. specialize (H st Hst).
  destruct (m st) as [[a|e|] st1]; cbn [snd] in *; try exact H.
  apply K. exact H.
Qed.

Lemma preserves_try_except {P A} (m : M A) (k : M A) :
  preserves P m -> preserves P k -> preserves P (try_except m (on_StopIteration k)).
Proof.
  intros H K st Hst. unfold try_except. specialize (H st Hst).
  destruct (m st) as [[a|e|] st1]; cbn [snd] in *; try exact H.
  destruct e; cbn; try exact H. apply K. exact H.
Qed.

Lemma preserves_still {P A} (m : M A) :
  (forall st, snd (snd (m st)) = snd st) -> preserves P m.
Proof. intros H st Hst. rewrite H. exact Hst. Qed.

Lemma preserves_modify_self {P} (f : Pygtail -> Pygtail) :
  (forall s, P s -> P (f s)) -> preserves P (modify_self f).
Proof. intros H st Hst. cbn. apply H. exact Hst. Qed.

Create HintDb at_start.
#[local] Hint Extern 1 (preserves _ (ret _)) =>
  (apply preserves_still; reflexivity) : at_start.
#[local] Hint Extern 1 (preserves _ (raise _)) =>
  (apply preserves_still; reflexivity) : at_start.
#[local] Hint Extern 1 (preserves _ out_of_fuel) =>
  (apply preserves_still; reflexivity) : at_start.
#[local] Hint Extern 1 (preserves _ (or_raise _ ?o)) =>
  (apply preserves_still; intros; destruct o; reflexivity) : at_start.
#[local] Hint Extern 1 (preserves _ get_self) =>
  (apply preserves_still; reflexivity) : at_start.
#[local] Hint Extern 1 (preserves _ get_world) =>
  (apply preserves_still; reflexivity) : at_start.
#[local] Hint Extern 1 (preserves _ (modify_world _)) =>
  (apply preserves_still; reflexivity) : at_start.
#[local] Hint Extern 1 (preserves at_start (modify_self _)) =>
  (apply preserves_modify_self;
   let s := fresh "s" in let Hs := fresh "Hs" in
   intros s Hs; first [exact Hs | reflexivity]) : at_start.

Ltac at_start_steps :=
  repeat first
    [ progress auto with at_start
    | apply preserves_bind; [|intros]
    | apply preserves_try_except
    | match goal with
      | |- preserves _ (if ?b then _ else _) => destruct b
      | |- preserves _ (match ?x with _ => _ end) => destruct x
      | |- preserves _ (let '(_, _) := ?x in _) => destruct x
      end ].

(** With the offset set, [_get_offset] does not read the offset file. *)
Lemma get_offset_set (w : World) (self : Pygtail) offset :
  _offset self = Some offset ->
  _get_offset (w, self) = (Val (Some offset), (w, self)).
Proof.
  intros H. unfold _get_offset, bind, get_self. cbn [fst snd]. rewrite H.
  cbn. rewrite H. reflexivity.
Qed.

Lemma at_start_get_offset : preserves at_start _get_offset.
Proof.
  intros [w s] H. rewrite (get_offset_set w s 0 H). exact H.
Qed.
#[local] Hint Resolve at_start_get_offset : at_start.

Lemma at_start_filehandle : preserves at_start _filehandle.
Proof. unfold _filehandle. at_start_steps. Qed.
#[local] Hint Resolve at_start_filehandle : at_start.

Lemma at_start_filehandle_readline : preserves at_start _filehandle_readline.
Proof. unfold _filehandle_readline. at_start_steps. Qed.
#[local] Hint Resolve at_start_filehandle_readline : at_start.

Lemma at_start_reload : preserves at_start _reload.
Proof. unfold _reload. at_start_steps. Qed.
#[local] Hint Resolve at_start_reload : at_start.

Lemma at_start_check_rotate_truncate : preserves at_start _check_rotate_truncate.
Proof. unfold _check_rotate_truncate. at_start_steps. Qed.
#[local] Hint Resolve at_start_check_rotate_truncate : at_start.

Lemma at_start_update_offset_file : preserves at_start _update_offset_file.
Proof. unfold _update_offset_file. at_start_steps. Qed.
#[local] Hint Resolve at_start_update_offset_file : at_start.

Lemma at_start_fh_filename fh : preserves at_start (fh_filename fh).
Proof. unfold fh_filename. at_start_steps. Qed.
#[local] Hint Resolve at_start_fh_filename : at_start.

Lemma at_start_time_sleep d : preserves at_start (time_sleep d).
Proof. unfold time_sleep. at_start_steps. Qed.
#[local] Hint Resolve at_start_time_sleep : at_start.

Lemma at_start_wait_for_update fuel : preserves at_start (_wait_for_update fuel).
Proof. induction fuel as [|fuel IH]; cbn [_wait_for_update]; at_start_steps. Qed.
#[local] Hint Resolve at_start_wait_for_update : at_start.

Lemma at_start_get_next_line fuel : preserves at_start (_get_next_line fuel).
Proof. unfold _get_next_line. at_start_steps. Qed.
#[local] Hint Resolve at_start_get_next_line : at_start.

(** Once the offset is 0, a pull leaves it there, whatever its outcome. *)
Lemma at_start_next fuel : preserves at_start (next fuel).
Proof. unfold next. at_start_steps. Qed.

(** A pull whose first read finds nothing and whose detector reloads ends
    with the offset at 0, whatever its outcome. *)
Lemma next_reload_at_start fuel (w wl : World) (self : Pygtail) (h : Handle) :
  _fh self = Some h -> h_closed h = false ->
  _catching_up self = false ->
  line_at (content_of (w_fs w) (h_ino h)) (h_pos h) = EmptyString ->
  _check_rotate_truncate (w, self) = (Val tt, (wl, reloaded h self)) ->
  _get_next_line fuel (w, self) = _wait_for_update fuel (wl, reloaded h self)
  /\ at_start (snd (snd (next fuel (w, self)))).
Proof.
  intros Hfh Hc Hcu He Hd.
  assert (Hg : _get_next_line fuel (w, self) = _wait_for_update fuel (wl, reloaded h self))
    by exact (get_next_line_live_end fuel (w, self) (w, self) (wl, reloaded h self)
                (filehandle_readline_eof w self h Hfh Hc He) Hcu Hd).
  split; [exact Hg|].
  pose proof (at_start_wait_for_update fuel (wl, reloaded h self) eq_refl) as H1.
  rewrite <- Hg in H1.
  unfold next. rewrite bind_cases. unfold try_except.
  destruct (_get_next_line fuel (w, self)) as [[line|e|] st1]; cbn [fst snd] in *.
  - assert (T : preserves at_start
                  (self0 <- get_self ;;
                   (if paranoid self0 then _update_offset_file else ret tt) ;;
                   ret line)) by at_start_steps.
    exact (T st1 H1).
  - destruct e; cbn [on_StopIteration]; try exact H1.
    match goal with
    | |- context [match ?m st1 with _ => _ end] =>
        assert (K : preserves at_start m) by at_start_steps;
        pose proof (K st1 H1) as H2;
        destruct (m st1) as [[line|e|] st2]
    end; cbn [fst snd] in *; try exact H2.
    assert (T : preserves at_start
                  (self0 <- get_self ;;
                   (if paranoid self0 then _update_offset_file else ret tt) ;;
                   ret line)) by at_start_steps.
    exact (T st2 H2).
  - exact H1.
Qed.

(** The same pull when the wait is used up: it stops after the reload,
    without a poll, and the offset file is not written. *)
Lemma next_reload_no_wait fuel (w wl : World) (self : Pygtail) (h : Handle) :
  _fh self = Some h -> h_closed h = false ->
  _catching_up self = false ->
  line_at (content_of (w_fs w) (h_ino h)) (h_pos h) = EmptyString ->
  _check_rotate_truncate (w, self) = (Val tt, (wl, reloaded h self)) ->
  budget_left self = false ->
  next fuel (w, self)
  = (Raise StopIteration,
     (log DEBUG "StopIteration at the main file, exiting" wl, reloaded h self)).
Proof.
  intros Hfh Hc Hcu He Hd Hb.
  assert (Hg : _get_next_line fuel (w, self)
               = (Raise StopIteration, (wl, reloaded h self))).
  { rewrite (get_next_line_live_end fuel (w, self) (w, self) (wl, reloaded h self)
               (filehandle_readline_eof w self h Hfh Hc He) Hcu Hd).
    apply wait_for_update_exhausted. exact Hb. }
  destruct (next_live_stop fuel (w, self) (wl, reloaded h self) Hg Hcu)
    as (st2 & Hup & Hn); [left; reflexivity|].
  cbn [fst snd] in Hup. rewrite update_offset_file_skips in Hup by reflexivity.
  injection Hup as <-. exact Hn.
Qed.




(** The same with [wait_timeout] 0, which never waits. *)
Example truncation_found_with_no_wait :
  fst (next 100 (world_of fs_shrunk ten_thirty [], reader_at_end 0))
  = Raise StopIteration.
Proof. reflexivity. Qed.

(* ===================================================================== *)
(** * Paranoid mode *)
(* ===================================================================== *)

(** What [readline] returns are the bytes before the new position. *)
Lemma readline_just_read fs h line h' :
  readline fs h = (line, h') ->
  line_at (content_of fs (h_ino h')) (h_pos h' - Str.len line) = line
  /\ h_closed h' = h_closed h.
Proof.
  unfold readline. intros E. injection E as <- <-. cbn.
  split; [|reflexivity]. f_equal. lia.
Qed.

Lemma filehandle_readline_just_read st line st1 :
  _filehandle_readline st = (Val line, st1) -> just_read st1 line.
Proof.
  unfold _filehandle_readline. intros H.
  inv_bind H as fh stA E0. apply filehandle_val in E0. destruct E0 as [_ Hc].
  inv_bind H as w0 stB E1. inv_prim E1.
  destruct (readline (w_fs (fst stA)) fh) as [l fh'] eqn:R.
  inv_bind H as u stC E2. inv_prim E2. inv_prim H.
  destruct (readline_just_read _ _ _ _ R) as (Hl & Hcl).
  exists fh'. cbn. split; [reflexivity|]. split; [congruence | exact Hl].
Qed.

Lemma just_read_set_time_waited st line v :
  just_read st line -> just_read (fst st, set_time_waited v (snd st)) line.
Proof. intros (h & ? & ? & ?). exists h. cbn. auto. Qed.

(** A line returned by the wait loop has just been read. *)
Lemma wait_for_update_just_read fuel : forall st line st',
  _wait_for_update fuel st = (Val line, st') -> just_read st' line.
Proof.
  induction fuel as [|fuel IH]; intros st line st' H.
  - destruct (budget_left (snd st)) eqn:Hb.
    + rewrite (wait_for_update_no_fuel st Hb) in H. discriminate.
    + rewrite (wait_for_update_exhausted 0 st Hb) in H. discriminate.
  - destruct (budget_left (snd st)) eqn:Hb;
      [|rewrite (wait_for_update_exhausted _ st Hb) in H; discriminate].
    destruct (sleep_error (wait_step (snd st))) as [e0|] eqn:Hs;
      [rewrite (wait_for_update_sleep_error fuel st e0 Hb Hs) in H; discriminate|].
    rewrite (wait_for_update_turn fuel st Hb Hs) in H.
    destruct (poll st) as [[l|e|] st1] eqn:Hp; try discriminate.
    destruct (nonempty l) eqn:Hn.
    + injection H as <- <-. apply just_read_set_time_waited.
      apply (filehandle_readline_just_read _ _ _ Hp).
    + destruct (check_after_read _ _ _ Hp) as (st2 & Hc).
      unfold bind in H. rewrite Hc in H. exact (IH _ _ _ H).
Qed.

(** A line returned by [_get_next_line] has just been read. *)
Lemma get_next_line_just_read fuel st line st' :
  _get_next_line fuel st = (Val line, st') -> just_read st' line.
Proof.
  unfold _get_next_line. intros H.
  inv_bind H as l st1 E0.
  destruct (nonempty l) eqn:Hn.
  - inv_prim H. apply (filehandle_readline_just_read _ _ _ E0).
  - inv_bind H as self0 stA E1. inv_prim E1.
    destruct (_catching_up (snd st1)); [discriminate|].
    inv_bind H as u st2 E2.
    exact (wait_for_update_just_read _ _ _ _ H).
Qed.

Lemma try_except_val {A} (m : M A) h st a st' :
  try_except m h st = (Val a, st') ->
  m st = (Val a, st')
  \/ exists e st1 k, m st = (Raise e, st1) /\ h e = Some k /\ k st1 = (Val a, st').
Proof.
  unfold try_except. destruct (m st) as [[x|e|] st1]; intros H.
  - left. exact H.
  - destruct (h e) as [k|] eqn:Hh; [|discriminate].
    right. exists e, st1, k. auto.
  - discriminate.
Qed.

Lemma on_StopIteration_some {A} (k k' : M A) e :
  on_StopIteration k e = Some k' -> k' = k.
Proof. destruct e; cbn; intros H; try discriminate. injection H as <-. reflexivity. Qed.

(** A line returned by [next] comes from a [_get_next_line] that returned
    it, followed, in paranoid mode, by [_update_offset_file]. *)
Lemma on_StopIteration_exn {A} (k k' : M A) e :
  on_StopIteration k e = Some k' -> e = StopIteration.
Proof. destruct e; cbn; intros H; try discriminate. reflexivity. Qed.

(** A line that [next] returns is the line a call of [_get_next_line] has
    returned: the call [next] begins with or, when this one found the end
    of an archive while catching up, the call made after the move to the
    next file.  After it, [next] only writes the offset file, in paranoid
    mode. *)
Lemma next_val fuel st line st' :
  next fuel st = (Val line, st') ->
  exists st0 st1,
    _get_next_line fuel st0 = (Val line, st1)
    /\ same_config (snd st) (snd st1)
    /\ (if paranoid (snd st1) then _update_offset_file else ret tt) st1 = (Val tt, st')
    /\ (st0 = st
        \/ exists stA, _get_next_line fuel st = (Raise StopIteration, stA)
                       /\ _catching_up (snd stA) = true).
Proof.
  unfold next. intros H.
  inv_bind H as l stA E0.
  inv_bind H as self0 stB E1. inv_prim E1.
  inv_bind H as u stC E2. inv_prim H. destruct u.
  assert (G : exists st0, _get_next_line fuel st0 = (Val l, stA)
                          /\ same_config (snd st) (snd stA)
                          /\ (st0 = st
                              \/ exists stA0,
                                   _get_next_line fuel st = (Raise StopIteration, stA0)
                                   /\ _catching_up (snd stA0) = true)).
  { apply try_except_val in E0. destruct E0 as [E0|(e & st1 & k & E0 & Hh & Hk)].
    - exists st. split; [exact E0|]. split; [|left; reflexivity].
      pose proof (accumulates_get_next_line fuel st) as (C & _).
      rewrite E0 in C. exact C.
    - pose proof (on_StopIteration_exn _ _ _ Hh). subst e.
      apply on_StopIteration_some in Hh. subst k.
      pose proof (accumulates_get_next_line fuel st) as (C0 & _).
      rewrite E0 in C0. cbn [fst snd] in C0.
      inv_bind Hk as self1 stD E3. inv_prim E3.
      destruct (_catching_up (snd st1)) eqn:Hcu1.
      + inv_bind Hk as from stE E4.
        inv_bind Hk as u1 stF E5.
        inv_bind Hk as u2 stG E6.
        inv_bind Hk as u3 stH E7.
        pose proof (tame_fh_filename (_fh (snd st1)) st1) as ((C1 & _) & _).
        rewrite E4 in C1. cbn [fst snd] in C1.
        pose proof (tame_log DEBUG
                      ("Finished processing " +:+ from +:+ ", moving to "
                       +:+ match _rotated_logfiles (snd st1) with
                           | f :: _ => if nonempty f then f else filename (snd st1)
                           | [] => filename (snd st1)
                           end) stE) as ((C2 & _) & _).
        rewrite E5 in C2. cbn [fst snd] in C2.
        pose proof (tame_reload stF) as ((C3 & _) & _).
        rewrite E6 in C3. cbn [fst snd] in C3.
        inv_prim E7.
        apply try_except_val in Hk.
        destruct Hk as [Hk|(e' & st2 & k' & Hk & Hh' & Hk')].
        * eexists. split; [exact Hk|].
          split; [|right; exists st1; split; [exact E0 | exact Hcu1]].
          pose proof (accumulates_get_next_line fuel
                        (fst stG, set_catching_up
                                    match _rotated_logfiles (snd stG) with
                                    | [] => false | _ => true end (snd stG)))
            as (C4 & _).
          rewrite Hk in C4. cbn [fst snd] in C4.
          refine (same_config_trans _ _ _ C0
                    (same_config_trans _ _ _ C1
                       (same_config_trans _ _ _ C2
                          (same_config_trans _ _ _ C3 _)))).
          refine (same_config_trans _ _ _ _ C4). repeat split.
        * apply on_StopIteration_some in Hh'. subst k'.
          inv_bind Hk' as u4 stI E8. discriminate.
      + inv_bind Hk as u1 stE E4.
        inv_bind Hk as u2 stF E5. discriminate. }
  destruct G as (st0 & G & C & D). exists st0, stA. auto.
Qed.

Lemma read_write_file fs path data :
  read_file (write_file fs path data) path = Some data.
Proof.
  unfold read_file, write_file.
  destruct (paths fs !! path) as [ino|] eqn:E; cbn.
  - rewrite E. cbn. apply lookup_insert_eq.
  - rewrite lookup_insert_eq. cbn. apply lookup_insert_eq.
Qed.

(** With an open handle and the live path gone, the cursor cannot be
    written: [os.stat] raises. *)
Lemma update_offset_file_no_live_path (w : World) (self : Pygtail) h :
  _fh self = Some h -> h_closed h = false ->
  stat (w_fs w) (filename self) = None ->
  _update_offset_file (w, self) = (Raise OSError, (w, self)).
Proof.
  intros Hfh Hc Hs. unfold _update_offset_file.
  unfold bind at 1, get_self at 1. cbn [fst snd].
  unfold _is_closed. rewrite Hfh, Hc.
  unfold bind at 1. rewrite (filehandle_open w self h Hfh Hc).
  unfold bind at 1, get_world at 1. cbn [fst snd].
  unfold bind at 1. rewrite Hs. reflexivity.
Qed.

(** Writing a file leaves every path with the inode it has. *)
Lemma stat_write_file fs p q data ino size :
  stat fs p = Some (ino, size) ->
  exists size', stat (write_file fs q data) p = Some (ino, size').
Proof.
  unfold stat, write_file. intros H.
  destruct (paths fs !! p) as [i|] eqn:Ep; cbn in H; [|discriminate].
  destruct (inodes fs !! i) as [c|] eqn:Ei; cbn in H; [|discriminate].
  injection H as -> _.
  destruct (paths fs !! q) as [j|] eqn:Eq; cbn.
  - rewrite Ep. cbn. destruct (decide (j = ino)) as [->|Hne].
    + rewrite lookup_insert_eq. cbn. eauto.
    + rewrite lookup_insert_ne by exact Hne. rewrite Ei. cbn. eauto.
  - assert (Hpq : q <> p) by (intros ->; congruence).
    rewrite lookup_insert_ne by exact Hpq. rewrite Ep. cbn.
    destruct (decide (next_ino fs = ino)) as [E|Hne].
    + rewrite E, lookup_insert_eq. cbn. eauto.
    + rewrite lookup_insert_ne by exact Hne. rewrite Ei. cbn. eauto.
Qed.

(** In paranoid mode, a line that [next] returns has been read by the
    current handle, whose position is the byte after the line, and the
    offset file holds the inode of the live path, this position and the
    time: the world [w1] in which [_get_next_line] has returned the line
    is the one in which the cursor is written. *)
Lemma paranoid_persisted fuel st line st' :
  paranoid (snd st) = true ->
  next fuel st = (Val line, st') ->
  exists st0 w1 h ino size,
    _get_next_line fuel st0 = (Val line, (w1, snd st'))
    /\ (st0 = st
        \/ exists stA, _get_next_line fuel st = (Raise StopIteration, stA)
                       /\ _catching_up (snd stA) = true)
    /\ _fh (snd st') = Some h /\ h_closed h = false
    /\ line_at (content_of (w_fs w1) (h_ino h)) (h_pos h - Str.len line) = line
    /\ stat (w_fs w1) (filename (snd st)) = Some (ino, size)
    /\ _update_offset_file (w1, snd st') = (Val tt, st')
    /\ fst st' = set_fs w1 (write_file (w_fs w1) (_offset_file (snd st))
                              (cursor_text ino (h_pos h) (w_now w1)))
    /\ read_file (w_fs (fst st')) (_offset_file (snd st))
       = Some (cursor_text ino (h_pos h) (w_now w1)).
Proof.
  intros Hp H.
  destruct (next_val fuel st line st' H) as (st0 & [w1 s1] & G & C & U & D).
  destruct (get_next_line_just_read fuel st0 line _ G) as (h & Hfh & Hc & Hl).
  cbn [fst snd] in *.
  destruct C as (Cf & Cp & _ & _ & _ & Co & _).
  rewrite Cp, Hp in U.
  exists st0, w1, h.
  destruct (stat (w_fs w1) (filename s1)) as [[ino size]|] eqn:Hs.
  - pose proof U as U0.
    rewrite (update_offset_file_open w1 s1 h ino size Hfh Hc Hs) in U.
    injection U as <-. exists ino, size. cbn [fst snd] in *.
    rewrite <- Cf, <- Co.
    split; [exact G|]. split; [exact D|].
    split; [exact Hfh|]. split; [exact Hc|]. split; [exact Hl|].
    split; [exact Hs|]. split; [exact U0|]. split; [reflexivity|].
    apply read_write_file.
  - rewrite (update_offset_file_no_live_path w1 s1 h Hfh Hc Hs) in U. discriminate.
Qed.

(* ===================================================================== *)
(** * The offset file read back *)
(* ===================================================================== *)

Lemma append_cons x (a b : string) : String x a +:+ b = String x (a +:+ b).
Proof. reflexivity. Qed.

Lemma append_assoc (a b c : string) : (a +:+ b) +:+ c = a +:+ (b +:+ c).
Proof.
  induction a as [|x a IH]; [reflexivity|]. rewrite !append_cons, IH. reflexivity.
Qed.

Lemma append_empty_r (a : string) : a +:+ EmptyString = a.
Proof.
  induction a as [|x a IH]; [reflexivity|]. rewrite append_cons, IH. reflexivity.
Qed.

Lemma all_append p a b : Str.all p (a +:+ b) = (Str.all p a && Str.all p b)%bool.
Proof.
  induction a as [|x a IH]; [reflexivity|]. rewrite append_cons. cbn [Str.all].
  rewrite IH. apply andb_assoc.
Qed.

Lemma all_impl (p q : ascii -> bool) s :
  (forall c, p c = true -> q c = true) -> Str.all p s = true -> Str.all q s = true.
Proof.
  intros Hpq. induction s as [|x s IH]; cbn; [reflexivity|].
  rewrite !andb_true_iff. intros [Hx Hs]. auto.
Qed.

Lemma digit_or_minus_plain c : digit_or_minus c = true -> plain c = true.
Proof.
  destruct c as [[] [] [] [] [] [] [] []]; vm_compute; congruence.
Qed.

Lemma is_digit_plain c : Str.is_digit c = true -> plain c = true.
Proof.
  intros H. apply digit_or_minus_plain. unfold digit_or_minus. rewrite H. reflexivity.
Qed.

Lemma plain_not_space c : plain c = true -> Str.is_space c = false.
Proof. unfold plain. rewrite andb_true_iff, !negb_true_iff. tauto. Qed.

Lemma plain_not_nl c : plain c = true -> Ascii.eqb c Str.nl_char = false.
Proof.
  intros H. destruct (Ascii.eqb_spec c Str.nl_char) as [->|]; [|reflexivity].
  vm_compute in H. discriminate.
Qed.

(** The lines of a text that starts with a line of plain characters. *)
Lemma lines_acc_plain a : forall cur rest,
  Str.all plain a = true ->
  Str.lines_acc cur (a +:+ Str.nl +:+ rest)
  = (cur +:+ a +:+ Str.nl) :: Str.lines_acc EmptyString rest.
Proof.
  induction a as [|x a IH]; intros cur rest Ha.
  - reflexivity.
  - cbn in Ha. apply andb_true_iff in Ha. destruct Ha as [Hx Ha].
    rewrite append_cons. cbn [Str.lines_acc]. rewrite (plain_not_nl x Hx).
    rewrite (IH _ _ Ha). rewrite append_assoc. reflexivity.
Qed.

(** Stripping a line of plain characters leaves the characters. *)
Lemma rstrip_plain a :
  Str.all plain a = true -> Str.rstrip (a +:+ Str.nl) = a.
Proof.
  induction a as [|x a IH]; intros Ha.
  - reflexivity.
  - cbn in Ha. apply andb_true_iff in Ha. destruct Ha as [Hx Ha].
    rewrite append_cons. cbn [Str.rstrip]. rewrite (IH Ha), (plain_not_space x Hx).
    destruct a; reflexivity.
Qed.

Lemma strip_plain a : Str.all plain a = true -> Str.strip (a +:+ Str.nl) = a.
Proof.
  intros Ha. unfold Str.strip. destruct a as [|x a].
  - reflexivity.
  - assert (Hx : Str.is_space x = false).
    { cbn in Ha. apply andb_true_iff in Ha. apply plain_not_space, Ha. }
    rewrite append_cons. cbn [Str.lstrip]. rewrite Hx.
    rewrite <- append_cons. apply (rstrip_plain (String x a) Ha).
Qed.

(** The fields of a cursor text made of plain characters. *)
Lemma cursor_fields a b c :
  Str.all plain a = true -> Str.all plain b = true -> Str.all plain c = true ->
  map Str.strip (Str.lines (a +:+ Str.nl +:+ b +:+ Str.nl +:+ c +:+ Str.nl))
  = [a; b; c].
Proof.
  intros Ha Hb Hc. unfold Str.lines.
  rewrite (lines_acc_plain a _ _ Ha), (lines_acc_plain b _ _ Hb).
  replace (c +:+ Str.nl) with (c +:+ Str.nl +:+ EmptyString)
    by (rewrite append_empty_r; reflexivity).
  rewrite (lines_acc_plain c _ _ Hc).
  change (Str.lines_acc EmptyString EmptyString) with (@nil string).
  cbn [map].
  change (EmptyString +:+ a +:+ Str.nl) with (a +:+ Str.nl).
  change (EmptyString +:+ b +:+ Str.nl) with (b +:+ Str.nl).
  change (EmptyString +:+ c +:+ Str.nl) with (c +:+ Str.nl).
  rewrite (strip_plain a Ha), (strip_plain b Hb), (strip_plain c Hc). reflexivity.
Qed.

(** Integers: [int(str(z))] is [z], and [str(z)] is made of digits and a
    minus sign. *)
Lemma string_of_uint_digits d : Str.all Str.is_digit (NilEmpty.string_of_uint d) = true.
Proof. induction d; cbn; auto. Qed.

Lemma of_Z_digit_or_minus z : Str.all digit_or_minus (Str.of_Z z) = true.
Proof.
  assert (U : forall d, Str.all digit_or_minus (NilZero.string_of_uint d) = true).
  { intros d. unfold NilZero.string_of_uint.
    destruct d; try reflexivity;
      apply (all_impl Str.is_digit);
      try apply string_of_uint_digits;
      intros c Hc; unfold digit_or_minus; rewrite Hc; reflexivity. }
  unfold Str.of_Z. destruct (Z.to_int z); cbn; [apply U|]. apply U.
Qed.

Lemma of_Z_plain z : Str.all plain (Str.of_Z z) = true.
Proof.
  apply (all_impl digit_or_minus); [apply digit_or_minus_plain | apply of_Z_digit_or_minus].
Qed.

Lemma py_int_of_Z z : Str.py_int (Str.of_Z z) = Some z.
Proof.
  unfold Str.py_int. pose proof (of_Z_plain z) as Hp.
  assert (Hi : NilZero.int_of_string (Str.of_Z z) = Some (Z.to_int z)).
  { unfold Str.of_Z. apply NilZero.isi.
    - destruct z; cbn; try discriminate.
      intros E. injection E as E. apply (Unsigned.to_uint_nonnil _ E).
    - destruct z; cbn; try discriminate.
      intros E. injection E as E. apply (Unsigned.to_uint_nonnil _ E). }
  destruct (Str.of_Z z) as [|c r] eqn:E.
  - cbn in Hi. discriminate.
  - cbn in Hp. apply andb_true_iff in Hp. destruct Hp as [Hc _].
    unfold plain in Hc. apply andb_true_iff in Hc. destruct Hc as [_ Hc].
    apply negb_true_iff in Hc. rewrite Hc, Hi. cbn.
    rewrite DecimalZ.of_to. reflexivity.
Qed.

(** Decimal fields of a fixed width. *)
Lemma digit_value n : Z.of_nat (nat_of_ascii (Str.digit n)) - 48 = n mod 10.
Proof.
  unfold Str.digit. pose proof (Z.mod_pos_bound n 10 ltac:(lia)) as B.
  rewrite nat_ascii_embedding by lia. lia.
Qed.

Lemma digit_is_digit n : Str.is_digit (Str.digit n) = true.
Proof.
  unfold Str.is_digit. pose proof (digit_value n) as V.
  pose proof (Z.mod_pos_bound n 10 ltac:(lia)) as B.
  apply andb_true_iff. split; apply Nat.leb_le; lia.
Qed.

Lemma padded_digits w : forall n, Str.all Str.is_digit (Str.padded w n) = true.
Proof.
  induction w as [|w IH]; intros n; [reflexivity|].
  cbn [Str.padded]. rewrite all_append, IH. cbn. rewrite digit_is_digit. reflexivity.
Qed.

Lemma length_append (a b : string) :
  String.length (a +:+ b) = (String.length a + String.length b)%nat.
Proof.
  induction a as [|x a IH]; [reflexivity|]. rewrite append_cons. cbn. rewrite IH.
  reflexivity.
Qed.

Lemma padded_length w : forall n, String.length (Str.padded w n) = w.
Proof.
  induction w as [|w IH]; intros n; [reflexivity|].
  cbn [Str.padded]. rewrite length_append, IH. cbn. lia.
Qed.

Lemma digits_value_snoc s : forall acc c,
  Str.digits_value acc (s +:+ String c EmptyString)
  = 10 * Str.digits_value acc s + (Z.of_nat (nat_of_ascii c) - 48).
Proof.
  induction s as [|x s IH]; intros acc c; [reflexivity|].
  rewrite append_cons. cbn [Str.digits_value]. apply IH.
Qed.

Lemma padded_value w : forall n,
  0 <= n -> Str.digits_value 0 (Str.padded w n) = n mod 10 ^ Z.of_nat w.
Proof.
  induction w as [|w IH]; intros n Hn.
  - cbn. rewrite Z.mod_1_r. reflexivity.
  - cbn [Str.padded]. rewrite digits_value_snoc, digit_value.
    rewrite IH by (apply Z.div_pos; lia).
    rewrite Nat2Z.inj_succ, Z.pow_succ_r by lia.
    rewrite (Z.rem_mul_r n 10 (10 ^ Z.of_nat w)) by lia. lia.
Qed.

Lemma span_digits_append d : forall rest,
  Str.all Str.is_digit d = true -> no_digit_ahead rest = true ->
  Str.span_digits (d +:+ rest) = (d, rest).
Proof.
  induction d as [|x d IH]; intros rest Hd Hr.
  - destruct rest as [|c r]; [reflexivity|].
    cbn [no_digit_ahead] in Hr. apply negb_true_iff in Hr.
    change (EmptyString +:+ String c r) with (String c r).
    cbn [Str.span_digits]. rewrite Hr. reflexivity.
  - cbn [Str.all] in Hd. apply andb_true_iff in Hd. destruct Hd as [Hx Hd].
    rewrite append_cons. cbn [Str.span_digits]. rewrite Hx, (IH rest Hd Hr).
    reflexivity.
Qed.

(** A field written with [w] digits is read back. *)
Lemma field_padded lo hi w n rest :
  (lo <= w <= hi)%nat -> 0 <= n < 10 ^ Z.of_nat w ->
  no_digit_ahead rest = true ->
  Calendar.field lo hi (Str.padded w n +:+ rest) = Some (n, w, rest).
Proof.
  intros Hw Hn Hr. unfold Calendar.field.
  rewrite (span_digits_append _ _ (padded_digits w n) Hr).
  rewrite padded_length, padded_value by lia.
  rewrite Z.mod_small by lia.
  assert (E : (Nat.leb lo w && Nat.leb w hi)%bool = true)
    by (apply andb_true_iff; split; apply Nat.leb_le; lia).
  rewrite E. reflexivity.
Qed.

(** The calendar, one cycle of 400 years checked day by day. *)
Lemma all_from_spec p n : forall i,
  all_from p i n = true -> forall r, i <= r < i + Z.of_nat n -> p r = true.
Proof.
  induction n as [|n IH]; intros i H r Hr; [lia|].
  cbn [all_from] in H. apply andb_true_iff in H. destruct H as [Hi H].
  destruct (Z.eq_dec r i) as [->|Hne]; [exact Hi|].
  apply (IH (i + 1) H). lia.
Qed.

Lemma era_days_ok : all_from era_day_ok 0 (Z.to_nat 146097) = true.
Proof. vm_cast_no_check (@eq_refl bool true). Qed.

Lemma days_before_year_era q y :
  Calendar.days_before_year (400 * q + y) = 146097 * q + Calendar.days_before_year y.
Proof.
  unfold Calendar.days_before_year. cbn zeta.
  replace (400 * q + y - 1) with (y - 1 + (100 * q) * 4) at 2 by lia.
  replace (400 * q + y - 1) with (y - 1 + (4 * q) * 100) at 2 by lia.
  replace (400 * q + y - 1) with (y - 1 + q * 400) at 2 by lia.
  rewrite !Z.div_add by lia. lia.
Qed.

Lemma is_leap_era q y : Calendar.is_leap (400 * q + y) = Calendar.is_leap y.
Proof.
  unfold Calendar.is_leap.
  replace (400 * q + y) with (y + (100 * q) * 4) at 1 by lia.
  replace (400 * q + y) with (y + (4 * q) * 100) at 1 by lia.
  replace (400 * q + y) with (y + q * 400) at 1 by lia.
  rewrite !Z.mod_add by lia. reflexivity.
Qed.

Lemma ord2ymd_era q r :
  0 <= r < 146097 ->
  Calendar.ord2ymd (146097 * q + r + 1)
  = let '(y, m, d) := Calendar.ord2ymd (r + 1) in (400 * q + y, m, d).
Proof.
  intros Hr. unfold Calendar.ord2ymd. cbn zeta. unfold Calendar.DI400Y.
  replace (146097 * q + r + 1 - 1) with (r + q * 146097) by lia.
  replace (r + 1 - 1) with r by lia.
  rewrite Z.div_add, Z.mod_add by lia.
  rewrite (Z.div_small r 146097), (Z.mod_small r 146097) by lia.
  set (n100 := r / Calendar.DI100Y).
  set (na := r mod Calendar.DI100Y).
  set (n4 := na / Calendar.DI4Y).
  set (nb := na mod Calendar.DI4Y).
  set (n1 := nb / 365).
  set (n := nb mod 365).
  destruct ((n1 =? 4) || (n100 =? 4))%bool; [f_equal; f_equal; lia|].
  destruct (n <? _); f_equal; f_equal; lia.
Qed.

Lemma days_before_month_nonneg y m : 0 <= Calendar.days_before_month y m.
Proof.
  unfold Calendar.days_before_month, Calendar.DAYS_BEFORE_MONTH.
  destruct ((2 <? m) && Calendar.is_leap y)%bool;
    destruct m as [|p|p]; try lia;
    repeat (destruct p as [p|p|]; try lia).
Qed.

(** Every day of the years 1 to 9999 has a date, and the date leads back
    to the day. *)
Lemma ord2ymd_valid D :
  0 <= D < Calendar.days_before_year 10000 ->
  let '(y, m, d) := Calendar.ord2ymd (D + 1) in
  1 <= y <= 9999 /\ 1 <= m <= 12 /\ 1 <= d <= Calendar.days_in_month y m
  /\ Calendar.ymd2ord y m d = D + 1.
Proof.
  intros HD.
  change (Calendar.days_before_year 10000) with 3652059 in HD.
  pose proof (Z.div_mod D 146097 ltac:(lia)) as Hdm.
  pose proof (Z.mod_pos_bound D 146097 ltac:(lia)) as Hr.
  set (q := D / 146097) in *. set (r := D mod 146097) in *.
  assert (Hq : 0 <= q <= 24) by lia.
  replace (D + 1) with (146097 * q + r + 1) by lia.
  rewrite (ord2ymd_era q r Hr).
  pose proof (all_from_spec era_day_ok _ 0 era_days_ok r ltac:(lia)) as Hok.
  unfold era_day_ok in Hok.
  destruct (Calendar.ord2ymd (r + 1)) as [[y0 m] d].
  repeat (apply andb_true_iff in Hok; destruct Hok as [Hok ?]).
  repeat match goal with
         | H : (_ <=? _) = true |- _ => apply Z.leb_le in H
         | H : (_ =? _) = true |- _ => apply Z.eqb_eq in H
         end.
  assert (Hord : Calendar.ymd2ord (400 * q + y0) m d = 146097 * q + r + 1).
  { unfold Calendar.ymd2ord, Calendar.days_before_month in *.
    rewrite days_before_year_era, is_leap_era. lia. }
  assert (Hdim : Calendar.days_in_month (400 * q + y0) m = Calendar.days_in_month y0 m).
  { unfold Calendar.days_in_month. rewrite is_leap_era. reflexivity. }
  rewrite Hdim.
  split; [|split; [lia|split; [lia|exact Hord]]].
  split; [lia|].
  destruct (Z.eq_dec y0 400) as [->|Hne]; [|lia].
  destruct (Z.eq_dec q 24) as [->|Hq24]; [|lia].
  exfalso.
  pose proof (days_before_month_nonneg 400 m) as Hm.
  unfold Calendar.ymd2ord in *.
  change (Calendar.days_before_year 400) with 145731 in *. lia.
Qed.

(** The time of day, split into its fields and put together again. *)
Lemma time_of_day_fields r :
  0 <= r < Calendar.us_per_day ->
  let hh := r / Calendar.us_per_hour in
  let mm := (r / (60 * Calendar.us_per_second)) mod 60 in
  let ss := (r / Calendar.us_per_second) mod 60 in
  let us := r mod Calendar.us_per_second in
  0 <= hh <= 23 /\ 0 <= mm <= 59 /\ 0 <= ss <= 59 /\ 0 <= us < 1000000
  /\ ((hh * 60 + mm) * 60 + ss) * Calendar.us_per_second + us = r.
Proof.
  unfold Calendar.us_per_day, Calendar.us_per_hour, Calendar.us_per_second.
  intros Hr. cbn zeta.
  pose proof (Z.div_mod r 1000000 ltac:(lia)) as E1.
  pose proof (Z.mod_pos_bound r 1000000 ltac:(lia)) as B1.
  pose proof (Z.div_mod (r / 1000000) 60 ltac:(lia)) as E2.
  pose proof (Z.mod_pos_bound (r / 1000000) 60 ltac:(lia)) as B2.
  pose proof (Z.div_mod (r / 1000000 / 60) 60 ltac:(lia)) as E3.
  pose proof (Z.mod_pos_bound (r / 1000000 / 60) 60 ltac:(lia)) as B3.
  rewrite (Z.div_div r 1000000 60) in E2, E3, B3 by lia.
  rewrite (Z.div_div r (1000000 * 60) 60) in E3 by lia.
  replace (60 * 1000000) with (1000000 * 60) by lia.
  replace (3600 * 1000000) with (1000000 * 60 * 60) by lia.
  set (a := r / (1000000 * 60 * 60)) in *.
  set (b := r / (1000000 * 60)) in *.
  set (c := r / 1000000) in *.
  assert (0 <= a) by (apply Z.div_pos; lia).
  lia.
Qed.

Lemma literal_here c c' r : Calendar.literal c c' (String c r) = Some r.
Proof. unfold Calendar.literal. rewrite Ascii.eqb_refl. reflexivity. Qed.

Lemma append_char c (s : string) : String c EmptyString +:+ s = String c s.
Proof. reflexivity. Qed.

(** [strptime] reads back what [strftime] has written. *)
Lemma strptime_strftime t :
  0 <= t < datetime_end ->
  Calendar.strptime_dt (Calendar.strftime_dt t) = Some t.
Proof.
  intros Ht. unfold datetime_end in Ht.
  assert (Hday : 0 < Calendar.us_per_day) by reflexivity.
  pose proof (Z.div_mod t Calendar.us_per_day ltac:(lia)) as Hdm.
  pose proof (Z.mod_pos_bound t Calendar.us_per_day Hday) as Hr.
  assert (HD : 0 <= t / Calendar.us_per_day < Calendar.days_before_year 10000).
  { split; [apply Z.div_pos; lia|]. apply Z.div_lt_upper_bound; lia. }
  pose proof (ord2ymd_valid _ HD) as Hv.
  pose proof (time_of_day_fields _ Hr) as Hf. cbn zeta in Hf.
  unfold Calendar.strftime_dt.
  destruct (Calendar.ord2ymd (t / Calendar.us_per_day + 1)) as [[y m] d].
  destruct Hv as (Hy & Hm & Hd & Hord).
  destruct Hf as (Hhh & Hmm & Hss & Hus & Hsum).
  set (r := t mod Calendar.us_per_day) in *.
  unfold Calendar.strptime_dt.
  rewrite !append_char.
  rewrite <- (append_empty_r (Str.padded 6 _)).
  assert (Hd31 : Calendar.days_in_month y m <= 31).
  { unfold Calendar.days_in_month, Calendar.DAYS_IN_MONTH.
    destruct ((m =? 2) && Calendar.is_leap y)%bool; [lia|].
    destruct m as [|p|p]; try lia; repeat (destruct p as [p|p|]; try lia). }
  rewrite (field_padded 4 4 4 y) by (cbn; try lia; reflexivity).
  cbn [mbind option_bind]. rewrite literal_here. cbn [mbind option_bind].
  rewrite (field_padded 1 2 2 m) by (cbn; try lia; reflexivity).
  cbn [mbind option_bind]. rewrite literal_here. cbn [mbind option_bind].
  rewrite (field_padded 1 2 2 d) by (cbn; try lia; reflexivity).
  cbn [mbind option_bind]. rewrite literal_here. cbn [mbind option_bind].
  rewrite (field_padded 1 2 2 (r / Calendar.us_per_hour))
    by (cbn; try lia; reflexivity).
  cbn [mbind option_bind]. rewrite literal_here. cbn [mbind option_bind].
  rewrite (field_padded 1 2 2 ((r / (60 * Calendar.us_per_second)) mod 60))
    by (cbn; try lia; reflexivity).
  cbn [mbind option_bind]. rewrite literal_here. cbn [mbind option_bind].
  rewrite (field_padded 1 2 2 ((r / Calendar.us_per_second) mod 60))
    by (cbn; try lia; reflexivity).
  cbn [mbind option_bind]. rewrite literal_here. cbn [mbind option_bind].
  rewrite (field_padded 1 6 6 (r mod Calendar.us_per_second))
    by (cbn; try lia; reflexivity).
  cbn [mbind option_bind].
  assert (Hrange :
    (Calendar.in_range 1 9999 y && Calendar.in_range 1 12 m
     && Calendar.in_range 1 (Calendar.days_in_month y m) d
     && Calendar.in_range 0 23 (r / Calendar.us_per_hour)
     && Calendar.in_range 0 59 ((r / (60 * Calendar.us_per_second)) mod 60)
     && Calendar.in_range 0 59 ((r / Calendar.us_per_second) mod 60))%bool = true).
  { unfold Calendar.in_range.
    repeat (apply andb_true_iff; split); apply Z.leb_le; lia. }
  rewrite Hrange. f_equal.
  unfold Calendar.of_fields. rewrite Hord.
  change (10 ^ Z.of_nat (6 - 6)) with 1.
  unfold Calendar.us_per_day, Calendar.us_per_hour, Calendar.us_per_second in *.
  lia.
Qed.

Lemma plain_chars_append (a b : string) :
  Str.all plain a = true -> Str.all plain b = true -> Str.all plain (a +:+ b) = true.
Proof. intros Ha Hb. rewrite all_append, Ha, Hb. reflexivity. Qed.

Lemma padded_plain w n : Str.all plain (Str.padded w n) = true.
Proof. apply (all_impl Str.is_digit); [apply is_digit_plain | apply padded_digits]. Qed.

Lemma strftime_plain t : Str.all plain (Calendar.strftime_dt t) = true.
Proof.
  unfold Calendar.strftime_dt.
  destruct (Calendar.ord2ymd (t / Calendar.us_per_day + 1)) as [[y m] d].
  repeat (apply plain_chars_append; [first [apply padded_plain | reflexivity]|]).
  apply padded_plain.
Qed.

(** The text [_update_offset_file] writes is read back field by field. *)
Lemma cursor_text_fields inode offset now :
  map Str.strip (Str.lines (cursor_text inode offset now))
  = [Str.of_Z inode; Str.of_Z offset; Calendar.strftime_dt now].
Proof.
  unfold cursor_text.
  apply cursor_fields; [apply of_Z_plain | apply of_Z_plain | apply strftime_plain].
Qed.

Lemma cursor_text_not_empty inode offset now :
  Str.len (cursor_text inode offset now) <> 0.
Proof.
  unfold cursor_text, Str.len. rewrite !length_append. cbn. lia.
Qed.

(** Loading the offset file that [_update_offset_file] has written gives
    the cursor back. *)
Lemma parse_persisted (w : World) (self : Pygtail) inode offset now :
  read_file (w_fs w) (_offset_file self) = Some (cursor_text inode offset now) ->
  0 <= now < datetime_end ->
  _parse_offset_file (w, self) = (Val tt, (w, loaded inode offset now self)).
Proof.
  intros Hrd Hnow.
  assert (Hst : exists ino, stat (w_fs w) (_offset_file self)
                            = Some (ino, Str.len (cursor_text inode offset now))).
  { unfold read_file in Hrd. unfold stat.
    destruct (paths (w_fs w) !! _offset_file self) as [ino|]; [|discriminate].
    cbn in *. rewrite Hrd. cbn. eauto. }
  destruct Hst as (ino & Hst).
  assert (Hdata : offset_data w self
                   = [Str.of_Z inode; Str.of_Z offset; Calendar.strftime_dt now]).
  { unfold offset_data. rewrite Hrd. exact (cursor_text_fields inode offset now). }
  rewrite parse_offset_file_present.
  - rewrite Hdata. cbn [lookup list_lookup].
    unfold bind at 1. cbn [or_raise ret].
    unfold bind at 1. rewrite py_int_of_Z. cbn [or_raise ret].
    unfold bind at 1, modify_self at 1. cbn [fst snd].
    unfold bind at 1. cbn [or_raise ret].
    unfold bind at 1. rewrite py_int_of_Z. cbn [or_raise ret].
    unfold bind at 1, modify_self at 1. cbn [fst snd].
    unfold bind at 1. cbn [or_raise ret].
    unfold bind at 1. rewrite (strptime_strftime now Hnow). reflexivity.
  - unfold exists_. rewrite Hst. reflexivity.
  - unfold getsize. rewrite Hst. apply cursor_text_not_empty.
Qed.



(** A paranoid reader returns the line [a] and is killed; the reader that
    starts afterwards begins with the line [b]. *)
Example paranoid_restart :
  let r1 := next 1 paranoid_start in
  let '(s2, w2) := __init__ "log" None true true 0.5%float 20%float None (fst (snd r1)) in
  fst r1 = Val (Str.unlines ["a"])
  /\ read_file (w_fs (fst (snd r1))) "log.offset"
     = Some (Str.unlines ["1"; "2"; "2020-01-01T10:30:00.000000"])
  /\ match s2 with
     | Val self2 =>
         _offset self2 = Some 2
         /\ fst (next 1 (w2, self2)) = Val (Str.unlines ["b"])
     | _ => False
     end.
Proof. vm_compute. repeat split. Qed.

(* ===================================================================== *)
(** * Further properties of the locator and of the detector *)
(* ===================================================================== *)

Lemma archives_from_exist fs self H0 n :
  Forall (fun f => exists_ fs f = true) (archives_from fs self H0 n).
Proof.
  unfold archives_from. apply List.Forall_forall. intros f Hin.
  apply List.filter_In in Hin. apply Hin.
Qed.

(** X1.  With [_last_log] set, [_determine_rotated_logfiles] does not
    fail.  It returns, oldest first, the archive names of the hours from
    the hour of the last read up to, but without, the current hour that
    exist on disk, and only names that exist; when the current hour is not
    later than the hour of the last read (same hour, or a clock set back)
    it returns the empty list. *)
Theorem determine_rotated_logfiles_hours (w : World) (self : Pygtail)
    (last_log : Calendar.datetime) :
  _last_log self = Some last_log ->
  exists l,
    _determine_rotated_logfiles w self = Val l
    /\ l = archives_from (w_fs w) self (Calendar.floor_hour last_log)
             (Z.to_nat (w_now w / Calendar.us_per_hour
                        - last_log / Calendar.us_per_hour))
    /\ Forall (fun f => exists_ (w_fs w) f = true) l
    /\ (w_now w / Calendar.us_per_hour <= last_log / Calendar.us_per_hour -> l = []).
Proof.
  intros Hl. eexists. split; [apply (determine_rotated_logfiles_spec w self last_log Hl)|].
  split; [reflexivity|]. split; [apply archives_from_exist|].
  intros Hle.
  replace (Z.to_nat (w_now w / Calendar.us_per_hour - last_log / Calendar.us_per_hour))
    with 0%nat by lia.
  reflexivity.
Qed.

Lemma determine_rotated_logfiles_hours_witness :
  exists l,
    _determine_rotated_logfiles world_1305 reader_1030 = Val l
    /\ l = archives_from (w_fs world_1305) reader_1030 (Calendar.floor_hour ten_thirty)
             (Z.to_nat (w_now world_1305 / Calendar.us_per_hour
                        - ten_thirty / Calendar.us_per_hour))
    /\ Forall (fun f => exists_ (w_fs world_1305) f = true) l
    /\ (w_now world_1305 / Calendar.us_per_hour <= ten_thirty / Calendar.us_per_hour
        -> l = []).
Proof.
  apply (determine_rotated_logfiles_hours world_1305 reader_1030 ten_thirty).
  reflexivity.
Defined.

(** X2.  With an open handle, [_check_rotate_truncate] never raises.  It
    closes the handle and resets the offset to 0 exactly when the handle is
    stale (the live path is gone, or names another inode, or, with
    copytruncate, the file is shorter than the read position); otherwise it
    changes nothing, not even the log.  It never changes the file
    system. *)
Theorem check_rotate_truncate_reloads_iff_stale
    (w : World) (self : Pygtail) (h : Handle) :
  _fh self = Some h -> h_closed h = false ->
  exists w',
    _check_rotate_truncate (w, self)
    = (Val tt, (w', if stale w self h then reloaded h self else self))
    /\ w_fs w' = w_fs w
    /\ (stale w self h = false -> w' = w).
Proof.
  intros Hfh Hc. unfold stale.
  destruct (stat (w_fs w) (filename self)) as [[ino size]|] eqn:Hs.
  - destruct (Z.eqb_spec (h_ino h) ino) as [E|Hne].
    + subst ino. cbn [negb orb].
      destruct (copytruncate self && (size <? h_pos h))%bool eqn:Hb.
      * apply andb_true_iff in Hb. destruct Hb as [Hct Hlt]. apply Z.ltb_lt in Hlt.
        eexists. split; [apply (check_truncated w self h Hfh Hc size Hs Hct Hlt)|].
        split; [reflexivity | discriminate].
      * exists w. split; [|split; [reflexivity | reflexivity]].
        apply (check_unchanged w self h Hfh Hc size Hs).
        apply andb_false_iff in Hb. destruct Hb as [Hb|Hb]; [left; exact Hb|].
        right. apply Z.ltb_ge in Hb. exact Hb.
    + cbn [negb orb]. eexists.
      split; [apply (check_rotated w self h Hfh Hc ino size Hs); congruence|].
      split; [|discriminate].
      destruct (copytruncate self && (size <? h_pos h))%bool; reflexivity.
  - eexists. split; [apply (check_moved w self h Hfh Hc Hs)|].
    split; [reflexivity | discriminate].
Qed.

Lemma check_rotate_truncate_reloads_iff_stale_witness :
  exists w',
    _check_rotate_truncate (world_of fs_rotated ten_thirty [], reader_at_end 20)
    = (Val tt,
       (w', if stale (world_of fs_rotated ten_thirty []) (reader_at_end 20) (log_handle 1 4)
            then reloaded (log_handle 1 4) (reader_at_end 20) else reader_at_end 20))
    /\ w_fs w' = w_fs (world_of fs_rotated ten_thirty [])
    /\ (stale (world_of fs_rotated ten_thirty []) (reader_at_end 20) (log_handle 1 4) = false
        -> w' = world_of fs_rotated ten_thirty []).
Proof.
  apply (check_rotate_truncate_reloads_iff_stale
           (world_of fs_rotated ten_thirty []) (reader_at_end 20) (log_handle 1 4));
    reflexivity.
Defined.

(* ===================================================================== *)
(** * Further properties of a pull *)
(* ===================================================================== *)

Lemma readline_advanced fs h :
  readline fs h
  = (line_at (content_of fs (h_ino h)) (h_pos h),
     advanced h (line_at (content_of fs (h_ino h)) (h_pos h))).
Proof. reflexivity. Qed.

(** Reading a line that is there, through the open handle. *)
Lemma get_next_line_unread fuel (w : World) (self : Pygtail) (h : Handle) :
  _fh self = Some h -> h_closed h = false ->
  0 <= h_pos h < Str.len (content_of (w_fs w) (h_ino h)) ->
  let line := line_at (content_of (w_fs w) (h_ino h)) (h_pos h) in
  line <> EmptyString
  /\ _get_next_line fuel (w, self)
     = (Val line, (w, set_fh (Some (advanced h line)) self)).
Proof.
  intros Hfh Hc Hpos line.
  assert (Hl : line <> EmptyString) by (apply line_at_inside; exact Hpos).
  split; [exact Hl|].
  apply get_next_line_line; [|exact Hl].
  rewrite (filehandle_readline_open w self h Hfh Hc), readline_advanced.
  reflexivity.
Qed.

(** X3.  When the open handle has unread data and the reader is not
    paranoid, a pull returns the next line of the handle's file, whatever
    the fuel; it moves the handle past this line and does nothing else: it
    does not sleep, log, look at the live path or write the offset file
    (the world is the same), and no other field of the object changes. *)
Theorem next_returns_unread_line fuel (w : World) (self : Pygtail) (h : Handle) :
  _fh self = Some h -> h_closed h = false ->
  paranoid self = false ->
  0 <= h_pos h < Str.len (content_of (w_fs w) (h_ino h)) ->
  let line := line_at (content_of (w_fs w) (h_ino h)) (h_pos h) in
  line <> EmptyString
  /\ next fuel (w, self) = (Val line, (w, set_fh (Some (advanced h line)) self)).
Proof.
  intros Hfh Hc Hp Hpos line.
  destruct (get_next_line_unread fuel w self h Hfh Hc Hpos) as [Hl Hg].
  split; [exact Hl|].
  rewrite (next_line fuel _ _ _ Hg). cbn [snd].
  change (paranoid (set_fh (Some (advanced h (line_at (content_of (w_fs w) (h_ino h)) (h_pos h)))) self))
    with (paranoid self).
  rewrite Hp. reflexivity.
Qed.

Lemma next_returns_unread_line_witness :
  let w := world_of fs_ab ten_thirty [] in
  let self := reader false true 20 0 (Some (log_handle 1 2)) in
  let line := line_at (content_of (w_fs w) 1) 2 in
  line <> EmptyString
  /\ next 0 (w, self) = (Val line, (w, set_fh (Some (advanced (log_handle 1 2) line)) self)).
Proof.
  apply (next_returns_unread_line 0 (world_of fs_ab ten_thirty [])
           (reader false true 20 0 (Some (log_handle 1 2))) (log_handle 1 2));
    [reflexivity | reflexivity | reflexivity | split; [discriminate | reflexivity]].
Defined.

(** X4.  In paranoid mode, when the handle has unread data but the live
    path does not exist (the file was moved away and nothing has taken its
    place), a pull raises [OSError] from [os.stat] in
    [_update_offset_file]; the line has been read, so that the handle
    stands past it: the caller does not get this line, and the next pull
    goes on after it. *)
Theorem next_paranoid_live_path_gone fuel (w : World) (self : Pygtail) (h : Handle) :
  _fh self = Some h -> h_closed h = false ->
  paranoid self = true ->
  0 <= h_pos h < Str.len (content_of (w_fs w) (h_ino h)) ->
  exists_ (w_fs w) (filename self) = false ->
  let line := line_at (content_of (w_fs w) (h_ino h)) (h_pos h) in
  line <> EmptyString
  /\ next fuel (w, self) = (Raise OSError, (w, set_fh (Some (advanced h line)) self)).
Proof.
  intros Hfh Hc Hp Hpos Hex line.
  destruct (get_next_line_unread fuel w self h Hfh Hc Hpos) as [Hl Hg].
  split; [exact Hl|].
  rewrite (next_line fuel _ _ _ Hg). cbn [snd].
  change (paranoid (set_fh (Some (advanced h (line_at (content_of (w_fs w) (h_ino h)) (h_pos h)))) self))
    with (paranoid self).
  rewrite Hp. unfold bind at 1.
  rewrite (update_offset_file_no_live_path w _ (advanced h (line_at (content_of (w_fs w) (h_ino h)) (h_pos h))));
    [reflexivity | reflexivity | exact Hc |].
  unfold exists_ in Hex. cbn [filename set_fh].
  destruct (stat (w_fs w) (filename self)); [discriminate | reflexivity].
Qed.

Lemma next_paranoid_live_path_gone_witness :
  let w := world_of fs_removed ten_thirty [] in
  let self := reader true true 20 0 (Some (log_handle 1 2)) in
  let line := line_at (content_of (w_fs w) 1) 2 in
  line <> EmptyString
  /\ next 0 (w, self)
     = (Raise OSError, (w, set_fh (Some (advanced (log_handle 1 2) line)) self)).
Proof.
  apply (next_paranoid_live_path_gone 0 (world_of fs_removed ten_thirty [])
           (reader true true 20 0 (Some (log_handle 1 2))) (log_handle 1 2));
    [reflexivity | reflexivity | reflexivity | split; [discriminate | reflexivity]
    | reflexivity].
Defined.

(** Without a usable handle, with no archive pending and no file at the
    live path, [open] fails in [_filehandle]. *)
Lemma filehandle_no_file (w : World) (self : Pygtail) :
  _is_closed self = true -> _rotated_logfiles self = [] ->
  stat (w_fs w) (filename self) = None ->
  _filehandle (w, self) = (Raise OSError, (w, self)).
Proof.
  intros Hc Hr Hs. unfold _filehandle, bind, get_self. cbn.
  rewrite Hc, Hr. cbn. unfold open_. rewrite Hs. reflexivity.
Qed.

Lemma filehandle_readline_no_file (w : World) (self : Pygtail) :
  _is_closed self = true -> _rotated_logfiles self = [] ->
  stat (w_fs w) (filename self) = None ->
  _filehandle_readline (w, self) = (Raise OSError, (w, self)).
Proof.
  intros Hc Hr Hs. unfold _filehandle_readline, bind.
  rewrite (filehandle_no_file w self Hc Hr Hs). reflexivity.
Qed.

Lemma exists_false fs path : exists_ fs path = false -> stat fs path = None.
Proof. unfold exists_. destruct (stat fs path); [discriminate | reflexivity]. Qed.

(** X5.  A reader that has no usable handle and no archive pending, and
    whose live path does not exist, cannot read: [next], [readlines] and
    [read] raise [OSError] (from [open]) and change nothing, neither in
    the object nor in the world; no offset file is written. *)
Theorem read_missing_file fuel (w : World) (self : Pygtail) :
  _is_closed self = true -> _rotated_logfiles self = [] ->
  exists_ (w_fs w) (filename self) = false ->
  next fuel (w, self) = (Raise OSError, (w, self))
  /\ __next__ fuel (w, self) = (Raise OSError, (w, self))
  /\ readlines (S fuel) (w, self) = (Raise OSError, (w, self))
  /\ read (S fuel) (w, self) = (Raise OSError, (w, self)).
Proof.
  intros Hc Hr Hex. apply exists_false in Hex.
  assert (Hn : forall f, next f (w, self) = (Raise OSError, (w, self))).
  { intros f. apply next_raise; [|discriminate].
    apply get_next_line_raise.
    apply (filehandle_readline_no_file w self Hc Hr Hex). }
  split; [apply Hn|]. split; [apply Hn|].
  assert (Hrl : readlines (S fuel) (w, self) = (Raise OSError, (w, self))).
  { cbn [readlines]. rewrite Hn. reflexivity. }
  split; [exact Hrl|].
  unfold read, bind. rewrite Hrl. reflexivity.
Qed.

Lemma read_missing_file_witness :
  let st := (world_of fs_removed ten_thirty [], reader false true 20 0 None) in
  next 5 st = (Raise OSError, st)
  /\ __next__ 5 st = (Raise OSError, st)
  /\ readlines 6 st = (Raise OSError, st)
  /\ read 6 st = (Raise OSError, st).
Proof.
  apply (read_missing_file 5 (world_of fs_removed ten_thirty [])
           (reader false true 20 0 None)); reflexivity.
Defined.

(** X6.  The reader has read its file to the end, the file has then been
    moved away, and nothing takes its place during the next sleep.  With
    wait left and a [wait_step] that [time.sleep] accepts, the pull
    notices the move, closes the handle and resets the offset to 0,
    sleeps once, and then fails to open the live path: it
    raises [OSError], and not [StopIteration]; the object is left with a
    closed handle, offset 0 and the step added to [time_waited]. *)
Theorem next_file_moved_away fuel (w : World) (self : Pygtail) (h : Handle) :
  _fh self = Some h -> h_closed h = false ->
  _catching_up self = false -> _rotated_logfiles self = [] ->
  line_at (content_of (w_fs w) (h_ino h)) (h_pos h) = EmptyString ->
  exists_ (w_fs w) (filename self) = false ->
  budget_left self = true -> sleep_error (wait_step self) = None ->
  exists_ (w_fs (sleep (wait_step self) w)) (filename self) = false ->
  next (S fuel) (w, self)
  = (Raise OSError,
     (sleep (wait_step self) (log INFO "File moved, reloading..." w),
      set_time_waited (time_waited self + wait_step self)%float (reloaded h self))).
Proof.
  intros Hfh Hc Hcu Hr He Hex Hb Hstep Hex2.
  apply exists_false in Hex. apply exists_false in Hex2.
  apply next_raise; [|discriminate].
  rewrite (get_next_line_live_end (S fuel) (w, self) (w, self)
             (log INFO "File moved, reloading..." w, reloaded h self)
             (filehandle_readline_eof w self h Hfh Hc He) Hcu
             (check_moved w self h Hfh Hc Hex)).
  rewrite wait_for_update_turn; [|exact Hb|exact Hstep].
  unfold poll. cbn [fst snd].
  change (wait_step (reloaded h self)) with (wait_step self).
  change (time_waited (reloaded h self)) with (time_waited self).
  rewrite filehandle_readline_no_file; [reflexivity | reflexivity | exact Hr |].
  rewrite (sleep_fs (wait_step self) w (log INFO "File moved, reloading..." w) eq_refl eq_refl).
  exact Hex2.
Qed.

Lemma next_file_moved_away_witness :
  next 1 (world_of fs_removed ten_thirty [], reader_at_end 20)
  = (Raise OSError,
     (sleep 0.5%float
        (log INFO "File moved, reloading..." (world_of fs_removed ten_thirty [])),
      set_time_waited (0 + 0.5)%float (reloaded (log_handle 1 4) (reader_at_end 20)))).
Proof.
  apply (next_file_moved_away 0 (world_of fs_removed ten_thirty [])
           (reader_at_end 20) (log_handle 1 4));
    try reflexivity; discriminate.
Defined.

(* ===================================================================== *)
(** * Saving the cursor and starting again *)
(* ===================================================================== *)

(** [__init__] on an offset file that holds a cursor as
    [_update_offset_file] writes it. *)
Lemma init_cursor filename offset_file paranoid copytruncate
    wait_step wait_timeout host_name (w : World) inode offset t :
  let self0 := new_self filename offset_file paranoid copytruncate
                 wait_step wait_timeout host_name w in
  read_file (w_fs w) (_offset_file self0) = Some (cursor_text inode offset t) ->
  0 <= t < datetime_end ->
  __init__ filename offset_file paranoid copytruncate
    wait_step wait_timeout host_name w
  = (Val (resumed inode offset t
            (archives_from (w_fs w) self0 (Calendar.floor_hour t)
               (Z.to_nat (w_now w / Calendar.us_per_hour - t / Calendar.us_per_hour)))
            self0),
     w).
Proof.
  intros self0 Hrd Ht. unfold __init__, init_body. fold self0.
  unfold bind at 1. rewrite (parse_persisted w self0 inode offset t Hrd Ht).
  unfold bind at 1, get_self at 1. cbn [fst snd].
  change (_last_log (loaded inode offset t self0)) with (Some t).
  unfold bind at 1, get_world at 1. cbn [fst snd].
  rewrite (determine_rotated_logfiles_spec w (loaded inode offset t self0) t eq_refl).
  reflexivity.
Qed.

(** X7.  What [_update_offset_file] saves, a later [__init__] resumes
    from.  With an open handle and the live path in place, the update
    succeeds and changes nothing but the offset file.  An [__init__] that
    then finds this offset file (in any later world) makes an object whose
    offset is the position of the handle, whose [_offset_file_inode] is
    the inode of the live path and whose [_last_log] is the time of the
    update; its archive queue holds the existing archives of the hours
    from the hour of the update up to, but without, the current hour, and
    it is catching up exactly when this queue is not empty. *)
Theorem init_after_update (w : World) (self : Pygtail) (h : Handle) (ino size : Z)
    filename' offset_file' paranoid' copytruncate' wait_step' wait_timeout'
    host_name' :
  _fh self = Some h -> h_closed h = false ->
  stat (w_fs w) (filename self) = Some (ino, size) ->
  0 <= w_now w < datetime_end ->
  exists fs1,
    _update_offset_file (w, self) = (Val tt, (set_fs w fs1, self))
    /\ forall w2 : World,
         let self0 := new_self filename' offset_file' paranoid' copytruncate'
                        wait_step' wait_timeout' host_name' w2 in
         read_file (w_fs w2) (_offset_file self0)
         = read_file fs1 (_offset_file self) ->
         __init__ filename' offset_file' paranoid' copytruncate'
           wait_step' wait_timeout' host_name' w2
         = (Val (resumed ino (h_pos h) (w_now w)
                   (archives_from (w_fs w2) self0 (Calendar.floor_hour (w_now w))
                      (Z.to_nat (w_now w2 / Calendar.us_per_hour
                                 - w_now w / Calendar.us_per_hour)))
                   self0),
            w2).
Proof.
  intros Hfh Hc Hs Hnow.
  exists (write_file (w_fs w) (_offset_file self) (cursor_text ino (h_pos h) (w_now w))).
  split; [apply (update_offset_file_open w self h ino size Hfh Hc Hs)|].
  intros w2 self0 Hrd. rewrite read_write_file in Hrd.
  apply (init_cursor filename' offset_file' paranoid' copytruncate'
           wait_step' wait_timeout' host_name' w2 ino (h_pos h) (w_now w) Hrd Hnow).
Qed.

Lemma init_after_update_witness :
  exists fs1,
    _update_offset_file (world_of fs_ab ten_thirty [], reader_at_end 20)
    = (Val tt, (set_fs (world_of fs_ab ten_thirty []) fs1, reader_at_end 20))
    /\ forall w2 : World,
         let self0 := new_self "log" None false true 0.5%float 20%float None w2 in
         read_file (w_fs w2) (_offset_file self0)
         = read_file fs1 (_offset_file (reader_at_end 20)) ->
         __init__ "log" None false true 0.5%float 20%float None w2
         = (Val (resumed 1 (h_pos (log_handle 1 4)) (w_now (world_of fs_ab ten_thirty []))
                   (archives_from (w_fs w2) self0
                      (Calendar.floor_hour (w_now (world_of fs_ab ten_thirty [])))
                      (Z.to_nat (w_now w2 / Calendar.us_per_hour
                                 - w_now (world_of fs_ab ten_thirty [])
                                   / Calendar.us_per_hour)))
                   self0),
            w2).
Proof.
  apply (init_after_update (world_of fs_ab ten_thirty []) (reader_at_end 20)
           (log_handle 1 4) 1 4 "log" None false true 0.5%float 20%float None);
    [reflexivity | reflexivity | reflexivity | split; [discriminate | reflexivity]].
Defined.

(** X8.  [__del__] with an open handle: when the live path exists, it
    writes the cursor (inode of the live path, position of the handle,
    time) to the offset file and closes the handle, and a second call
    changes nothing any more; when the live path does not exist, it raises
    [OSError] from [os.stat] and leaves the handle open and the offset
    file unwritten. *)
Theorem del_saves_and_closes (w : World) (self : Pygtail) (h : Handle) :
  _fh self = Some h -> h_closed h = false ->
  match stat (w_fs w) (filename self) with
  | Some (ino, _) =>
      let st1 := (set_fs w (write_file (w_fs w) (_offset_file self)
                              (cursor_text ino (h_pos h) (w_now w))),
                  set_fh (Some (close h)) self) in
      __del__ (w, self) = (Val tt, st1) /\ __del__ st1 = (Val tt, st1)
  | None => __del__ (w, self) = (Raise OSError, (w, self))
  end.
Proof.
  intros Hfh Hc.
  destruct (stat (w_fs w) (filename self)) as [[ino size]|] eqn:Hs.
  - cbn zeta. split.
    + unfold __del__. unfold bind at 1.
      rewrite (update_offset_file_open w self h ino size Hfh Hc Hs).
      unfold bind, get_self, modify_self, _is_closed. cbn [fst snd].
      rewrite Hfh, Hc. cbn [fst snd]. rewrite Hfh. reflexivity.
    + unfold __del__. unfold bind at 1.
      rewrite update_offset_file_skips by reflexivity.
      reflexivity.
  - unfold __del__. unfold bind at 1.
    rewrite (update_offset_file_no_live_path w self h Hfh Hc Hs). reflexivity.
Qed.

Lemma del_saves_and_closes_witness :
  match stat (w_fs (world_of fs_ab ten_thirty [])) (filename (reader_at_end 20)) with
  | Some (ino, _) =>
      let st1 := (set_fs (world_of fs_ab ten_thirty [])
                    (write_file (w_fs (world_of fs_ab ten_thirty []))
                       (_offset_file (reader_at_end 20))
                       (cursor_text ino (h_pos (log_handle 1 4))
                          (w_now (world_of fs_ab ten_thirty [])))),
                  set_fh (Some (close (log_handle 1 4))) (reader_at_end 20)) in
      __del__ (world_of fs_ab ten_thirty [], reader_at_end 20) = (Val tt, st1)
      /\ __del__ st1 = (Val tt, st1)
  | None => __del__ (world_of fs_ab ten_thirty [], reader_at_end 20)
            = (Raise OSError, (world_of fs_ab ten_thirty [], reader_at_end 20))
  end.
Proof.
  apply (del_saves_and_closes (world_of fs_ab ten_thirty []) (reader_at_end 20)
           (log_handle 1 4)); reflexivity.
Defined.

(* ===================================================================== *)
(** * What a pull never does: the archive queue and the warnings *)
(* ===================================================================== *)

Lemma proceeds_refl st : proceeds st st.
Proof. split; [exists 0%nat; reflexivity | reflexivity]. Qed.

Lemma proceeds_trans a b c : proceeds a b -> proceeds b c -> proceeds a c.
Proof.
  intros [[n Hn] Hw] [[m Hm] Hw']. split.
  - exists (n + m)%nat. rewrite Hm, Hn. rewrite List.skipn_skipn.
    f_equal. lia.
  - congruence.
Qed.

Lemma orderly_ret {A} (a : A) : orderly (ret a).
Proof. intros st. apply proceeds_refl. Qed.

Lemma orderly_raise {A} e : orderly (@raise A e).
Proof. intros st. apply proceeds_refl. Qed.

Lemma orderly_out_of_fuel {A} : orderly (@out_of_fuel A).
Proof. intros st. apply proceeds_refl. Qed.

Lemma orderly_or_raise {A} e (o : option A) : orderly (or_raise e o).
Proof. destruct o; intros st; apply proceeds_refl. Qed.

Lemma orderly_get_self : orderly get_self.
Proof. intros st. apply proceeds_refl. Qed.

Lemma orderly_get_world : orderly get_world.
Proof. intros st. apply proceeds_refl. Qed.

Lemma orderly_bind_at {A B} (m : M A) (k : A -> M B) st :
  proceeds st (snd (m st)) -> (forall a, orderly (k a)) ->
  proceeds st (snd (bind m k st)).
Proof.
  intros H K. unfold bind. destruct (m st) as [[a|e|] st1]; cbn [snd] in *;
    [|exact H|exact H].
  eapply proceeds_trans; [exact H | apply K].
Qed.

Lemma orderly_bind {A B} (m : M A) (k : A -> M B) :
  orderly m -> (forall a, orderly (k a)) -> orderly (bind m k).
Proof. intros H K st. apply orderly_bind_at; [apply H | exact K]. Qed.

Lemma orderly_try_except {A} (m : M A) (k : M A) :
  orderly m -> orderly k -> orderly (try_except m (on_StopIteration k)).
Proof.
  intros H K st. unfold try_except. specialize (H st).
  destruct (m st) as [[a|e|] st1]; cbn [snd] in *; try exact H.
  destruct e; cbn; try exact H.
  eapply proceeds_trans; [exact H | apply K].
Qed.

Lemma orderly_modify_self (f : Pygtail -> Pygtail) :
  (forall s, _rotated_logfiles (f s) = _rotated_logfiles s) ->
  orderly (modify_self f).
Proof.
  intros Hf [w s]. split; cbn; [|reflexivity].
  exists 0%nat. apply Hf.
Qed.

Lemma orderly_modify_world (f : World -> World) :
  (forall w, warnings (w_trace (f w)) = warnings (w_trace w)) ->
  orderly (modify_world f).
Proof.
  intros Hf [w s]. split; cbn; [|apply Hf].
  exists 0%nat. reflexivity.
Qed.

Lemma warnings_log l msg w :
  l <> WARNING -> warnings (w_trace (log l msg w)) = warnings (w_trace w).
Proof. intros Hl. unfold log. cbn. destruct l; congruence. Qed.

Create HintDb orderly.
#[local] Hint Resolve orderly_ret orderly_get_self orderly_get_world
  orderly_raise orderly_out_of_fuel orderly_or_raise : orderly.
#[local] Hint Extern 1 (orderly (modify_self _)) =>
  (apply orderly_modify_self; intros; reflexivity) : orderly.
#[local] Hint Extern 1 (orderly (modify_world (log _ _))) =>
  (apply orderly_modify_world; intros; apply warnings_log; discriminate) : orderly.
#[local] Hint Extern 2 (orderly (modify_world _)) =>
  (apply orderly_modify_world; intros; reflexivity) : orderly.

Ltac orderly_steps :=
  repeat first
    [ progress auto with orderly
    | apply orderly_bind; [|intros]
    | apply orderly_try_except
    | match goal with
      | |- orderly (if ?b then _ else _) => destruct b
      | |- orderly (match ?x with _ => _ end) => destruct x
      | |- orderly (let '(_, _) := ?x in _) => destruct x
      end ].

Lemma orderly_parse_offset_file : orderly _parse_offset_file.
Proof. unfold _parse_offset_file. orderly_steps. Qed.
#[local] Hint Resolve orderly_parse_offset_file : orderly.

Lemma orderly_get_offset : orderly _get_offset.
Proof. unfold _get_offset. orderly_steps. Qed.
#[local] Hint Resolve orderly_get_offset : orderly.

Lemma bind_get_self {A} (k : Pygtail -> M A) st :
  bind get_self k st = k (snd st) st.
Proof. reflexivity. Qed.

(** [_filehandle] takes at most the head of the queue. *)
Lemma orderly_filehandle : orderly _filehandle.
Proof.
  intros [w s]. unfold _filehandle. rewrite bind_get_self. cbn [snd].
  destruct (_is_closed s); [|apply orderly_bind_at; [apply proceeds_refl | intros; orderly_steps]].
  apply orderly_bind_at; [|intros; orderly_steps].
  apply orderly_bind_at; [|intros; orderly_steps].
  destruct (_rotated_logfiles s) as [|f rest] eqn:Hr.
  - apply proceeds_refl.
  - split; cbn; [|reflexivity]. exists 1%nat. rewrite Hr. reflexivity.
Qed.
#[local] Hint Resolve orderly_filehandle : orderly.

Lemma orderly_filehandle_readline : orderly _filehandle_readline.
Proof. unfold _filehandle_readline. orderly_steps. Qed.
#[local] Hint Resolve orderly_filehandle_readline : orderly.

Lemma orderly_reload : orderly _reload.
Proof. unfold _reload. orderly_steps. Qed.
#[local] Hint Resolve orderly_reload : orderly.

Lemma orderly_check_rotate_truncate : orderly _check_rotate_truncate.
Proof. unfold _check_rotate_truncate. orderly_steps. Qed.
#[local] Hint Resolve orderly_check_rotate_truncate : orderly.

Lemma orderly_update_offset_file : orderly _update_offset_file.
Proof. unfold _update_offset_file. orderly_steps. Qed.
#[local] Hint Resolve orderly_update_offset_file : orderly.

Lemma orderly_fh_filename fh : orderly (fh_filename fh).
Proof. unfold fh_filename. orderly_steps. Qed.
#[local] Hint Resolve orderly_fh_filename : orderly.

Lemma orderly_time_sleep d : orderly (time_sleep d).
Proof. unfold time_sleep. orderly_steps. Qed.
#[local] Hint Resolve orderly_time_sleep : orderly.

Lemma orderly_wait_for_update fuel : orderly (_wait_for_update fuel).
Proof.
  induction fuel as [|fuel IH]; cbn [_wait_for_update]; orderly_steps.
Qed.
#[local] Hint Resolve orderly_wait_for_update : orderly.

Lemma orderly_get_next_line fuel : orderly (_get_next_line fuel).
Proof. unfold _get_next_line. orderly_steps. Qed.
#[local] Hint Resolve orderly_get_next_line : orderly.

Lemma orderly_next fuel : orderly (next fuel).
Proof. unfold next. orderly_steps. Qed.

Lemma orderly_readlines fuel : orderly (readlines fuel).
Proof.
  induction fuel as [|fuel IH]; [apply orderly_out_of_fuel|].
  intros st. cbn [readlines].
  pose proof (orderly_next (S fuel) st) as Hn.
  destruct (next (S fuel) st) as [[line|e|] st1]; cbn [snd] in *.
  - eapply proceeds_trans; [exact Hn|].
    apply orderly_bind_at; [apply IH | intros; apply orderly_ret].
  - destruct e; exact Hn.
  - exact Hn.
Qed.

Lemma orderly_del : orderly __del__.
Proof. unfold __del__. orderly_steps. Qed.

Lemma orderly_read fuel : orderly (read fuel).
Proof.
  unfold read. apply orderly_bind; [apply orderly_readlines|].
  intros l. destruct l; apply orderly_ret.
Qed.

(** X9.  The archive queue is fixed by [__init__]: whatever happens, a
    call of [next], [readlines], [read] or [__del__] only takes archives
    from the front of the queue; it never adds one and never reorders
    them.  So an archive that appears after the object was made is never
    read as an archive. *)
Theorem queue_only_consumed fuel (st : State) :
  (exists n, _rotated_logfiles (snd (snd (next fuel st)))
             = skipn n (_rotated_logfiles (snd st)))
  /\ (exists n, _rotated_logfiles (snd (snd (readlines fuel st)))
                = skipn n (_rotated_logfiles (snd st)))
  /\ (exists n, _rotated_logfiles (snd (snd (read fuel st)))
                = skipn n (_rotated_logfiles (snd st)))
  /\ (exists n, _rotated_logfiles (snd (snd (__del__ st)))
                = skipn n (_rotated_logfiles (snd st))).
Proof.
  split; [apply (orderly_next fuel st)|].
  split; [apply (orderly_readlines fuel st)|].
  split; [apply (orderly_read fuel st) | apply (orderly_del st)].
Qed.

(** X10.  No method logs a warning: after [next], [readlines], [read],
    [__del__] or the detector [_check_rotate_truncate], whatever their
    outcome, the messages logged at level WARNING are those that were
    there before. *)
Theorem no_warning_logged fuel (st : State) :
  warnings (w_trace (fst (snd (next fuel st)))) = warnings (w_trace (fst st))
  /\ warnings (w_trace (fst (snd (readlines fuel st)))) = warnings (w_trace (fst st))
  /\ warnings (w_trace (fst (snd (read fuel st)))) = warnings (w_trace (fst st))
  /\ warnings (w_trace (fst (snd (__del__ st)))) = warnings (w_trace (fst st))
  /\ warnings (w_trace (fst (snd (_check_rotate_truncate st))))
     = warnings (w_trace (fst st)).
Proof.
  split; [apply (orderly_next fuel st)|].
  split; [apply (orderly_readlines fuel st)|].
  split; [apply (orderly_read fuel st)|].
  split; [apply (orderly_del st) | apply (orderly_check_rotate_truncate st)].
Qed.

(* ===================================================================== *)
(** * Archives are queued only while catching up *)
(* ===================================================================== *)

(** A step that leaves [_catching_up] alone and only takes from the front
    of the queue keeps the queue in step. *)
Lemma queue_in_step_proceeds st st' :
  _catching_up (snd st') = _catching_up (snd st) ->
  proceeds st st' ->
  queue_in_step (snd st) -> queue_in_step (snd st').
Proof.
  intros Hc [[n Hn] _] Hq Hf. rewrite Hc in Hf. rewrite Hn, (Hq Hf).
  apply List.skipn_nil.
Qed.

Lemma preserves_tame {A} (m : M A) :
  tame m -> orderly m -> preserves queue_in_step m.
Proof.
  intros T O st Hq. destruct (T st) as (_ & Hc & _).
  exact (queue_in_step_proceeds st (snd (m st)) Hc (O st) Hq).
Qed.

Lemma get_next_line_catching_up fuel st :
  _catching_up (snd (snd (_get_next_line fuel st))) = _catching_up (snd st).
Proof.
  unfold _get_next_line. unfold bind at 1.
  destruct (tame_filehandle_readline st) as (_ & C & _).
  destruct (_filehandle_readline st) as [[l|e|] st1]; cbn [fst snd] in *;
    try exact C.
  destruct (nonempty l); [exact C|].
  rewrite bind_get_self.
  destruct (_catching_up (snd st1)) eqn:E; [cbn; congruence|].
  unfold bind at 1.
  destruct (tame_check_rotate_truncate st1) as (_ & C1 & _).
  destruct (_check_rotate_truncate st1) as [[u|e|] st2]; cbn [fst snd] in *;
    try congruence.
  rewrite wait_for_update_catching_up. congruence.
Qed.

Lemma preserves_get_next_line fuel : preserves queue_in_step (_get_next_line fuel).
Proof.
  intros st Hq.
  exact (queue_in_step_proceeds st _ (get_next_line_catching_up fuel st)
           (orderly_get_next_line fuel st) Hq).
Qed.

Lemma preserves_next fuel : preserves queue_in_step (next fuel).
Proof.
  unfold next.
  apply preserves_bind.
  - apply preserves_try_except; [apply preserves_get_next_line|].
    apply preserves_bind; [apply preserves_tame; auto with tame orderly|].
    intros self. destruct (_catching_up self).
    + apply preserves_bind; [apply preserves_tame; auto with tame orderly|]. intros from.
      apply preserves_bind; [apply preserves_tame; auto with tame orderly|]. intros _.
      apply preserves_bind; [apply preserves_tame; auto with tame orderly|]. intros _.
      apply preserves_bind.
      * intros [w s] _. unfold queue_in_step. cbn.
        destruct (_rotated_logfiles s); [reflexivity | discriminate].
      * intros _. apply preserves_try_except; [apply preserves_get_next_line|].
        apply preserves_bind; [apply preserves_tame; auto with tame orderly|].
        intros _ st Hq. exact Hq.
    + apply preserves_bind; [apply preserves_tame; auto with tame orderly|]. intros _.
      apply preserves_bind; [apply preserves_tame; auto with tame orderly|].
      intros _ st Hq. exact Hq.
  - intros line.
    apply preserves_bind; [apply preserves_tame; auto with tame orderly|]. intros self.
    apply preserves_bind; [|intros _ st Hq; exact Hq].
    destruct (paranoid self); apply preserves_tame; auto with tame orderly.
Qed.

Lemma preserves_readlines fuel : preserves queue_in_step (readlines fuel).
Proof.
  induction fuel as [|fuel IH]; [intros st Hq; exact Hq|].
  intros st Hq. cbn [readlines].
  pose proof (preserves_next (S fuel) st Hq) as Hn.
  destruct (next (S fuel) st) as [[line|e|] st1]; cbn [snd] in *.
  - apply (preserves_bind (readlines fuel) (fun rest => ret (line :: rest)));
      [exact IH | intros a s Hs; exact Hs | exact Hn].
  - destruct e; exact Hn.
  - exact Hn.
Qed.

Lemma init_body_queue_in_step st :
  _catching_up (snd st) = false -> _rotated_logfiles (snd st) = [] ->
  queue_in_step (snd (snd (init_body st))).
Proof.
  intros Hc Hr. unfold init_body. unfold bind at 1.
  destruct (tame_parse_offset_file st) as (_ & C & _).
  destruct (orderly_parse_offset_file st) as ((n & Hn) & _).
  rewrite Hr, List.skipn_nil in Hn.
  destruct (_parse_offset_file st) as [[u|e|] [w1 s1]]; cbn [fst snd] in *;
    try (intros _; exact Hn).
  rewrite bind_get_self. cbn [snd].
  destruct (_last_log s1) as [t|]; [|intros _; exact Hn].
  unfold bind at 1, get_world at 1. cbn [fst snd].
  destruct (_determine_rotated_logfiles w1 s1) as [l|e|]; cbn;
    try (intros _; exact Hn).
  unfold queue_in_step. cbn. destruct l; [reflexivity | discriminate].
Qed.

(** X11.  Archives are queued only while the reader is catching up: the
    object [__init__] makes has an empty archive queue unless
    [_catching_up] is set, and [next] and [readlines] keep it so, whatever
    their outcome.  Hence, once the reader has left catching-up mode,
    [_filehandle] takes no archive any more and opens the live path. *)
Theorem queue_empty_unless_catching_up :
  (forall filename offset_file paranoid copytruncate wait_step wait_timeout
          host_name (w w' : World) (self : Pygtail),
     __init__ filename offset_file paranoid copytruncate
       wait_step wait_timeout host_name w = (Val self, w') ->
     queue_in_step self)
  /\ (forall fuel st,
        queue_in_step (snd st) -> queue_in_step (snd (snd (next fuel st))))
  /\ (forall fuel st,
        queue_in_step (snd st) -> queue_in_step (snd (snd (readlines fuel st)))).
Proof.
  split; [|split; [exact preserves_next | exact preserves_readlines]].
  intros fn off p c ws wt hn w w' self H. unfold __init__ in H.
  pose proof (init_body_queue_in_step
                (w, new_self fn off p c ws wt hn w) eq_refl eq_refl) as Hq.
  destruct (init_body (w, new_self fn off p c ws wt hn w)) as [[u|e|] [w1 s1]];
    [|discriminate|discriminate].
  injection H as <- <-. exact Hq.
Qed.

Lemma queue_empty_unless_catching_up_witness :
  queue_in_step session_1105
  /\ queue_in_step (snd (snd (next 5 (world_1105, session_1105))))
  /\ queue_in_step (snd (snd (readlines 5 (world_1105, session_1105)))).
Proof.
  destruct queue_empty_unless_catching_up as (Hi & Hn & Hr).
  assert (Hq : queue_in_step session_1105).
  { apply (Hi "log" None false true 0.5%float 20%float None world_1105 world_1105).
    vm_compute. reflexivity. }
  split; [exact Hq|].
  split; [apply (Hn 5%nat (world_1105, session_1105) Hq)
         | apply (Hr 5%nat (world_1105, session_1105) Hq)].
Defined.

(* ===================================================================== *)
(** * From one archive to the next file *)
(* ===================================================================== *)

(** At the end of an archive, while catching up, [next] logs, reloads,
    sets [_catching_up] from the queue and tries again. *)
Lemma next_archive_end fuel (w : World) (self : Pygtail) (h : Handle) :
  _catching_up self = true ->
  _fh self = Some h -> h_closed h = false -> h_gz h = true ->
  line_at (content_of (w_fs w) (h_ino h)) (h_pos h) = EmptyString ->
  next fuel (w, self)
  = (line <- try_except (_get_next_line fuel)
               (on_StopIteration (_update_offset_file ;; raise StopIteration)) ;;
     self <- get_self ;;
     (if paranoid self then _update_offset_file else ret tt) ;;
     ret line) (log DEBUG (moving_msg h self) w, moved_on h self).
Proof.
  intros Hcu Hfh Hc Hgz He. unfold next.
  unfold bind at 1, try_except at 1.
  rewrite (get_next_line_archive_end fuel (w, self) (w, self)
             (filehandle_readline_eof w self h Hfh Hc He) Hcu).
  cbn [on_StopIteration].
  unfold _reload, fh_filename.
  unfold bind, get_self, modify_world, modify_self, or_raise, ret.
  cbn [fst snd]. rewrite Hcu, Hfh, Hgz. cbn [fst snd]. rewrite ?Hfh. cbn [fst snd].
  reflexivity.
Qed.

(** The first read after the move: the next file is opened at offset 0. *)
Lemma filehandle_readline_moved_on (w wl : World) (self : Pygtail) (h : Handle) ino size :
  w_fs wl = w_fs w ->
  stat (w_fs w) (next_name self) = Some (ino, size) ->
  let line := line_at (content_of (w_fs w) ino) 0 in
  _filehandle_readline (wl, moved_on h self)
  = (Val line,
     (wl, set_fh (Some (opened (next_name self) ino (Str.len line)))
            (set_rotated_logfiles (tl (_rotated_logfiles self)) (moved_on h self)))).
Proof.
  intros Hw Hs line. unfold _filehandle_readline. unfold bind at 1.
  rewrite (filehandle_opens wl (moved_on h self) ino size 0
             (mkHandle (next_name self) ino (Str.endswith (next_name self) ".gz") 0 false));
    [| reflexivity | reflexivity | rewrite Hw; exact Hs | apply seek_zero].
  unfold bind at 1, get_world at 1. cbn [fst snd].
  rewrite readline_advanced. cbn [h_ino h_pos]. rewrite Hw. reflexivity.
Qed.



(** X13.  While catching up, when the open archive is at its end and the
    next archive of the queue is empty, the pull ends in [StopIteration]
    although files are left to read (the rest of the queue and the live
    file).  The empty archive is left open at position 0, and the offset
    file is written with the inode of the live path and offset 0. *)
Theorem next_empty_archive_stops fuel (w : World) (self : Pygtail) (h : Handle)
    (f : string) (rest : list string) (ino ino_live size_live : Z) :
  _catching_up self = true ->
  _fh self = Some h -> h_closed h = false -> h_gz h = true ->
  line_at (content_of (w_fs w) (h_ino h)) (h_pos h) = EmptyString ->
  _rotated_logfiles self = f :: rest ->
  stat (w_fs w) f = Some (ino, 0) ->
  stat (w_fs w) (filename self) = Some (ino_live, size_live) ->
  next fuel (w, self)
  = (Raise StopIteration,
     (set_fs (log DEBUG (moving_msg h self) w)
        (write_file (w_fs w) (_offset_file self) (cursor_text ino_live 0 (w_now w))),
      set_fh (Some (opened f ino 0))
        (set_rotated_logfiles rest (set_catching_up true (reloaded h self))))).
Proof.
  intros Hcu Hfh Hc Hgz He Hq Hs Hlive.
  assert (Hn : next_name self = f) by (unfold next_name; rewrite Hq; reflexivity).
  assert (Hs' : stat (w_fs w) (next_name self) = Some (ino, 0)) by (rewrite Hn; exact Hs).
  assert (Hl : line_at (content_of (w_fs w) ino) 0 = EmptyString).
  { apply line_at_eof. rewrite <- (stat_size _ _ _ _ Hs). lia. }
  pose proof (filehandle_readline_moved_on w (log DEBUG (moving_msg h self) w)
                self h ino 0 eq_refl Hs') as Hrd.
  cbn zeta in Hrd. rewrite Hl, Hn in Hrd.
  assert (Hm : moved_on h self = set_catching_up true (reloaded h self)).
  { unfold moved_on. rewrite Hq. reflexivity. }
  rewrite Hq, Hm in Hrd. cbn [tl] in Hrd.
  change (Str.len EmptyString) with 0 in Hrd.
  rewrite (next_archive_end fuel w self h Hcu Hfh Hc Hgz He). rewrite Hm.
  unfold bind at 1, try_except at 1.
  rewrite (get_next_line_archive_end fuel _ _ Hrd eq_refl).
  cbn [on_StopIteration]. unfold bind at 1.
  rewrite (update_offset_file_open (log DEBUG (moving_msg h self) w)
             (set_fh (Some (opened f ino 0))
                (set_rotated_logfiles rest (set_catching_up true (reloaded h self))))
             (opened f ino 0) ino_live size_live eq_refl eq_refl Hlive).
  reflexivity.
Qed.

Lemma next_empty_archive_stops_witness :
  let w := world_of fs_three_archives ten_thirty [] in
  let h := archive_handle "log_host_2020010111.gz" 3 7 in
  let self := catching_up_reader (Some h) ["log_host_2020010112.gz"] in
  next 0 (w, self)
  = (Raise StopIteration,
     (set_fs (log DEBUG (moving_msg h self) w)
        (write_file (w_fs w) (_offset_file self) (cursor_text 1 0 (w_now w))),
      set_fh (Some (opened "log_host_2020010112.gz" 4 0))
        (set_rotated_logfiles [] (set_catching_up true (reloaded h self))))).
Proof.
  apply (next_empty_archive_stops 0 (world_of fs_three_archives ten_thirty [])
           (catching_up_reader (Some (archive_handle "log_host_2020010111.gz" 3 7))
              ["log_host_2020010112.gz"])
           (archive_handle "log_host_2020010111.gz" 3 7)
           "log_host_2020010112.gz" [] 4 1 5); reflexivity.
Defined.

(* ===================================================================== *)
(** * Reading all there is *)
(* ===================================================================== *)

Lemma lines_acc_cons c r : forall cur,
  Str.lines_acc cur (String c r)
  = (cur +:+ Str.take_line (String c r))
    :: Str.lines_acc EmptyString
         (Str.drop (String.length (Str.take_line (String c r))) (String c r)).
Proof.
  revert c. induction r as [|c' r' IH]; intros c cur.
  - cbn [Str.lines_acc Str.take_line].
    destruct (Ascii.eqb c Str.nl_char); [reflexivity|].
    cbn [String.length Str.drop Str.lines_acc].
    destruct cur as [|x cur]; reflexivity.
  - remember (String c' r') as r eqn:Er.
    cbn [Str.lines_acc Str.take_line].
    destruct (Ascii.eqb c Str.nl_char); [reflexivity|].
    cbn [String.length Str.drop]. subst r. rewrite IH.
    rewrite append_assoc. reflexivity.
Qed.

Lemma lines_cons s :
  s <> EmptyString ->
  Str.lines s
  = Str.take_line s :: Str.lines (Str.drop (String.length (Str.take_line s)) s).
Proof.
  destruct s as [|c r]; [congruence|]. intros _.
  unfold Str.lines. rewrite lines_acc_cons. reflexivity.
Qed.

Lemma lines_nil s : Str.lines s = [] -> s = EmptyString.
Proof.
  destruct s as [|c r]; [reflexivity|].
  rewrite lines_cons by discriminate. discriminate.
Qed.

Lemma join_lines_acc s : forall cur, join (Str.lines_acc cur s) = cur +:+ s.
Proof.
  induction s as [|c r IH]; intros cur.
  - cbn [Str.lines_acc]. rewrite append_empty_r.
    destruct cur; [reflexivity|]. cbn [join]. apply append_empty_r.
  - cbn [Str.lines_acc]. destruct (Ascii.eqb c Str.nl_char).
    + cbn [join]. rewrite IH, append_assoc. reflexivity.
    + rewrite IH, append_assoc. reflexivity.
Qed.

Lemma join_lines s : join (Str.lines s) = s.
Proof. unfold Str.lines. apply join_lines_acc. Qed.

Lemma drop_empty n : Str.drop n EmptyString = EmptyString.
Proof. destruct n; reflexivity. Qed.

Lemma drop_drop a : forall b s, Str.drop b (Str.drop a s) = Str.drop (a + b) s.
Proof.
  induction a as [|a IH]; intros b s; [reflexivity|].
  destruct s as [|c r]; cbn [Str.drop Nat.add].
  - rewrite !drop_empty. reflexivity.
  - apply IH.
Qed.

Lemma take_line_length s : (String.length (Str.take_line s) <= String.length s)%nat.
Proof.
  induction s as [|c r IH]; cbn; [lia|].
  destruct (Ascii.eqb c Str.nl_char); cbn; lia.
Qed.

Lemma drop_nil n s : Str.drop n s = EmptyString -> (String.length s <= n)%nat.
Proof.
  intros H. pose proof (drop_length n s) as L. rewrite H in L. cbn in L. lia.
Qed.

Lemma set_time_waited_same self : set_time_waited (time_waited self) self = self.
Proof. destruct self; reflexivity. Qed.

Lemma at_pos_same h : at_pos h (h_pos h) = h.
Proof. destruct h; reflexivity. Qed.

Lemma sleep_idle d w :
  w_schedule w = [] -> w_fs (sleep d w) = w_fs w /\ w_schedule (sleep d w) = [].
Proof. intros H. unfold sleep. cbn. rewrite H. split; reflexivity. Qed.

(** At the end of a file nobody writes to, the wait runs out. *)
Lemma wait_in_vain k : forall w self h size fuel,
  settled w self h size -> h_pos h = size ->
  budget_left
    (set_time_waited (add_steps k (wait_step self) (time_waited self)) self) = false ->
  (k <= fuel)%nat ->
  exists w' t',
    _wait_for_update fuel (w, self) = (Raise StopIteration, (w', set_time_waited t' self))
    /\ w_fs w' = w_fs w.
Proof.
  induction k as [|k IH]; intros w self h size fuel Hset Hpos Hk Hf;
    pose proof Hset as (Hsch & Hfh & Hc & Hcu & Hp & Hstep & Hs & Hr).
  - exists w, (time_waited self). rewrite set_time_waited_same. split; [|reflexivity].
    apply wait_for_update_exhausted. exact Hk.
  - destruct (budget_left self) eqn:Hb.
    2:{ exists w, (time_waited self). rewrite set_time_waited_same. split; [|reflexivity].
        apply wait_for_update_exhausted. exact Hb. }
    destruct fuel as [|fuel]; [lia|].
    destruct (sleep_idle (wait_step self) w Hsch) as [Hfs Hsch1].
    rewrite wait_for_update_turn; [|exact Hb|exact Hstep].
    unfold poll. cbn [fst snd].
    rewrite (filehandle_readline_eof _ _ h);
      [|exact Hfh|exact Hc|rewrite Hfs; apply line_at_eof;
                           rewrite <- (stat_size _ _ _ _ Hs); lia].
    cbn [nonempty]. unfold bind.
    rewrite (check_unchanged (sleep (wait_step self) w)
               (set_time_waited (time_waited self + wait_step self)%float self)
               h Hfh Hc size);
      [|rewrite Hfs; exact Hs|right; lia].
    destruct (IH (sleep (wait_step self) w)
                (set_time_waited (time_waited self + wait_step self)%float self) h size fuel)
      as (w' & t' & Hw & Hfs');
      [|exact Hpos|exact Hk|lia|].
    { unfold settled. rewrite Hfs. repeat split; try assumption; apply Hr. }
    exists w', t'. split; [exact Hw | congruence].
Qed.

(** A pull at the end of such a file: the wait runs out, the cursor is
    saved, and the pull ends in [StopIteration]. *)
Lemma next_in_vain k w self h size :
  settled w self h size -> h_pos h = size ->
  budget_left
    (set_time_waited (add_steps k (wait_step self) (time_waited self)) self) = false ->
  forall fuel, (k <= fuel)%nat ->
    exists w' t',
      next fuel (w, self) = (Raise StopIteration, (w', set_time_waited t' self))
      /\ w_fs w' = write_file (w_fs w) (_offset_file self)
                     (cursor_text (h_ino h) size (w_now w')).
Proof.
  intros Hset Hpos Hk fuel Hf.
  pose proof Hset as (Hsch & Hfh & Hc & Hcu & Hp & Hstep & Hs & Hr).
  assert (He : line_at (content_of (w_fs w) (h_ino h)) (h_pos h) = EmptyString).
  { apply line_at_eof. rewrite <- (stat_size _ _ _ _ Hs). lia. }
  assert (Hg : _get_next_line fuel (w, self) = _wait_for_update fuel (w, self)).
  { apply (get_next_line_live_end fuel (w, self) (w, self) (w, self)
             (filehandle_readline_eof w self h Hfh Hc He) Hcu).
    apply (check_unchanged w self h Hfh Hc size Hs). right. lia. }
  destruct (wait_in_vain k w self h size fuel Hset Hpos Hk Hf) as (w1 & t1 & Hw & Hfs).
  rewrite Hw in Hg.
  assert (Hs1 : stat (w_fs w1) (filename self) = Some (h_ino h, size))
    by (rewrite Hfs; exact Hs).
  destruct (next_live_stop fuel (w, self) (w1, set_time_waited t1 self) Hg Hcu)
    as (st2 & Hup & Hn).
  { right. exists h. repeat split; [exact Hfh | exact Hc |].
    cbn [fst snd]. unfold exists_.
    change (filename (set_time_waited t1 self)) with (filename self).
    rewrite Hs1. reflexivity. }
  cbn [fst snd] in Hup.
  rewrite (update_offset_file_open
             (log DEBUG "StopIteration at the main file, exiting" w1)
             (set_time_waited t1 self) h (h_ino h) size Hfh Hc Hs1) in Hup.
  injection Hup as <-.
  eexists _, t1. split; [exact Hn|].
  unfold set_fs, log. cbn. rewrite Hfs, Hpos. reflexivity.
Qed.

(** All the lines from the position of the handle to the end, then the
    wait in vain. *)
Lemma readlines_settled k ls : forall w self h size,
  settled w self h size ->
  budget_left
    (set_time_waited (add_steps k (wait_step self) (time_waited self)) self) = false ->
  Str.lines (Str.drop (Z.to_nat (h_pos h)) (content_of (w_fs w) (h_ino h))) = ls ->
  exists n, forall fuel, (n <= fuel)%nat ->
    exists w' t',
      readlines fuel (w, self)
      = (Val ls, (w', set_time_waited t' (set_fh (Some (at_pos h size)) self)))
      /\ w_fs w' = write_file (w_fs w) (_offset_file self)
                     (cursor_text (h_ino h) size (w_now w')).
Proof.
  induction ls as [|l rest IH]; intros w self h size Hset Hk Hls;
    pose proof Hset as (Hsch & Hfh & Hc & Hcu & Hp & Hstep & Hs & Hr);
    pose proof (stat_size _ _ _ _ Hs) as Hsize.
  - apply lines_nil in Hls. apply drop_nil in Hls.
    assert (Hpos : h_pos h = size) by (unfold Str.len in Hsize; lia).
    pose proof (next_in_vain k w self h size Hset Hpos Hk) as Hn.
    exists (S k). intros fuel Hf. destruct fuel as [|fuel]; [lia|].
    destruct (Hn (S fuel)) as (w' & t' & Hnx & Hfs); [lia|].
    exists w', t'. split; [|exact Hfs].
    cbn [readlines]. rewrite Hnx.
    rewrite <- Hpos, at_pos_same, (set_fh_same self h Hfh). reflexivity.
  - remember (content_of (w_fs w) (h_ino h)) as c eqn:Ec.
    remember (Str.drop (Z.to_nat (h_pos h)) c) as s eqn:Es.
    assert (Hne : s <> EmptyString) by (intros E; rewrite E in Hls; discriminate).
    rewrite (lines_cons s Hne) in Hls. injection Hls as Hl Hrest.
    pose proof (drop_length (Z.to_nat (h_pos h)) c) as L. rewrite <- Es in L.
    pose proof (take_line_length s) as T. rewrite Hl in T.
    assert (Hl0 : (0 < String.length l)%nat).
    { pose proof (take_line_nonempty s Hne) as N. rewrite Hl in N.
      destruct l; [congruence | cbn; lia]. }
    assert (Hlt : 0 <= h_pos h < Str.len c) by (unfold Str.len in *; lia).
    assert (Hline : line_at c (h_pos h) = l).
    { unfold line_at. destruct (Z.leb_spec (Str.len c) (h_pos h)); [lia|].
      rewrite <- Es. exact Hl. }
    assert (Hnext : forall fuel,
               next fuel (w, self) = (Val l, (w, set_fh (Some (advanced h l)) self))).
    { intros fuel.
      assert (Hlt' : 0 <= h_pos h < Str.len (content_of (w_fs w) (h_ino h)))
        by (rewrite <- Ec; exact Hlt).
      destruct (get_next_line_unread fuel w self h Hfh Hc Hlt') as [_ Hg].
      rewrite <- Ec, Hline in Hg.
      rewrite (next_line fuel _ _ _ Hg). cbn [snd].
      change (paranoid (set_fh (Some (advanced h l)) self)) with (paranoid self).
      rewrite Hp. reflexivity. }
    destruct (IH w (set_fh (Some (advanced h l)) self) (advanced h l) size)
      as (n & Hn).
    { unfold settled. cbn [h_ino h_pos h_closed advanced].
      repeat split; try assumption; try reflexivity; unfold Str.len in *; lia. }
    { exact Hk. }
    { cbn [h_ino h_pos advanced]. rewrite <- Ec, <- Hrest, <- Hl.
      rewrite Es, drop_drop. f_equal. f_equal. rewrite <- Es, Hl.
      unfold Str.len. lia. }
    exists (S n). intros fuel Hf. destruct fuel as [|fuel]; [lia|].
    destruct (Hn fuel) as (w' & t' & Hrl & Hfs); [lia|].
    exists w', t'. split; [|exact Hfs].
    cbn [readlines]. rewrite Hnext. unfold bind. rewrite Hrl. reflexivity.
Qed.

(** Opening the live path at an offset inside the file. *)
Lemma seek_inside fs name ino gz offset :
  0 <= offset <= Str.len (content_of fs ino) ->
  seek fs (mkHandle name ino gz 0 false) offset
  = Some (mkHandle name ino gz offset false).
Proof.
  intros H. unfold seek. cbn. destruct gz.
  - f_equal. f_equal. lia.
  - destruct (Z.ltb_spec offset 0); [lia | reflexivity].
Qed.

(** The first read of a reader without a handle is the read of a reader
    that has the live path open at its offset. *)
Lemma filehandle_readline_fresh (w : World) (self : Pygtail) ino size p :
  _is_closed self = true -> _rotated_logfiles self = [] ->
  _offset self = Some p -> 0 <= p <= size ->
  stat (w_fs w) (filename self) = Some (ino, size) ->
  _filehandle_readline (w, self)
  = _filehandle_readline (w, set_fh (Some (opened (filename self) ino p)) self).
Proof.
  intros Hc Hr Ho Hp Hs.
  rewrite (filehandle_readline_open w (set_fh (Some (opened (filename self) ino p)) self)
             (opened (filename self) ino p) eq_refl eq_refl).
  unfold _filehandle_readline. unfold bind at 1.
  rewrite (filehandle_reopen_live w self ino size p (opened (filename self) ino p)
             Hc Hr Ho Hs);
    [|apply seek_inside; rewrite <- (stat_size _ _ _ _ Hs); exact Hp].
  unfold bind, get_world, modify_self, ret. cbn [fst snd].
  destruct (readline (w_fs w) (opened (filename self) ino p)) as [line fh'].
  reflexivity.
Qed.

Lemma next_same_read fuel st st' :
  _filehandle_readline st = _filehandle_readline st' ->
  next fuel st = next fuel st'.
Proof.
  intros H. unfold next, _get_next_line, bind, try_except. rewrite H. reflexivity.
Qed.



(** The same reader, run: the two lines of [log] come out, and a reader
    that starts afterwards from the offset file gets nothing more. *)
Example readlines_then_resume :
  let st := (world_of fs_ab ten_thirty [], reader false true 20 0 None) in
  fst (readlines 50 st) = Val [Str.unlines ["a"]; Str.unlines ["b"]]
  /\ fst (read 50 st) = Val (Some (Str.unlines ["a"; "b"]))
  /\ match __init__ "log" None false true 0.5%float 20%float None (fst (snd (readlines 50 st))) with
     | (Val self2, w2) =>
         _offset self2 = Some 4 /\ fst (readlines 50 (w2, self2)) = Val []
         /\ fst (read 50 (w2, self2)) = Val None
     | _ => False
     end.
Proof. vm_compute. repeat split; reflexivity. Qed.

(* ===================================================================== *)
(** * A stale handle found with no wait left, and a restart *)
(* ===================================================================== *)

(** The detector on a stale handle. *)
Lemma check_stale (w : World) (self : Pygtail) (h : Handle) :
  _fh self = Some h -> h_closed h = false ->
  stale w self h = true ->
  exists wl,
    _check_rotate_truncate (w, self) = (Val tt, (wl, reloaded h self))
    /\ w_fs wl = w_fs w.
Proof.
  intros Hfh Hc. unfold stale.
  destruct (stat (w_fs w) (filename self)) as [[ino size]|] eqn:Hs.
  - destruct (Z.eqb_spec (h_ino h) ino) as [E|Hne]; cbn [negb orb].
    + subst ino. intros Hb. apply andb_true_iff in Hb. destruct Hb as [Hct Hlt].
      apply Z.ltb_lt in Hlt.
      eexists. split; [apply (check_truncated w self h Hfh Hc size Hs Hct Hlt)|].
      reflexivity.
    + intros _. eexists.
      split; [apply (check_rotated w self h Hfh Hc ino size Hs); congruence|].
      destruct (copytruncate self && (size <? h_pos h))%bool; reflexivity.
  - intros _. eexists. split; [apply (check_moved w self h Hfh Hc Hs)|]. reflexivity.
Qed.

(** The first pull of a reader without a handle whose offset lies before
    the end of the live file. *)
Lemma next_fresh_line fuel (w : World) (self : Pygtail) ino size p :
  _is_closed self = true -> _rotated_logfiles self = [] ->
  _offset self = Some p -> 0 <= p < size ->
  stat (w_fs w) (filename self) = Some (ino, size) ->
  fst (next fuel (w, self)) = Val (line_at (content_of (w_fs w) ino) p).
Proof.
  intros Hc Hr Ho Hp Hs.
  rewrite (next_same_read fuel (w, self)
             (w, set_fh (Some (opened (filename self) ino p)) self)
             (filehandle_readline_fresh w self ino size p Hc Hr Ho
                (conj (proj1 Hp) (Z.lt_le_incl _ _ (proj2 Hp))) Hs)).
  assert (Hin : 0 <= h_pos (opened (filename self) ino p)
                < Str.len (content_of (w_fs w) (h_ino (opened (filename self) ino p)))).
  { cbn. rewrite <- (stat_size _ _ _ _ Hs). exact Hp. }
  destruct (get_next_line_unread fuel w
              (set_fh (Some (opened (filename self) ino p)) self)
              (opened (filename self) ino p) eq_refl eq_refl Hin) as [_ Hg].
  cbn [h_ino h_pos opened] in Hg.
  rewrite (next_line fuel _ _ _ Hg). cbn [snd].
  match goal with
  | |- context [paranoid ?s] => change (paranoid s) with (paranoid self)
  end.
  destruct (paranoid self); [|reflexivity].
  unfold bind.
  erewrite update_offset_file_open; [reflexivity | reflexivity | reflexivity | exact Hs].
Qed.

(** X15.  A reader at the end of its file, with no wait left (as with
    [wait_timeout] 0, or after a wait in vain), finds its handle stale:
    the live path is gone, or names another inode, or (with copytruncate)
    the file has shrunk below the read position.  The pull closes the
    handle, resets the offset to 0 and raises [StopIteration]; it reads
    nothing and does not write the offset file.  It is the next pull that
    opens the file now at the live path, at position 0, and returns its
    first line. *)
Theorem next_stale_without_wait fuel (w : World) (self : Pygtail) (h : Handle) :
  _fh self = Some h -> h_closed h = false ->
  _catching_up self = false -> _rotated_logfiles self = [] ->
  line_at (content_of (w_fs w) (h_ino h)) (h_pos h) = EmptyString ->
  stale w self h = true ->
  budget_left self = false ->
  exists wl,
    next fuel (w, self)
    = (Raise StopIteration,
       (log DEBUG "StopIteration at the main file, exiting" wl, reloaded h self))
    /\ w_fs wl = w_fs w
    /\ forall ino2 size2 fuel',
         stat (w_fs w) (filename self) = Some (ino2, size2) -> 0 < size2 ->
         fst (next fuel' (log DEBUG "StopIteration at the main file, exiting" wl,
                          reloaded h self))
         = Val (line_at (content_of (w_fs w) ino2) 0).
Proof.
  intros Hfh Hc Hcu Hr He Hst Hb.
  destruct (check_stale w self h Hfh Hc Hst) as (wl & Hd & Hfs).
  exists wl. split; [exact (next_reload_no_wait fuel w wl self h Hfh Hc Hcu He Hd Hb)|].
  split; [exact Hfs|].
  intros ino2 size2 fuel' Hs Hpos.
  assert (Hfl : w_fs (log DEBUG "StopIteration at the main file, exiting" wl) = w_fs w)
    by (unfold log; cbn; exact Hfs).
  rewrite <- Hfl.
  apply (next_fresh_line fuel' _ (reloaded h self) ino2 size2 0);
    [reflexivity | exact Hr | reflexivity | lia |].
  rewrite Hfl. exact Hs.
Qed.

Lemma next_stale_without_wait_witness :
  exists wl,
    next 1 (world_of fs_rotated ten_thirty [], reader_at_end 0)
    = (Raise StopIteration,
       (log DEBUG "StopIteration at the main file, exiting" wl,
        reloaded (log_handle 1 4) (reader_at_end 0)))
    /\ w_fs wl = w_fs (world_of fs_rotated ten_thirty [])
    /\ forall ino2 size2 fuel',
         stat (w_fs (world_of fs_rotated ten_thirty [])) (filename (reader_at_end 0))
         = Some (ino2, size2) -> 0 < size2 ->
         fst (next fuel' (log DEBUG "StopIteration at the main file, exiting" wl,
                          reloaded (log_handle 1 4) (reader_at_end 0)))
         = Val (line_at (content_of (w_fs (world_of fs_rotated ten_thirty [])) ino2) 0).
Proof.
  apply (next_stale_without_wait 1 (world_of fs_rotated ten_thirty [])
           (reader_at_end 0) (log_handle 1 4)); reflexivity.
Defined.

(** X16.  The inode of the offset file plays no part at start-up.  An
    [__init__] that finds a cursor (inode, offset, time) written in the
    current hour, so that no archive is looked for, makes a reader that
    keeps the inode in [_offset_file_inode] and whose first pull opens the
    live path and reads it from the offset of the cursor, whatever inode
    the live path now has: a file that has replaced the one the cursor
    was written for is read from the old offset, not from its start. *)
Theorem init_resumes_at_offset
    filename offset_file paranoid copytruncate wait_step wait_timeout host_name
    (w : World) (inode offset : Z) (t : Calendar.datetime) (ino size : Z) :
  let self0 := new_self filename offset_file paranoid copytruncate
                 wait_step wait_timeout host_name w in
  read_file (w_fs w) (_offset_file self0) = Some (cursor_text inode offset t) ->
  0 <= t < datetime_end ->
  w_now w / Calendar.us_per_hour <= t / Calendar.us_per_hour ->
  stat (w_fs w) filename = Some (ino, size) ->
  0 <= offset < size ->
  exists self,
    __init__ filename offset_file paranoid copytruncate
      wait_step wait_timeout host_name w = (Val self, w)
    /\ _offset_file_inode self = Some inode
    /\ _offset self = Some offset
    /\ _rotated_logfiles self = [] /\ _catching_up self = false
    /\ forall fuel,
         fst (next fuel (w, self)) = Val (line_at (content_of (w_fs w) ino) offset).
Proof.
  intros self0 Hrd Ht Hh Hs Hoff.
  pose proof (init_cursor filename offset_file paranoid copytruncate
                wait_step wait_timeout host_name w inode offset t Hrd Ht) as Hi.
  fold self0 in Hi.
  replace (Z.to_nat (w_now w / Calendar.us_per_hour - t / Calendar.us_per_hour))
    with 0%nat in Hi by lia.
  eexists. split; [exact Hi|].
  split; [reflexivity|]. split; [reflexivity|]. split; [reflexivity|].
  split; [reflexivity|].
  intros fuel.
  apply (next_fresh_line fuel w _ ino size offset);
    [reflexivity | reflexivity | reflexivity | exact Hoff | exact Hs].
Qed.

Lemma init_resumes_at_offset_witness :
  exists self,
    __init__ "log" None false true 0.5%float 20%float None
      (world_of fs_replaced ten_thirty []) = (Val self, world_of fs_replaced ten_thirty [])
    /\ _offset_file_inode self = Some 7
    /\ _offset self = Some 4
    /\ _rotated_logfiles self = [] /\ _catching_up self = false
    /\ forall fuel,
         fst (next fuel (world_of fs_replaced ten_thirty [], self))
         = Val (line_at (content_of (w_fs (world_of fs_replaced ten_thirty [])) 1) 4).
Proof.
  apply (init_resumes_at_offset "log" None false true 0.5%float 20%float None
           (world_of fs_replaced ten_thirty []) 7 4 ten_thirty 1 8);
    [reflexivity | split; [discriminate | reflexivity] | discriminate | reflexivity
    | split; [discriminate | reflexivity]].
Defined.

(** In this world [log] (inode 1) holds [abc] and [def], and the offset
    file says inode 7, offset 4: the pull returns [def]. *)
Example init_resumes_in_replaced_file :
  match __init__ "log" None false true 0.5%float 20%float None
          (world_of fs_replaced ten_thirty []) with
  | (Val self, w) => fst (next 1 (w, self)) = Val (Str.unlines ["def"])
  | _ => False
  end.
Proof. vm_compute. reflexivity. Qed.
